(** * schema-dts: ontology resolution and type-expression synthesis

    A shallow embedding of the generator of schema-dts.  Two revisions of
    the generator are present in the sources and both are embedded:

    - [JsonLd]: the JSON-LD pipeline ([lib/jsonld.ts], [lib/wellKnown.ts],
      [lib/toProperty.ts], [lib/toClass.ts], [generator/run.ts]);
    - [Triples]: the triple-based class synthesiser ([ts/class.ts],
      [ts/util/names.ts]), with [Names] for the enumeration names of
      [ts/util/names.ts] and [Reader] for the helpers of [parser/reader.ts].

    Exceptions are values of [result]; the registry [Map<string, Class>]
    is an insertion-ordered association list, as a JavaScript [Map] is.
    What the generator logs ([console.error], [Log]) is left out: no value
    depends on it. *)

From Stdlib Require Import String Ascii List ZArith Bool Lia.
From Stdlib Require Import Permutation Sorted.
From Stdlib Require OrderedTypeEx.
Import ListNotations.
Open Scope string_scope.
Open Scope list_scope.

Set Implicit Arguments.
Set Warnings "-register-all".

(** ** Outcomes of a call *)

(** [Throw] is a JavaScript exception carrying its message.  [StackOverflow]
    is the outcome of a recursion that exhausts the call-stack budget (the
    models of recursive methods take that budget as [fuel]). *)
Inductive result (A : Type) : Type :=
| Ok (a : A)
| Throw (message : string)
| StackOverflow.

Arguments Ok {A} a.
Arguments Throw {A} message.
Arguments StackOverflow {A}.

Definition bind {A B : Type} (r : result A) (k : A -> result B) : result B :=
  match r with
  | Ok a => k a
  | Throw m => Throw m
  | StackOverflow => StackOverflow
  end.

Notation "x <- r ;; k" := (bind r (fun x => k))
  (at level 61, r at next level, right associativity).
Notation "' p <- r ;; k" := (bind r (fun p => k))
  (at level 61, p pattern, r at next level, right associativity).

(** [for (const x of xs) st = body(x, st)], stopping at the first exception. *)
Fixpoint forEach {A S : Type} (body : A -> S -> result S) (xs : list A) (st : S)
  : result S :=
  match xs with
  | [] => Ok st
  | x :: rest => st' <- body x st ;; forEach body rest st'
  end.

(** [xs.map(f)] where [f] may throw. *)
Fixpoint mapM {A B : Type} (f : A -> result B) (xs : list A) : result (list B) :=
  match xs with
  | [] => Ok []
  | x :: rest => y <- f x ;; ys <- mapM f rest ;; Ok (y :: ys)
  end.

(** ** The TypeScript syntax nodes the generator creates *)

(** One constructor per [typescript] factory function that is called:
    [createTypeReferenceNode(name, [])], [createTypeLiteralNode],
    [createUnionTypeNode], [createIntersectionTypeNode],
    [createParenthesizedType], [createKeywordTypeNode(NeverKeyword)],
    [createLiteralTypeNode(createStringLiteral)], [createArrayTypeNode], and
    [createPropertySignature] with the comment [withComments] attaches. *)
Inductive TypeNode : Type :=
| TypeReferenceNode (typeName : string)
| TypeLiteralNode (members : list PropertySignature)
| UnionTypeNode (types : list TypeNode)
| IntersectionTypeNode (types : list TypeNode)
| ParenthesizedType (type : TypeNode)
| NeverKeyword
| LiteralTypeNode (text : string)
| ArrayTypeNode (elementType : TypeNode)
with PropertySignature : Type :=
| createPropertySignature (comment : option string) (name : string)
    (questionToken : bool) (type : TypeNode).

Record EnumMember : Type := createEnumMember {
  member_comment : option string;
  member_name : string;
  member_initializer : string
}.

(** [exported] is [createModifiersFromModifierFlags(ModifierFlags.Export)]. *)
Inductive Statement : Type :=
| TypeAliasDeclaration (comment : option string) (exported : bool)
    (name : string) (type : TypeNode)
| EnumDeclaration (comment : option string) (exported : bool)
    (name : string) (members : list EnumMember).

Definition signatureName (s : PropertySignature) : string :=
  match s with createPropertySignature _ n _ _ => n end.
Definition signatureOptional (s : PropertySignature) : bool :=
  match s with createPropertySignature _ _ q _ => q end.
Definition signatureType (s : PropertySignature) : TypeNode :=
  match s with createPropertySignature _ _ _ t => t end.

(** The alternatives of a type expression: a union contributes the
    alternatives of its operands, parentheses are transparent. *)
Fixpoint alternatives (t : TypeNode) : list TypeNode :=
  match t with
  | UnionTypeNode ts =>
      (fix each (l : list TypeNode) : list TypeNode :=
         match l with
         | [] => []
         | x :: r => alternatives x ++ each r
         end) ts
  | ParenthesizedType t' => alternatives t'
  | _ => [t]
  end.

(** [arrayOf(...args)]: the arguments that are neither null nor undefined. *)
Fixpoint arrayOf {T : Type} (args : list (option T)) : list T :=
  match args with
  | [] => []
  | Some x :: r => x :: arrayOf r
  | None :: r => arrayOf r
  end.

(** ** [Map<string, V>]

    A JavaScript [Map] iterates in insertion order, and [set] on a key that
    is present keeps the key's position. *)
Module JsMap.

Definition t (V : Type) : Type := list (string * V).

Fixpoint get {V : Type} (k : string) (m : t V) : option V :=
  match m with
  | [] => None
  | (k', v) :: r => if String.eqb k k' then Some v else get k r
  end.

Fixpoint set {V : Type} (k : string) (v : V) (m : t V) : t V :=
  match m with
  | [] => [(k, v)]
  | (k', v') :: r =>
      if String.eqb k k' then (k, v) :: r else (k', v') :: set k v r
  end.

Definition keys {V : Type} (m : t V) : list string := map fst m.
Definition values {V : Type} (m : t V) : list V := map snd m.
Definition size {V : Type} (m : t V) : nat := length m.

End JsMap.

(** ** [Array.prototype.sort]

    The sort is stable; with a consistent comparator its result is the
    stable sorted arrangement, which insertion from the right computes.
    [compareFn a b <= 0] keeps [a] before [b]. *)
Fixpoint insertSorted {T : Type} (compareFn : T -> T -> Z) (x : T) (l : list T)
  : list T :=
  match l with
  | [] => [x]
  | y :: r =>
      if (compareFn x y <=? 0)%Z then x :: l
      else y :: insertSorted compareFn x r
  end.

Definition sort {T : Type} (compareFn : T -> T -> Z) (l : list T) : list T :=
  fold_right (insertSorted compareFn) [] l.

(** The double quote and the line feed. *)
Definition quote : string := String (ascii_of_nat 34) EmptyString.
Definition LF : string := String (ascii_of_nat 10) EmptyString.

(** [xs.join(sep)]. *)
Fixpoint join (sep : string) (xs : list string) : string :=
  match xs with
  | [] => ""
  | [x] => x
  | x :: r => x ++ sep ++ join sep r
  end.

(** [new Set(xs)] iterated: the first occurrence of every element, in
    order.  [seen] holds the elements already in the set. *)
Fixpoint SetValues (seen : list string) (xs : list string) : list string :=
  match xs with
  | [] => []
  | x :: r =>
      if existsb (String.eqb x) seen then SetValues seen r
      else x :: SetValues (x :: seen) r
  end.

(** ** The JSON-LD pipeline *)
Module JsonLd.

(** *** [lib/jsonld.ts] *)

(** [JsonLdItem<T> = T | ReadonlyArray<T>]. *)
Inductive JsonLdItem (T : Type) : Type :=
| Single (x : T)
| Multiple (xs : list T).

(** [JsonLdStringValue = string | {'@language', '@value'}]. *)
Inductive JsonLdStringValue : Type :=
| PlainString (s : string)
| LanguageString (language value : string).

Record JsonLdObjectReference : Type := Reference { ref_id : string }.

(** A graph member that is not a nested graph.  A field that is absent is
    [None]; the last three fields record whether the keys that
    [IsCloseMatch], [IsSourceOnly] and [IsSoftwareVersionOnly] look for are
    present.  The comment may be an array, which [GetComments] provides
    for. *)
Record JsonLdGraphItem : Type := {
  LD_ID : string;
  LD_TYPES : option (JsonLdItem string);
  LD_COMMENT : option (JsonLdItem JsonLdStringValue);
  LD_LABEL : option JsonLdStringValue;
  LD_SUBCLASS_OF : option (JsonLdItem JsonLdObjectReference);
  LD_DOMAIN_INCLUDES : option (JsonLdItem JsonLdObjectReference);
  LD_RANGE_INCLUDES : option (JsonLdItem JsonLdObjectReference);
  closeMatch : bool;
  source : bool;
  softwareVersion : bool
}.

(** [JsonLdGraphMember]: a nested graph (['@graph' in member]) or an item. *)
Inductive JsonLdGraphMember : Type :=
| Graph (graph : list JsonLdGraphMember)
| Item (item : JsonLdGraphItem).

(** JavaScript truthiness of a value of type [T]: only the empty string is
    falsy among the values a field holds. *)
Class Truthy (T : Type) : Type := truthy : T -> bool.

#[export] Instance string_Truthy : Truthy string :=
  fun s => negb (String.eqb s "").
#[export] Instance JsonLdStringValue_Truthy : Truthy JsonLdStringValue :=
  fun v => match v with PlainString s => truthy s | LanguageString _ _ => true end.
#[export] Instance JsonLdObjectReference_Truthy : Truthy JsonLdObjectReference :=
  fun _ => true.
#[export] Instance JsonLdItem_Truthy {T : Type} `{Truthy T} : Truthy (JsonLdItem T) :=
  fun i => match i with Single x => truthy x | Multiple _ => true end.
#[export] Instance option_Truthy {T : Type} `{Truthy T} : Truthy (option T) :=
  fun o => match o with Some x => truthy x | None => false end.

Definition ToArray {T : Type} `{Truthy T} (item : option (JsonLdItem T)) : list T :=
  match item with
  | None => []
  | Some (Single x) => if truthy x then [x] else []
  | Some (Multiple xs) => xs
  end.

Definition hasTypes (item : JsonLdGraphItem) : bool :=
  match LD_TYPES item with Some _ => true | None => false end.

Definition IsCloseMatch (item : JsonLdGraphItem) : bool :=
  closeMatch item && negb (hasTypes item).
Definition IsSourceOnly (item : JsonLdGraphItem) : bool :=
  source item && negb (hasTypes item).
Definition IsSoftwareVersionOnly (item : JsonLdGraphItem) : bool :=
  softwareVersion item && negb (hasTypes item).
Definition IsTestComment (item : JsonLdGraphItem) : bool :=
  String.eqb (LD_ID item) "http://meta.schema.org/".

(** *** [generator/run.ts]: merging declarations of one subject *)

Definition combineString (first second : option (JsonLdItem string)) : list string :=
  SetValues [] (ToArray first ++ ToArray second).

Definition combineRef (first second : option (JsonLdItem JsonLdObjectReference))
  : list JsonLdObjectReference :=
  map Reference (SetValues [] (map ref_id (ToArray first ++ ToArray second))).

(** The body of [if (alreadyExists) { ... }]: the stored declaration after
    [member] has been merged into it.  Every assignment reads the fields the
    earlier ones left. *)
Definition merge (alreadyExists member : JsonLdGraphItem) : JsonLdGraphItem :=
  {| LD_ID := LD_ID alreadyExists;
     LD_TYPES :=
       if truthy (LD_TYPES member)
       then Some (Multiple (combineString (LD_TYPES alreadyExists) (LD_TYPES member)))
       else LD_TYPES alreadyExists;
     LD_COMMENT :=
       if truthy (LD_COMMENT member) then LD_COMMENT member
       else LD_COMMENT alreadyExists;
     LD_LABEL :=
       if truthy (LD_LABEL member) then LD_LABEL member
       else LD_LABEL alreadyExists;
     LD_SUBCLASS_OF :=
       if truthy (LD_SUBCLASS_OF member)
       then Some (Multiple (combineRef (LD_SUBCLASS_OF alreadyExists)
                                       (LD_SUBCLASS_OF member)))
       else LD_SUBCLASS_OF alreadyExists;
     LD_DOMAIN_INCLUDES :=
       if truthy (LD_DOMAIN_INCLUDES member)
       then Some (Multiple (combineRef (LD_DOMAIN_INCLUDES alreadyExists)
                                       (LD_DOMAIN_INCLUDES member)))
       else LD_DOMAIN_INCLUDES alreadyExists;
     LD_RANGE_INCLUDES :=
       if truthy (LD_RANGE_INCLUDES member)
       then Some (Multiple (combineRef (LD_RANGE_INCLUDES alreadyExists)
                                       (LD_RANGE_INCLUDES member)))
       else LD_RANGE_INCLUDES alreadyExists;
     closeMatch := closeMatch alreadyExists;
     source := source alreadyExists;
     softwareVersion := softwareVersion alreadyExists |}.

(** One turn of the loop of [group] on a member that is an item. *)
Definition groupItem (member : JsonLdGraphItem) (map : JsMap.t JsonLdGraphItem)
  : JsMap.t JsonLdGraphItem :=
  if IsSourceOnly member || IsSoftwareVersionOnly member || IsCloseMatch member
  then map
  else if IsTestComment member then map
  else match JsMap.get (LD_ID member) map with
       | Some alreadyExists =>
           JsMap.set (LD_ID member) (merge alreadyExists member) map
       | None => JsMap.set (LD_ID member) member map
       end.

Fixpoint groupMember (member : JsonLdGraphMember) (map : JsMap.t JsonLdGraphItem)
  : JsMap.t JsonLdGraphItem :=
  match member with
  | Graph graph =>
      (fix each (ms : list JsonLdGraphMember) (map : JsMap.t JsonLdGraphItem) :=
         match ms with
         | [] => map
         | m :: r => each r (groupMember m map)
         end) graph map
  | Item item => groupItem item map
  end.

Definition group (members : list JsonLdGraphMember) (map : JsMap.t JsonLdGraphItem)
  : JsMap.t JsonLdGraphItem :=
  fold_left (fun map member => groupMember member map) members map.

(** *** [lib/wellKnown.ts] *)

Definition GetComments (item : JsonLdGraphItem) (preferredLanguage : string)
  : list string :=
  filter truthy
    (flat_map
       (fun c =>
          match c with
          | PlainString s => [s]
          | LanguageString language value =>
              if String.eqb language preferredLanguage then [value] else []
          end)
       (ToArray (LD_COMMENT item))).

Definition GetSubClassOf (item : JsonLdGraphItem) : list string :=
  map ref_id (ToArray (LD_SUBCLASS_OF item)).

Definition GetTypes (item : JsonLdGraphItem) : result (list string) :=
  if String.prefix "file:" (LD_ID item) then Ok []
  else match LD_TYPES item with
       | Some (Multiple types) =>
           match types with
           | [] => Throw ("Empty type found for item " ++ LD_ID item)
           | _ => Ok types
           end
       | Some (Single types) => Ok [types]
       | None => Throw ("No type found for item " ++ LD_ID item ++ ".")
       end.

Definition IsClassType (type : string) : bool := String.eqb type "rdfs:Class".
Definition IsPropertyType (type : string) : bool := String.eqb type "rdf:Property".
Definition IsDataType (type : string) : bool :=
  String.eqb type "http://schema.org/DataType".

Fixpoint HasEnumType (types : list string) : bool :=
  match types with
  | [] => false
  | type :: rest =>
      if IsClassType type || IsPropertyType type || IsDataType type
      then HasEnumType rest
      else true
  end.

(** *** What the pipeline takes from its collaborators

    [lib/names.ts], [lib/settings.ts] and the [typescript] printer are not
    part of the sources: their functions are the fields of [Collaborators]. *)
Class Collaborators : Type := {
  toScopedName : JsonLdGraphItem -> string;
  toEnumMemberName : JsonLdGraphItem -> string;
  PreferredLanguage : string;
  printNode : Statement -> string
}.

(** *** [lib/toProperty.ts] and the objects of [lib/toClass.ts] *)

(** The arguments of [new Builtin(name, equivTo, doc)]. *)
Record Builtin : Type := {
  name : string;
  equivTo : string;
  doc : string
}.

(** A reference to a [Class] object: the part of the object that never
    changes, its [item] and, for an instance of [Builtin], the constructor's
    arguments.  The fields that change are held by the registry, under
    [item[LD_ID]], where [ForwardDeclareClasses] puts every object.  A
    reference always has an object behind it; where the registry of the
    model holds none, the model throws. *)
Record ClassRef : Type := {
  item : JsonLdGraphItem;
  instanceofBuiltin : option Builtin
}.

Definition isBuiltin (c : ClassRef) : bool :=
  match instanceofBuiltin c with Some _ => true | None => false end.

(** A [PropertyType] after [init]: [comment] and [types] are assigned before
    the first [Property] that points to the object is created. *)
Record PropertyType : Type := {
  pt_item : JsonLdGraphItem;
  pt_comment : option string;
  types : list ClassRef
}.

Record StringLiteralType : Type := { value : string }.

Record Property : Type := {
  key : string;
  type : PropertyType + StringLiteralType
}.

(** An [EnumValue]; [init] returns before it assigns [comment] whenever it
    attaches the value to a class. *)
Record EnumValue : Type := {
  ev_item : JsonLdGraphItem;
  ev_comment : option string
}.

Record Class : Type := {
  self : ClassRef;
  comment : option string;
  children : list ClassRef;
  parents : list ClassRef;
  _props : list Property;
  _enums : list EnumValue
}.

Definition ClassMap : Type := JsMap.t Class.

Definition idOf (c : ClassRef) : string := LD_ID (item c).

Section Pipeline.
Context `{Collaborators}.

Definition required (p : Property) : bool := String.prefix "@" (key p).

Definition scalarTypeNode (p : Property) : TypeNode :=
  match type p with
  | inr literal => LiteralTypeNode (value literal)
  | inl propertyType =>
      let typeNodes :=
        map (fun t => TypeReferenceNode (toScopedName (item t))) (types propertyType) in
      match typeNodes with
      | [] => NeverKeyword
      | [node] => node
      | _ => UnionTypeNode typeNodes
      end
  end.

Definition typeNode (p : Property) : TypeNode :=
  let node := scalarTypeNode p in
  if String.prefix "@" (key p) then node
  else UnionTypeNode [node; ArrayTypeNode node].

Definition Property_toNode (p : Property) : PropertySignature :=
  createPropertySignature
    (match type p with inl propertyType => pt_comment propertyType | inr _ => None end)
    (key p)
    (if required p then false else true)
    (typeNode p).

(** [PropertyType.init]: the registry after the property has been added to
    every class of its domain. *)
Definition addProp (p : Property) (c : Class) : Class :=
  {| self := self c; comment := comment c; children := children c;
     parents := parents c; _props := _props c ++ [p]; _enums := _enums c |}.

Definition PropertyType_init (item' : JsonLdGraphItem) (map' : ClassMap)
  : result ClassMap :=
  let comments := GetComments item' PreferredLanguage in
  let comment' := hd_error comments in
  types' <- mapM (fun ref =>
                    match JsMap.get (ref_id ref) map' with
                    | Some cls => Ok (self cls)
                    | None => Throw ("Class with ID " ++ ref_id ref ++ " not found.")
                    end)
                 (ToArray (LD_RANGE_INCLUDES item')) ;;
  let this := {| pt_item := item'; pt_comment := comment'; types := types' |} in
  forEach (fun domain map'' =>
             match JsMap.get (ref_id domain) map'' with
             | Some cls =>
                 Ok (JsMap.set (ref_id domain)
                       (addProp {| key := toScopedName item'; type := inl this |} cls)
                       map'')
             | None =>
                 Throw ("Could not find class for " ++ LD_ID item' ++ ", "
                          ++ ref_id domain ++ ".")
             end)
          (ToArray (LD_DOMAIN_INCLUDES item')) map'.

(** *** [lib/toClass.ts] *)

(** [aliasesBuiltin], on the parents of the receiver.  A nested call takes
    one unit of [fuel]; the parents of a parent are read from the registry. *)
Fixpoint aliasesBuiltin (fuel : nat) (classMap : ClassMap) (parents' : list ClassRef)
  : result bool :=
  (fix loop (ps : list ClassRef) : result bool :=
     match ps with
     | [] => Ok false
     | parent :: rest =>
         if isBuiltin parent then Ok true
         else match fuel with
              | O => StackOverflow
              | S fuel' =>
                  match JsMap.get (idOf parent) classMap with
                  | None => Throw "no object behind the reference"
                  | Some p =>
                      b <- aliasesBuiltin fuel' classMap (parents p) ;;
                      if b then Ok true else loop rest
                  end
              end
     end) parents'.

Definition isLeaf (fuel : nat) (classMap : ClassMap) (c : Class) : result bool :=
  match children c with
  | [] => b <- aliasesBuiltin fuel classMap (parents c) ;; Ok (negb b)
  | _ => Ok false
  end.

Definition className (c : ClassRef) : string := toScopedName (item c).
Definition enumName (c : ClassRef) : string := toScopedName (item c) ++ "Enum".
Definition baseName (c : ClassRef) : string :=
  match instanceofBuiltin c with
  | Some b => name b
  | None => toScopedName (item c) ++ "Base"
  end.

Definition properties (fuel : nat) (classMap : ClassMap) (c : Class)
  : result (list Property) :=
  leaf <- isLeaf fuel classMap c ;;
  Ok (if leaf : bool
      then {| key := "@type";
              type := inr {| value := toScopedName (item (self c)) |} |} :: _props c
      else _props c).

(** [Class.init].  The loop over [parents] returns in its first turn. *)
Definition init (this : string) (classMap : ClassMap) : result (bool * ClassMap) :=
  match JsMap.get this classMap with
  | None => Throw "no object behind the reference"
  | Some c =>
      let comments := GetComments (item (self c)) PreferredLanguage in
      let c1 :=
        match comments with
        | [] => c
        | first :: _ =>
            {| self := self c; comment := Some first; children := children c;
               parents := parents c; _props := _props c; _enums := _enums c |}
        end in
      let classMap1 := JsMap.set this c1 classMap in
      match GetSubClassOf (item (self c)) with
      | [] => Ok (false, classMap1)
      | parentId :: _ =>
          match JsMap.get parentId classMap1 with
          | Some parentClass =>
              let c2 :=
                {| self := self c1; comment := comment c1; children := children c1;
                   parents := parents c1 ++ [self parentClass];
                   _props := _props c1; _enums := _enums c1 |} in
              let classMap2 := JsMap.set this c2 classMap1 in
              match JsMap.get parentId classMap2 with
              | Some p =>
                  Ok (true,
                      JsMap.set parentId
                        {| self := self p; comment := comment p;
                           children := children p ++ [self c2];
                           parents := parents p; _props := _props p;
                           _enums := _enums p |}
                        classMap2)
              | None => Throw "no object behind the reference"
              end
          | None =>
              Throw ("Couldn't find parent of " ++ this ++ ", " ++ parentId)
          end
      end
  end.

Definition addEnum (e : EnumValue) (c : Class) : Class :=
  {| self := self c; comment := comment c; children := children c;
     parents := parents c; _props := _props c; _enums := _enums c ++ [e] |}.

Definition baseNode (fuel : nat) (classMap : ClassMap) (c : Class) : result TypeNode :=
  props <- properties fuel classMap c ;;
  let propLiteral := map Property_toNode props in
  let parentTypes := map (fun parent => TypeReferenceNode (baseName parent)) (parents c) in
  let parentNode :=
    match parentTypes with
    | [] => None
    | [only] => Some only
    | _ => Some (ParenthesizedType (IntersectionTypeNode parentTypes))
    end in
  Ok match parentNode, propLiteral with
     | Some parentNode', _ :: _ =>
         IntersectionTypeNode [parentNode'; TypeLiteralNode propLiteral]
     | Some parentNode', [] => parentNode'
     | None, _ :: _ => TypeLiteralNode propLiteral
     | None, [] => NeverKeyword
     end.

Definition baseDecl (fuel : nat) (classMap : ClassMap) (c : Class) : result Statement :=
  node <- baseNode fuel classMap c ;;
  Ok (TypeAliasDeclaration None false (baseName (self c)) node).

Definition nonEnumType (c : Class) : TypeNode :=
  let children' := map (fun child => TypeReferenceNode (className child)) (children c) in
  let childrenNode :=
    match children' with
    | [] => None
    | [only] => Some only
    | _ => Some (ParenthesizedType (UnionTypeNode children'))
    end in
  match childrenNode with
  | Some childrenNode' => childrenNode'
  | None => TypeReferenceNode (baseName (self c))
  end.

Definition totalType (c : Class) : TypeNode :=
  match _enums c with
  | _ :: _ =>
      UnionTypeNode [TypeReferenceNode (enumName (self c));
                     ParenthesizedType (nonEnumType c)]
  | [] => nonEnumType c
  end.

Definition EnumValue_toNode (e : EnumValue) : EnumMember :=
  createEnumMember (ev_comment e) (toEnumMemberName (ev_item e)) (LD_ID (ev_item e)).

Definition enumDecl (c : Class) : option Statement :=
  match _enums c with
  | [] => None
  | _ => Some (EnumDeclaration None true (enumName (self c))
                 (map EnumValue_toNode (_enums c)))
  end.

(** [toNode], which [Builtin] overrides. *)
Definition toNode (fuel : nat) (classMap : ClassMap) (c : Class)
  : result (list Statement) :=
  match instanceofBuiltin (self c) with
  | Some b =>
      Ok [TypeAliasDeclaration (Some (doc b)) true (name b)
            (TypeReferenceNode (equivTo b))]
  | None =>
      let typeValue := totalType c in
      let declaration :=
        TypeAliasDeclaration (comment c) true (className (self c)) typeValue in
      base <- baseDecl fuel classMap c ;;
      Ok (arrayOf [enumDecl c; Some base; Some declaration])
  end.

(** [EnumValue.init]: the loop over the type tags.  The statements after
    the loop are reached only when every tag is skipped; they assign the
    comment of an object that no class holds. *)
Fixpoint EnumValue_attach (this : JsonLdGraphItem) (types' : list string)
  (map' : ClassMap) : result ClassMap :=
  match types' with
  | [] => Ok map'
  | type' :: rest =>
      if IsClassType type' || IsDataType type' then EnumValue_attach this rest map'
      else match JsMap.get type' map' with
           | None => Throw ("Couldn't find " ++ type' ++ " in classes.")
           | Some enumObject =>
               Ok (JsMap.set type'
                     (addEnum {| ev_item := this; ev_comment := None |} enumObject)
                     map')
           end
  end.

Definition EnumValue_init (this : JsonLdGraphItem) (map' : ClassMap)
  : result ClassMap :=
  types' <- GetTypes this ;;
  EnumValue_attach this types' map'.

Definition wellKnownTypes : list Builtin :=
  [ {| name := "Text"; equivTo := "string"; doc := "Data type: Text." |};
    {| name := "Number"; equivTo := "number"; doc := "Data type: Number." |};
    {| name := "Time"; equivTo := "string";
       doc := "DateTime represented in string, e.g. 2017-01-04T17:10:00-05:00." |};
    {| name := "Date"; equivTo := "string";
       doc := "A date value in <a href=" ++ quote
                ++ "http://en.wikipedia.org/wiki/ISO_8601" ++ quote
                ++ ">ISO 8601 date format</a>." |};
    {| name := "DateTime"; equivTo := "string";
       doc := "A combination of date and time of day in the form [-]CCYY-MM-DDThh:mm:ss[Z|(+|-)hh:mm] (see Chapter 5.4 of ISO 8601)." |};
    {| name := "Boolean"; equivTo := "boolean"; doc := "Boolean: True or False." |} ].

(** [new Class(item)] and [new Builtin(name, equivTo, doc)]. *)
Definition newClass (self' : ClassRef) : Class :=
  {| self := self'; comment := None; children := []; parents := [];
     _props := []; _enums := [] |}.

Definition newBuiltin (b : Builtin) : Class :=
  newClass
    {| item := {| LD_ID := "http://schema.org/" ++ name b;
                  LD_TYPES := Some (Single "");
                  LD_COMMENT := Some (Single (PlainString (doc b)));
                  LD_LABEL := Some (PlainString (name b));
                  LD_SUBCLASS_OF := None;
                  LD_DOMAIN_INCLUDES := None;
                  LD_RANGE_INCLUDES := None;
                  closeMatch := false; source := false; softwareVersion := false |};
       instanceofBuiltin := Some b |}.

Definition IsClass (item' : JsonLdGraphItem) : result bool :=
  types' <- GetTypes item' ;;
  Ok (if existsb IsDataType types' then false
      else if IsDataType (LD_ID item') then false
      else if negb (existsb IsClassType types') then false
      else true).

Definition ForwardDeclareClasses (items : list JsonLdGraphItem) : result ClassMap :=
  let seeded :=
    fold_left (fun classes wk => JsMap.set (idOf (self wk)) wk classes)
              (map newBuiltin wellKnownTypes) [] in
  classes <- forEach (fun item' classes =>
                        isClass <- IsClass item' ;;
                        Ok (if isClass : bool
                            then JsMap.set (LD_ID item')
                                   (newClass {| item := item'; instanceofBuiltin := None |})
                                   classes
                            else classes))
                     items seeded ;;
  match JsMap.size classes with
  | O => Throw "Expected Class topics to exist."
  | _ => Ok classes
  end.

Definition BuildClasses (items : list JsonLdGraphItem) (classes : ClassMap)
  : result ClassMap :=
  forEach (fun item' classes =>
             isClass <- IsClass item' ;;
             if isClass : bool
             then match JsMap.get (LD_ID item') classes with
                  | None =>
                      Throw ("Class " ++ LD_ID item' ++ " should have been forward declared.")
                  | Some _ => '(_, classes') <- init (LD_ID item') classes ;; Ok classes'
                  end
             else Ok classes)
          items classes.

Definition ProcessClasses (items : list JsonLdGraphItem) : result ClassMap :=
  classes <- ForwardDeclareClasses items ;;
  BuildClasses items classes.

Definition FindProperties (topics : list JsonLdGraphItem)
  : result (list JsonLdGraphItem) :=
  flags <- mapM (fun topic => types' <- GetTypes topic ;;
                              Ok (existsb IsPropertyType types')) topics ;;
  let properties' := map fst (filter snd (combine topics flags)) in
  match properties' with
  | [] => Throw "Unexpected: Property Topics to exist."
  | _ => Ok properties'
  end.

(** *** [generator/run.ts]: [main] after the ontology has been loaded *)

(** Everything [main] does before its first [write]. *)
Definition resolve (graph : list JsonLdGraphMember) : result ClassMap :=
  let byId := group graph [] in
  let items := JsMap.values byId in
  classes <- ProcessClasses items ;;
  props <- FindProperties items ;;
  classes <- forEach PropertyType_init props classes ;;
  forEach (fun item' classes =>
             types' <- GetTypes item' ;;
             if HasEnumType types' then EnumValue_init item' classes else Ok classes)
          items classes.

(** The loop over [classes.entries()]: what has been written, and how the
    loop ended. *)
Fixpoint emit (fuel : nat) (classes : ClassMap) (entries : list Class)
  (written : list string) : list string * result unit :=
  match entries with
  | [] => (written, Ok tt)
  | cls :: rest =>
      match toNode fuel classes cls with
      | Ok nodes =>
          emit fuel classes rest
            (written ++ flat_map (fun node => [printNode node; LF]) nodes ++ [LF])
      | Throw m => (written, Throw m)
      | StackOverflow => (written, StackOverflow)
      end
  end.

(** [main]: the strings written to the standard output, in order, and the
    outcome of the run. *)
Definition main (fuel : nat) (graph : list JsonLdGraphMember)
  : list string * result unit :=
  match resolve graph with
  | Ok classes =>
      emit fuel classes (JsMap.values classes) [("// tslint:disable" ++ LF ++ LF)%string]
  | Throw m => ([], Throw m)
  | StackOverflow => ([], StackOverflow)
  end.

End Pipeline.

End JsonLd.

(** ** The triple-based class synthesiser *)
Module Triples.

(** *** Subjects, and [ts/util/names.ts] *)

(** [TSubject]: the two kinds [toClassName] tells apart, with the fields it
    reads. *)
Inductive TSubject : Type :=
| UrlNode (name : option string) (href : string)
| BlankNode (id : string).

Definition nameFromUrl (name : option string) (href : string) : result string :=
  match name with
  | None => Throw ("URL required for node " ++ href ++ ".")
  | Some n => Ok n
  end.

Definition toClassName (subject : TSubject) : result string :=
  match subject with
  | UrlNode name href => nameFromUrl name href
  | BlankNode id => Throw ("Did not expect a BlankNode to be a Class. " ++ id)
  end.

(** *** The objects of [ts/class.ts] *)

Record ObjectPredicate (TPredicate TObject : Type) : Type := {
  Predicate : TPredicate;
  Object : TObject
}.

(** [ts/property.ts] and [ts/enum.ts] are not part of the sources.  A
    [Property] and an [EnumValue] are the members [class.ts] reads: the key
    (or value), the [deprecated] flag, and the node [toNode] returns. *)
Record Property : Type := {
  key : TSubject;
  deprecated : bool;
  Property_toNode : PropertySignature
}.

Record EnumValue : Type := {
  value : TSubject;
  EnumValue_toNode : EnumMember
}.

(** What [class.ts] imports and the sources do not contain: the methods of
    a subject ([triples/types.ts]), the recognisers of [triples/wellKnown.ts],
    the members of [TypeProperty] ([ts/property.ts]) under the [Context] of
    the run, and [String.prototype.localeCompare]. *)
Class Collaborators : Type := {
  toString : TSubject -> string;
  toHumanString : TSubject -> string;
  localeCompare : string -> string -> Z;
  TPredicate : Type;
  TObject : Type;
  objectToString : TObject -> string;
  GetComment : ObjectPredicate TPredicate TObject -> option string;
  GetSubClassOf : ObjectPredicate TPredicate TObject -> option TSubject;
  IsSupersededBy : TPredicate -> bool;
  TypeProperty_toNode : TSubject -> PropertySignature;
  TypeProperty_deprecated : bool
}.

Inductive BuiltinKind : Type :=
| Alias (equivTo : string)
| BooleanEnum (trueUrl falseUrl : string).

(** A reference to a [Class] object: the part of the object that never
    changes.  The subject of a [Builtin] is [UrlNode.Parse(url)], which
    [Builtin.baseName] takes to have a name. *)
Inductive ClassRef : Type :=
| ClassObject (subject : TSubject)
| BuiltinObject (name href : string) (kind : BuiltinKind) (doc : string).

Definition subject (c : ClassRef) : TSubject :=
  match c with
  | ClassObject s => s
  | BuiltinObject name href _ _ => UrlNode (Some name) href
  end.

Definition instanceofBuiltin (c : ClassRef) : bool :=
  match c with ClassObject _ => false | BuiltinObject _ _ _ _ => true end.

(** The fields of a [Class] that change; the registry holds them under
    [subject.toString()]. *)
Record Class : Type := {
  self : ClassRef;
  _comment : option string;
  children : list ClassRef;
  parents : list ClassRef;
  _props : list Property;
  _enums : list EnumValue;
  _supersededBy : list ClassRef
}.

Definition ClassMap : Type := JsMap.t Class.

(** What [properties()] returns: the own properties, after a [TypeProperty]
    for a leaf. *)
Inductive ClassProperty : Type :=
| TypeProperty (className : TSubject)
| OwnProperty (p : Property).

Definition setProps (c : Class) (props : list Property) : Class :=
  {| self := self c; _comment := _comment c; children := children c;
     parents := parents c; _props := props; _enums := _enums c;
     _supersededBy := _supersededBy c |}.
Definition setChildren (c : Class) (cs : list ClassRef) : Class :=
  {| self := self c; _comment := _comment c; children := cs;
     parents := parents c; _props := _props c; _enums := _enums c;
     _supersededBy := _supersededBy c |}.
Definition setParents (c : Class) (ps : list ClassRef) : Class :=
  {| self := self c; _comment := _comment c; children := children c;
     parents := ps; _props := _props c; _enums := _enums c;
     _supersededBy := _supersededBy c |}.
Definition setEnums (c : Class) (es : list EnumValue) : Class :=
  {| self := self c; _comment := _comment c; children := children c;
     parents := parents c; _props := _props c; _enums := es;
     _supersededBy := _supersededBy c |}.
Definition setComment (c : Class) (comment : option string) : Class :=
  {| self := self c; _comment := comment; children := children c;
     parents := parents c; _props := _props c; _enums := _enums c;
     _supersededBy := _supersededBy c |}.
Definition setSupersededBy (c : Class) (cs : list ClassRef) : Class :=
  {| self := self c; _comment := _comment c; children := children c;
     parents := parents c; _props := _props c; _enums := _enums c;
     _supersededBy := cs |}.

Section Synthesis.
Context `{Collaborators}.

Definition CompareKeys (a b : TSubject) : Z :=
  let byName := localeCompare (toHumanString a) (toHumanString b) in
  if negb (byName =? 0)%Z then byName
  else localeCompare (toString a) (toString b).

Definition Sort (a b : ClassRef) : Z :=
  if instanceofBuiltin a then
    if instanceofBuiltin b
    then localeCompare (toHumanString (subject a)) (toHumanString (subject b))
    else (-1)%Z
  else if instanceofBuiltin b then 1%Z
  else CompareKeys (subject a) (subject b).

Definition idOf (c : ClassRef) : string := toString (subject c).

Fixpoint aliasesBuiltin (fuel : nat) (classMap : ClassMap) (parents' : list ClassRef)
  : result bool :=
  (fix loop (ps : list ClassRef) : result bool :=
     match ps with
     | [] => Ok false
     | parent :: rest =>
         if instanceofBuiltin parent then Ok true
         else match fuel with
              | O => StackOverflow
              | S fuel' =>
                  match JsMap.get (idOf parent) classMap with
                  | None => Throw "no object behind the reference"
                  | Some p =>
                      b <- aliasesBuiltin fuel' classMap (parents p) ;;
                      if b then Ok true else loop rest
                  end
              end
     end) parents'.

Definition Class_deprecated (c : Class) : bool :=
  match _supersededBy c with [] => false | _ => true end.

Definition className (c : ClassRef) : result string := toClassName (subject c).
Definition enumName (c : ClassRef) : result string :=
  n <- toClassName (subject c) ;; Ok (n ++ "Enum")%string.
Definition baseName (c : ClassRef) : result string :=
  match c with
  | ClassObject s => n <- toClassName s ;; Ok (n ++ "Base")%string
  | BuiltinObject name _ _ _ => Ok name
  end.

Definition truthyComment (comment : option string) : bool :=
  match comment with
  | Some s => negb (String.eqb s "")
  | None => false
  end.

(** The getter [comment]. *)
Definition comment (c : Class) : result (option string) :=
  if negb (Class_deprecated c) then Ok (_comment c)
  else
    names <- mapM className (_supersededBy c) ;;
    let deprecated' := ("@deprecated Use " ++ join " or " names ++ " instead.")%string in
    Ok (Some (match _comment c with
              | Some s => if truthyComment (_comment c)
                          then (s ++ LF ++ deprecated')%string
                          else deprecated'
              | None => deprecated'
              end)).

Definition isLeaf (fuel : nat) (classMap : ClassMap) (c : Class) : result bool :=
  match children c with
  | [] => b <- aliasesBuiltin fuel classMap (parents c) ;; Ok (negb b)
  | _ => Ok false
  end.

(** The methods below sort a field of the receiver in place: they take the
    receiver's fields and return them with the result.  The registry is
    read for the parents of other objects only. *)
Definition properties (fuel : nat) (classMap : ClassMap) (c : Class)
  : result (list ClassProperty * Class) :=
  let c' := setProps c (sort (fun a b => CompareKeys (key a) (key b)) (_props c)) in
  leaf <- isLeaf fuel classMap c' ;;
  Ok (if leaf : bool
      then TypeProperty (subject (self c')) :: map OwnProperty (_props c')
      else map OwnProperty (_props c'),
      c').

Definition ClassProperty_deprecated (p : ClassProperty) : bool :=
  match p with
  | TypeProperty _ => TypeProperty_deprecated
  | OwnProperty p' => deprecated p'
  end.

Definition ClassProperty_toNode (p : ClassProperty) : PropertySignature :=
  match p with
  | TypeProperty className' => TypeProperty_toNode className'
  | OwnProperty p' => Property_toNode p'
  end.

(** The properties [baseNode] keeps. *)
Definition emitted (skipDeprecatedProperties : bool) (props : list ClassProperty)
  : list ClassProperty :=
  filter (fun property =>
            negb (ClassProperty_deprecated property) || negb skipDeprecatedProperties)
         props.

Definition baseNode (skipDeprecatedProperties : bool) (fuel : nat)
  (classMap : ClassMap) (c : Class) : result (TypeNode * Class) :=
  '(props, c') <- properties fuel classMap c ;;
  let propLiteral :=
    map ClassProperty_toNode (emitted skipDeprecatedProperties props) in
  parentTypes <- mapM (fun parent => n <- baseName parent ;; Ok (TypeReferenceNode n))
                      (parents c') ;;
  let parentNode :=
    match parentTypes with
    | [] => None
    | [only] => Some only
    | _ => Some (ParenthesizedType (IntersectionTypeNode parentTypes))
    end in
  Ok (match parentNode, propLiteral with
      | Some parentNode', _ :: _ =>
          IntersectionTypeNode [parentNode'; TypeLiteralNode propLiteral]
      | Some parentNode', [] => parentNode'
      | None, _ :: _ => TypeLiteralNode propLiteral
      | None, [] => NeverKeyword
      end,
      c').

Definition baseDecl (skipDeprecatedProperties : bool) (fuel : nat)
  (classMap : ClassMap) (c : Class) : result (Statement * Class) :=
  '(node, c') <- baseNode skipDeprecatedProperties fuel classMap c ;;
  n <- baseName (self c') ;;
  Ok (TypeAliasDeclaration None false n node, c').

Definition nonEnumType (c : Class) : result (TypeNode * Class) :=
  let c' :=
    setChildren c (sort (fun a b => CompareKeys (subject a) (subject b)) (children c)) in
  children' <- mapM (fun child => n <- className child ;; Ok (TypeReferenceNode n))
                    (children c') ;;
  let childrenNode :=
    match children' with
    | [] => None
    | [only] => Some only
    | _ => Some (ParenthesizedType (UnionTypeNode children'))
    end in
  match childrenNode with
  | Some childrenNode' =>
      let literal := TypeLiteralNode [TypeProperty_toNode (subject (self c'))] in
      n <- baseName (self c') ;;
      Ok (UnionTypeNode
            [IntersectionTypeNode [literal; TypeReferenceNode n]; childrenNode'],
          c')
  | None =>
      n <- baseName (self c') ;;
      Ok (TypeReferenceNode n, c')
  end.

Definition totalType (c : Class) : result (TypeNode * Class) :=
  match _enums c with
  | _ :: _ =>
      e <- enumName (self c) ;;
      '(t, c') <- nonEnumType c ;;
      Ok (UnionTypeNode [TypeReferenceNode e; ParenthesizedType t], c')
  | [] => nonEnumType c
  end.

Definition enumDecl (c : Class) : result (option Statement * Class) :=
  match _enums c with
  | [] => Ok (None, c)
  | _ =>
      let c' :=
        setEnums c (sort (fun a b => CompareKeys (value a) (value b)) (_enums c)) in
      e <- enumName (self c') ;;
      Ok (Some (EnumDeclaration None true e (map EnumValue_toNode (_enums c'))), c')
  end.

(** [toNode], which [Builtin] and [BooleanEnum] override. *)
Definition toNode (skipDeprecatedProperties : bool) (fuel : nat)
  (classMap : ClassMap) (c : Class) : result (list Statement * Class) :=
  match self c with
  | BuiltinObject name _ (Alias equivTo) doc =>
      Ok ([TypeAliasDeclaration (Some doc) true name (TypeReferenceNode equivTo)], c)
  | BuiltinObject name _ (BooleanEnum trueUrl falseUrl) doc =>
      Ok ([EnumDeclaration (Some doc) true name
             [createEnumMember None "True" trueUrl;
              createEnumMember None "False" falseUrl]], c)
  | ClassObject _ =>
      '(typeValue, c1) <- totalType c ;;
      comment' <- comment c1 ;;
      n <- className (self c1) ;;
      let declaration := TypeAliasDeclaration comment' true n typeValue in
      '(enum, c2) <- enumDecl c1 ;;
      '(base, c3) <- baseDecl skipDeprecatedProperties fuel classMap c2 ;;
      Ok (arrayOf [enum; Some base; Some declaration], c3)
  end.

(** [add]: [this] is the registry key of the receiver. *)
Definition add (this : string) (value' : ObjectPredicate TPredicate TObject)
  (classMap : ClassMap) : result (bool * ClassMap) :=
  match JsMap.get this classMap with
  | None => Throw "no object behind the reference"
  | Some c =>
      match GetComment value' with
      | Some comment' => Ok (true, JsMap.set this (setComment c (Some comment')) classMap)
      | None =>
          match GetSubClassOf value' with
          | Some subClassOf =>
              match JsMap.get (toString subClassOf) classMap with
              | Some parentClass =>
                  let classMap1 :=
                    JsMap.set this (setParents c (parents c ++ [self parentClass]))
                      classMap in
                  match JsMap.get (toString subClassOf) classMap1 with
                  | Some p =>
                      Ok (true,
                          JsMap.set (toString subClassOf)
                            (setChildren p (children p ++ [self c])) classMap1)
                  | None => Throw "no object behind the reference"
                  end
              | None =>
                  Throw ("Couldn't find parent of " ++ toHumanString (subject (self c))
                           ++ ", " ++ toString subClassOf)
              end
          | None =>
              if IsSupersededBy (Predicate value') then
                match JsMap.get (objectToString (Object value')) classMap with
                | None =>
                    Throw ("Couldn't find class " ++ objectToString (Object value')
                             ++ ", which supersedes class "
                             ++ toHumanString (subject (self c)))
                | Some supersededBy =>
                    Ok (true,
                        JsMap.set this
                          (setSupersededBy c (_supersededBy c ++ [self supersededBy]))
                          classMap)
                end
              else Ok (false, classMap)
          end
      end
  end.

Definition addProp (p : Property) (c : Class) : Class := setProps c (_props c ++ [p]).
Definition addEnum (e : EnumValue) (c : Class) : Class := setEnums c (_enums c ++ [e]).

End Synthesis.

End Triples.

(** ** [ts/util/names.ts]: enumeration names *)
Module Names.
Import Triples.

(** A character of the class [[A-Za-z0-9_]].  The characters of a string
    are its code units; the strings of the model hold the code units below
    256. *)
Definition isIdentifierUnit (a : ascii) : bool :=
  let n := nat_of_ascii a in
  (Nat.leb 65 n && Nat.leb n 90) || (Nat.leb 97 n && Nat.leb n 122)
  || (Nat.leb 48 n && Nat.leb n 57) || Nat.eqb n 95.

(** [s.replace(/[^A-Za-z0-9_]/g, '_')]. *)
Fixpoint replaceIllegal (s : string) : string :=
  match s with
  | EmptyString => EmptyString
  | String a r =>
      String (if isIdentifierUnit a then a else "_"%char) (replaceIllegal r)
  end.

Definition toEnumName (subject : TSubject) : result string :=
  match subject with
  | UrlNode name href => n <- nameFromUrl name href ;; Ok (replaceIllegal n)
  | BlankNode id => Throw ("Did not expect a BlankNode to be a Class. " ++ id)
  end.

End Names.

(** ** [parser/reader.ts] *)
Module Reader.

(** A JavaScript number is falsy when it is zero. *)
#[export] Instance number_Truthy : JsonLd.Truthy nat :=
  fun n => negb (Nat.eqb n 0).

(** [verify(content, ...rest)]: the first attempt that is truthy.  An item
    returns [T | null]; [if (attempt)] passes over [null] and over a falsy
    value of [T] alike. *)
Fixpoint verify {T : Type} `{JsonLd.Truthy T} (content : string)
  (rest : list (string -> option T)) : result T :=
  match rest with
  | [] => Throw ("Unexpected " ++ content)
  | item :: rest' =>
      match item content with
      | Some attempt =>
          if JsonLd.truthy attempt then Ok attempt else verify content rest'
      | None => verify content rest'
      end
  end.

Definition isBracket (a : ascii) : bool :=
  Ascii.eqb a "<"%char || Ascii.eqb a ">"%char.

Fixpoint noBrackets (s : string) : bool :=
  match s with
  | EmptyString => true
  | String a r => negb (isBracket a) && noBrackets r
  end.

(** What stands before a closing [>] that ends the string. *)
Fixpoint beforeClosing (s : string) : option string :=
  match s with
  | EmptyString => None
  | String a EmptyString => if Ascii.eqb a ">"%char then Some EmptyString else None
  | String a r => option_map (String a) (beforeClosing r)
  end.

(** [/^<([^<>]+)>$/.exec(content)]: the first group of the match. *)
Definition execWrapped (content : string) : option string :=
  match content with
  | EmptyString => None
  | String a r =>
      if Ascii.eqb a "<"%char then
        match beforeClosing r with
        | Some inner =>
            if negb (String.eqb inner "") && noBrackets inner then Some inner
            else None
        | None => None
        end
      else None
  end.

Definition unWrap {T : Type} (maker : string -> option T) (content : string)
  : option T :=
  match execWrapped content with
  | Some inner => maker inner
  | None => None
  end.

(** The [reduce] of [load]: at every index that is a multiple of three, the
    slice of three elements from that index. *)
Definition triplesOf {A : Type} (array : list A) : list (list A) :=
  flat_map (fun index =>
              if Nat.eqb (index mod 3) 0
              then [firstn 3 (skipn index array)]
              else [])
           (seq 0 (length array)).

End Reader.

(** * Notions the properties are stated with *)

(** [a] may stand before [b] under the comparator. *)
Definition before {T : Type} (compareFn : T -> T -> Z) (a b : T) : Prop :=
  (compareFn a b <= 0)%Z.

(** No two different elements of [l] tie under the comparator. *)
Definition untied {T : Type} (compareFn : T -> T -> Z) (l : list T) : Prop :=
  forall a b, In a l -> In b l ->
              before compareFn a b -> before compareFn b a -> a = b.

(** ** On the JSON-LD pipeline *)
Module JsonLdNotions.
Import JsonLd.

(** A member that [group] does not skip. *)
Definition kept (m : JsonLdGraphItem) : Prop :=
  IsSourceOnly m = false /\ IsSoftwareVersionOnly m = false
  /\ IsCloseMatch m = false /\ IsTestComment m = false.

(** The sets a declaration carries. *)
Definition typeTags (m : JsonLdGraphItem) : list string := ToArray (LD_TYPES m).
Definition domainIds (m : JsonLdGraphItem) : list string :=
  map ref_id (ToArray (LD_DOMAIN_INCLUDES m)).
Definition rangeIds (m : JsonLdGraphItem) : list string :=
  map ref_id (ToArray (LD_RANGE_INCLUDES m)).

(** [a] is an ancestor of the object whose parents are [ps]: one of [ps], or
    an ancestor of one of them, whose parents the registry holds. *)
Inductive ancestorOf (classMap : ClassMap) : list ClassRef -> ClassRef -> Prop :=
| ancestor_parent (ps : list ClassRef) (a : ClassRef) :
    In a ps -> ancestorOf classMap ps a
| ancestor_further (ps : list ClassRef) (p : ClassRef) (pc : Class) (a : ClassRef) :
    In p ps ->
    JsMap.get (idOf p) classMap = Some pc ->
    ancestorOf classMap (parents pc) a ->
    ancestorOf classMap ps a.

Definition hasBuiltinAncestor (classMap : ClassMap) (c : Class) : Prop :=
  exists a, ancestorOf classMap (parents c) a /\ isBuiltin a = true.

(** Every parent that is held in the registry ranks below its child: the
    graph has no cycle. *)
Definition ranked (classMap : ClassMap) (rank : string -> nat) : Prop :=
  Forall (fun entry =>
            Forall (fun p => isBuiltin p = true \/ rank (idOf p) < rank (fst entry))
                   (parents (snd entry)))
         classMap.

(** Every parent that is not a [Builtin] is in the registry. *)
Definition resolved (classMap : ClassMap) : Prop :=
  Forall (fun entry =>
            Forall (fun p => isBuiltin p = true \/ JsMap.get (idOf p) classMap <> None)
                   (parents (snd entry)))
         classMap.

(** The members of the object literal of a base shape. *)
Definition ownMembers (t : TypeNode) : list PropertySignature :=
  match t with
  | TypeLiteralNode ms => ms
  | IntersectionTypeNode [_; TypeLiteralNode ms] => ms
  | _ => []
  end.

(** A discriminant field: [@type], of a string literal type. *)
Definition isDiscriminant (s : PropertySignature) : bool :=
  String.eqb (signatureName s) "@type"
  && match signatureType s with LiteralTypeNode _ => true | _ => false end.

(** The owner in the words of the specification: the first type tag that is
    none of the three well-known types. *)
Definition specifiedOwner (types' : list string) : option string :=
  find (fun t => negb (IsClassType t || IsPropertyType t || IsDataType t)) types'.

(** The tag [EnumValue.init] stops at: the first that is neither the class
    type nor the data type. *)
Definition firstCandidate (types' : list string) : option string :=
  find (fun t => negb (IsClassType t || IsDataType t)) types'.

(** The identifiers of the items [ForwardDeclareClasses] makes classes of. *)
Definition classIds `{Collaborators} (items : list JsonLdGraphItem) : list string :=
  map LD_ID
    (filter (fun i => match IsClass i with Ok true => true | _ => false end) items).

(** The declarations among the strings written. *)
Definition declarations (written : list string) : list string :=
  filter (fun s => String.prefix "type " s || String.prefix "enum " s) written.

(** The identifiers under which the builtins are seeded. *)
Definition builtinIds : list string :=
  map (fun b => ("http://schema.org/" ++ name b)%string) wellKnownTypes.

(** What the loop of [main] writes for the declarations of one class. *)
Definition writtenFor `{Collaborators} (nodes : list Statement) : list string :=
  flat_map (fun node => [printNode node; LF]) nodes ++ [LF].

End JsonLdNotions.

(** ** On the class synthesiser *)
Module TriplesNotions.
Import Triples.

(** The outcome [r] of a method, the receiver it returns given the
    supersession list [s]. *)
Definition superseding {A : Type} (s : list ClassRef) (r : result (A * Class))
  : result (A * Class) :=
  '(a, c') <- r ;; Ok (a, setSupersededBy c' s).

(** What the methods leave of the receiver. *)
Definition sameAnnotation (c c' : Class) : Prop :=
  self c' = self c /\ _comment c' = _comment c /\ _supersededBy c' = _supersededBy c.

(** The order in the words of the specification: every [Builtin] before
    every other class, and within each of the two groups by name, ties
    broken by identifier. *)
Definition specifiedOrder `{Collaborators} (a b : ClassRef) : Z :=
  if instanceofBuiltin a then
    if instanceofBuiltin b then CompareKeys (subject a) (subject b) else (-1)%Z
  else if instanceofBuiltin b then 1%Z
  else CompareKeys (subject a) (subject b).

(** The catalogue of the builtins gives no two of them names that tie: two
    [Builtin] objects of the set whose names compare equal are the same. *)
Definition distinctBuiltins `{Collaborators} (classes : list ClassRef) : Prop :=
  forall a b,
    In a classes -> In b classes ->
    instanceofBuiltin a = true -> instanceofBuiltin b = true ->
    localeCompare (toHumanString (subject a)) (toHumanString (subject b)) = 0%Z ->
    a = b.

(** The registry without its supersession facts. *)
Definition withoutSupersession (classMap : ClassMap) : ClassMap :=
  map (fun entry => (fst entry, setSupersededBy (snd entry) [])) classMap.

(** A value that [add] takes for a supersession: not a comment, not a
    parent, under the superseded-by predicate. *)
Definition supersedes `{Collaborators} (v : ObjectPredicate TPredicate TObject) : bool :=
  match GetComment v, GetSubClassOf v with
  | None, None => IsSupersededBy (Predicate v)
  | _, _ => false
  end.

(** [cls.add(value, classMap)] for every pair of a receiver and a value, in
    order. *)
Definition addAll `{Collaborators}
  (values : list (string * ObjectPredicate TPredicate TObject)) (classMap : ClassMap)
  : result ClassMap :=
  forEach (fun entry classMap =>
             r <- add (fst entry) (snd entry) classMap ;; Ok (snd r))
          values classMap.

End TriplesNotions.

(** ** On names and on the reader *)
Module NamesNotions.

(** Every character of the string is of the class [[A-Za-z0-9_]]. *)
Fixpoint identifierUnits (s : string) : bool :=
  match s with
  | EmptyString => true
  | String a r => Names.isIdentifierUnit a && identifierUnits r
  end.

(** The attempt fails on the content: it returns null, or a falsy value. *)
Definition rejects {T : Type} `{JsonLd.Truthy T} (content : string)
  (item : string -> option T) : Prop :=
  match item content with
  | Some attempt => JsonLd.truthy attempt = false
  | None => True
  end.

End NamesNotions.

(** ** On the stages of [main] *)
Module PipelineNotions.
Import JsonLd.

(** The items of a graph member, nested graphs opened, in document order. *)
Fixpoint flatten (member : JsonLdGraphMember) : list JsonLdGraphItem :=
  match member with
  | Graph graph =>
      (fix each (ms : list JsonLdGraphMember) : list JsonLdGraphItem :=
         match ms with
         | [] => []
         | m :: r => flatten m ++ each r
         end) graph
  | Item item => [item]
  end.

(** A member the loop of [group] passes over. *)
Definition skipped (m : JsonLdGraphItem) : bool :=
  IsSourceOnly m || IsSoftwareVersionOnly m || IsCloseMatch m || IsTestComment m.

(** The declarations of [id] that [group] does not pass over, in document
    order. *)
Definition declarationsOf (id : string) (graph : list JsonLdGraphMember)
  : list JsonLdGraphItem :=
  filter (fun m => negb (skipped m) && String.eqb (LD_ID m) id)
         (flat_map flatten graph).

(** An item that [GetTypes] answers with no type at all. *)
Definition fromFile (i : JsonLdGraphItem) : bool := String.prefix "file:" (LD_ID i).

(** [GetTypes] does not throw on the item. *)
Definition typed (i : JsonLdGraphItem) : Prop := exists types', GetTypes i = Ok types'.

(** [GetTypes(topic).some(IsPropertyType)], where [GetTypes] does not throw. *)
Definition hasPropertyTag (i : JsonLdGraphItem) : bool :=
  match GetTypes i with
  | Ok types' => existsb IsPropertyType types'
  | _ => false
  end.

(** The statements of [main] between [Array.from(byId.values())] and the
    first [write]. *)
Definition afterGroup `{Collaborators} (items : list JsonLdGraphItem)
  : result ClassMap :=
  classes <- ProcessClasses items ;;
  props <- FindProperties items ;;
  classes <- forEach PropertyType_init props classes ;;
  forEach (fun item' classes =>
             types' <- GetTypes item' ;;
             if HasEnumType types' then EnumValue_init item' classes else Ok classes)
          items classes.

(** The identifiers [ForwardDeclareClasses] makes keys of. *)
Definition declared `{Collaborators} (items : list JsonLdGraphItem) : list string :=
  JsonLdNotions.builtinIds ++ JsonLdNotions.classIds items.

(** The [Property] that [PropertyType.init] adds for a declaration: its range
    holds the classes the registry has for the range references. *)
Definition propertyOf `{Collaborators} (item' : JsonLdGraphItem) (map' : ClassMap)
  : Property :=
  {| key := toScopedName item';
     type := inl {| pt_item := item';
                    pt_comment := hd_error (GetComments item' PreferredLanguage);
                    types :=
                      flat_map (fun ref =>
                                  match JsMap.get (ref_id ref) map' with
                                  | Some cls => [self cls]
                                  | None => []
                                  end)
                               (ToArray (LD_RANGE_INCLUDES item')) |} |}.

(** A class after the properties [ps] have been pushed, in order. *)
Definition withProps (c : Class) (ps : list Property) : Class :=
  {| self := self c; comment := comment c; children := children c;
     parents := parents c; _props := _props c ++ ps; _enums := _enums c |}.

(** A set of parent lists that the search of [aliasesBuiltin] never leaves:
    every list of the set begins with a class that is not a [Builtin], which
    the registry holds, and whose own parents are a list of the set. *)
Definition endless (classMap : ClassMap) (I : list ClassRef -> Prop) : Prop :=
  forall ps, I ps ->
    exists p rest pc,
      ps = p :: rest /\ isBuiltin p = false
      /\ JsMap.get (idOf p) classMap = Some pc /\ I (parents pc).

(** No enumeration value of the registry has a comment. *)
Definition uncommented (classMap : ClassMap) : Prop :=
  Forall (fun entry => Forall (fun e => ev_comment e = None) (_enums (snd entry)))
         classMap.

End PipelineNotions.

(** ** On the registry of the class synthesiser *)
Module RegistryNotions.
Import Triples.

(** Every class stands under its own identifier. *)
Definition wellKeyed `{Collaborators} (classMap : ClassMap) : Prop :=
  forall k c, JsMap.get k classMap = Some c -> idOf (self c) = k.

(** The links between the classes of the registry are mutual: [b] is among
    the parents of [a] exactly when [a] is among the children of [b]. *)
Definition mirrored (classMap : ClassMap) : Prop :=
  forall ka kb a b,
    JsMap.get ka classMap = Some a -> JsMap.get kb classMap = Some b ->
    (In (self b) (parents a) <-> In (self a) (children b)).

(** A value [add] does something with: a comment, a parent, or a
    supersession. *)
Definition recognised `{Collaborators} (v : ObjectPredicate TPredicate TObject)
  : bool :=
  match GetComment v, GetSubClassOf v with
  | Some _, _ => true
  | None, Some _ => true
  | None, None => IsSupersededBy (Predicate v)
  end.

(** The name a declaration declares, and whether it is exported. *)
Definition statementName (s : Statement) : string :=
  match s with
  | TypeAliasDeclaration _ _ n _ => n
  | EnumDeclaration _ _ n _ => n
  end.

Definition statementExported (s : Statement) : bool :=
  match s with
  | TypeAliasDeclaration _ e _ _ => e
  | EnumDeclaration _ e _ _ => e
  end.

(** The classes whose names [toNode] asks for: the receiver, its children,
    the classes that supersede it, and its parents. *)
Definition namedBy (c : Class) : list ClassRef :=
  self c :: children c ++ _supersededBy c ++ parents c.

End RegistryNotions.

(** * Sample inputs *)
Module Samples.

(** The part of an identifier after [http://schema.org/]. *)
Definition afterSchemaOrg (id : string) : string :=
  if String.prefix "http://schema.org/" id
  then String.substring 18 (String.length id - 18) id
  else id.

(** Collaborators for closed examples of the JSON-LD pipeline: names are the
    identifiers without the schema.org prefix, the preferred language is
    English, and a declaration is printed as its keyword and name. *)
Definition jsonLdCollaborators : JsonLd.Collaborators :=
  {| JsonLd.toScopedName := fun i => afterSchemaOrg (JsonLd.LD_ID i);
     JsonLd.toEnumMemberName := fun i => afterSchemaOrg (JsonLd.LD_ID i);
     JsonLd.PreferredLanguage := "en";
     JsonLd.printNode := fun s =>
       match s with
       | TypeAliasDeclaration _ _ n _ => ("type " ++ n)%string
       | EnumDeclaration _ _ n _ => ("enum " ++ n)%string
       end |}.

(** An item with an identifier, type tags and parents, and nothing else. *)
Definition classItem (id : string) (types' : list string) (parents' : list string)
  : JsonLd.JsonLdGraphItem :=
  {| JsonLd.LD_ID := id;
     JsonLd.LD_TYPES := Some (JsonLd.Multiple types');
     JsonLd.LD_COMMENT := None;
     JsonLd.LD_LABEL := None;
     JsonLd.LD_SUBCLASS_OF :=
       match parents' with
       | [] => None
       | _ => Some (JsonLd.Multiple (map JsonLd.Reference parents'))
       end;
     JsonLd.LD_DOMAIN_INCLUDES := None;
     JsonLd.LD_RANGE_INCLUDES := None;
     JsonLd.closeMatch := false;
     JsonLd.source := false;
     JsonLd.softwareVersion := false |}.

(** A property declaration with a domain and a range. *)
Definition propertyItem (id : string) (domain range : list string)
  : JsonLd.JsonLdGraphItem :=
  {| JsonLd.LD_ID := id;
     JsonLd.LD_TYPES := Some (JsonLd.Single "rdf:Property");
     JsonLd.LD_COMMENT := None;
     JsonLd.LD_LABEL := None;
     JsonLd.LD_SUBCLASS_OF := None;
     JsonLd.LD_DOMAIN_INCLUDES := Some (JsonLd.Multiple (map JsonLd.Reference domain));
     JsonLd.LD_RANGE_INCLUDES := Some (JsonLd.Multiple (map JsonLd.Reference range));
     JsonLd.closeMatch := false;
     JsonLd.source := false;
     JsonLd.softwareVersion := false |}.

Definition textRef : JsonLd.ClassRef :=
  JsonLd.self (JsonLd.newBuiltin
                 {| JsonLd.name := "Text"; JsonLd.equivTo := "string";
                    JsonLd.doc := "Data type: Text." |}).

(** The property [name], of range [Text], and the discriminant of [Thing]. *)
Definition nameProperty : JsonLd.Property :=
  {| JsonLd.key := "name";
     JsonLd.type := inl {| JsonLd.pt_item :=
                             propertyItem "http://schema.org/name"
                               ["http://schema.org/Thing"] ["http://schema.org/Text"];
                           JsonLd.pt_comment := Some "The name of the item.";
                           JsonLd.types := [textRef] |} |}.

Definition typeProperty : JsonLd.Property :=
  {| JsonLd.key := "@type"; JsonLd.type := inr {| JsonLd.value := "Thing" |} |}.

(** Code-unit comparison, for closed examples of [localeCompare]. *)
Definition codeUnitCompare (a b : string) : Z :=
  match String.compare a b with
  | Lt => (-1)%Z
  | Eq => 0%Z
  | Gt => 1%Z
  end.

Inductive SamplePredicate : Type := comment | subClassOf | supersededBy | label.
Inductive SampleObject : Type :=
| Node (s : Triples.TSubject)
| Literal (s : string).

(** Modelled from the spec: the methods of a subject and the recognisers of
    well-known predicates, which [triples/types.ts] and
    [triples/wellKnown.ts] define.  [toString] is the full canonical
    identifier string, [toHumanString] the human-readable name;
    a comment is a literal under the comment predicate, a parent a node under
    the subclass-of predicate; the discriminant is the mandatory field
    [@type], whose type is the class's name as a literal, and is never
    deprecated. *)
Definition sampleToString (s : Triples.TSubject) : string :=
  match s with
  | Triples.UrlNode _ href => href
  | Triples.BlankNode id => ("_:" ++ id)%string
  end.

Definition sampleToHumanString (s : Triples.TSubject) : string :=
  match s with
  | Triples.UrlNode (Some n) _ => n
  | Triples.UrlNode None href => href
  | Triples.BlankNode id => id
  end.

Definition triplesCollaborators : Triples.Collaborators :=
  {| Triples.toString := sampleToString;
     Triples.toHumanString := sampleToHumanString;
     Triples.localeCompare := codeUnitCompare;
     Triples.TPredicate := SamplePredicate;
     Triples.TObject := SampleObject;
     Triples.objectToString := fun o =>
       match o with
       | Node s => sampleToString s
       | Literal s => s
       end;
     Triples.GetComment := fun v =>
       match Triples.Predicate v, Triples.Object v with
       | comment, Literal s => Some s
       | _, _ => None
       end;
     Triples.GetSubClassOf := fun v =>
       match Triples.Predicate v, Triples.Object v with
       | subClassOf, Node s => Some s
       | _, _ => None
       end;
     Triples.IsSupersededBy := fun p =>
       match p with supersededBy => true | _ => false end;
     Triples.TypeProperty_toNode := fun s =>
       createPropertySignature None "@type" false
         (LiteralTypeNode (sampleToHumanString s));
     Triples.TypeProperty_deprecated := false |}.

Definition schema (n : string) : Triples.TSubject :=
  Triples.UrlNode (Some n) ("http://schema.org/" ++ n).

Definition classOf (n : string) : Triples.ClassRef := Triples.ClassObject (schema n).

Definition emptyClass (self' : Triples.ClassRef) : Triples.Class :=
  {| Triples.self := self'; Triples._comment := None; Triples.children := [];
     Triples.parents := []; Triples._props := []; Triples._enums := [];
     Triples._supersededBy := [] |}.

(** [Thing], with the children [Person] and [Action] in that order of
    insertion, and nothing else. *)
Definition thing : Triples.Class :=
  Triples.setChildren (emptyClass (classOf "Thing")) [classOf "Person"; classOf "Action"].

(** [Person], a child of [Thing] with one property. *)
Definition givenName : Triples.Property :=
  {| Triples.key := schema "givenName"; Triples.deprecated := false;
     Triples.Property_toNode :=
       createPropertySignature None "givenName" true
         (UnionTypeNode [TypeReferenceNode "Text";
                         ArrayTypeNode (TypeReferenceNode "Text")]) |}.

Definition person : Triples.Class :=
  Triples.setProps (Triples.setParents (emptyClass (classOf "Person")) [classOf "Thing"])
    [givenName].

(** [Gadget], superseded by [Device] and [Tool]. *)
Definition gadget : Triples.Class :=
  Triples.setSupersededBy
    (Triples.setComment (emptyClass (classOf "Gadget")) (Some "A gadget."))
    [classOf "Device"; classOf "Tool"].

(** The registry that holds [Thing] and [Person]. *)
Definition registry : Triples.ClassMap :=
  [("http://schema.org/Thing", thing); ("http://schema.org/Person", person)].

(** Two [Builtin] objects of the same name under different identifiers. *)
Definition textBuiltin : Triples.ClassRef :=
  Triples.BuiltinObject "Text" "http://schema.org/Text" (Triples.Alias "string")
    "Data type: Text.".
Definition pendingTextBuiltin : Triples.ClassRef :=
  Triples.BuiltinObject "Text" "http://pending.schema.org/Text" (Triples.Alias "string")
    "Data type: Text.".

(** Two declarations of the property [name], one with the domain [Thing], the
    other with the domain [Place]. *)
Definition nameOfThing : JsonLd.JsonLdGraphItem :=
  {| JsonLd.LD_ID := "http://schema.org/name";
     JsonLd.LD_TYPES := Some (JsonLd.Single "rdf:Property");
     JsonLd.LD_COMMENT := None;
     JsonLd.LD_LABEL := None;
     JsonLd.LD_SUBCLASS_OF := None;
     JsonLd.LD_DOMAIN_INCLUDES :=
       Some (JsonLd.Single (JsonLd.Reference "http://schema.org/Thing"));
     JsonLd.LD_RANGE_INCLUDES := None;
     JsonLd.closeMatch := false;
     JsonLd.source := false;
     JsonLd.softwareVersion := false |}.

Definition nameOfPlace : JsonLd.JsonLdGraphItem :=
  {| JsonLd.LD_ID := "http://schema.org/name";
     JsonLd.LD_TYPES := Some (JsonLd.Single "rdf:Property");
     JsonLd.LD_COMMENT := None;
     JsonLd.LD_LABEL := None;
     JsonLd.LD_SUBCLASS_OF := None;
     JsonLd.LD_DOMAIN_INCLUDES :=
       Some (JsonLd.Single (JsonLd.Reference "http://schema.org/Place"));
     JsonLd.LD_RANGE_INCLUDES := None;
     JsonLd.closeMatch := false;
     JsonLd.source := false;
     JsonLd.softwareVersion := false |}.

(** A registry of the JSON-LD pipeline: [Thing], its child [Person], and
    [Label], a child of the builtin [Text]. *)
Definition thingRef : JsonLd.ClassRef :=
  {| JsonLd.item := classItem "http://schema.org/Thing" ["rdfs:Class"] [];
     JsonLd.instanceofBuiltin := None |}.
Definition personRef : JsonLd.ClassRef :=
  {| JsonLd.item :=
       classItem "http://schema.org/Person" ["rdfs:Class"] ["http://schema.org/Thing"];
     JsonLd.instanceofBuiltin := None |}.
Definition labelRef : JsonLd.ClassRef :=
  {| JsonLd.item :=
       classItem "http://schema.org/Label" ["rdfs:Class"] ["http://schema.org/Text"];
     JsonLd.instanceofBuiltin := None |}.

Definition thingClass : JsonLd.Class :=
  {| JsonLd.self := thingRef; JsonLd.comment := None;
     JsonLd.children := [personRef]; JsonLd.parents := [];
     JsonLd._props := [nameProperty]; JsonLd._enums := [] |}.
Definition personClass : JsonLd.Class :=
  {| JsonLd.self := personRef; JsonLd.comment := None;
     JsonLd.children := []; JsonLd.parents := [thingRef];
     JsonLd._props := []; JsonLd._enums := [] |}.
Definition labelClass : JsonLd.Class :=
  {| JsonLd.self := labelRef; JsonLd.comment := None;
     JsonLd.children := []; JsonLd.parents := [textRef];
     JsonLd._props := []; JsonLd._enums := [] |}.

Definition jsonLdRegistry : JsonLd.ClassMap :=
  [("http://schema.org/Thing", thingClass);
   ("http://schema.org/Person", personClass);
   ("http://schema.org/Label", labelClass)].

(** The depth of a class of [jsonLdRegistry] below the roots. *)
Definition depth (id : string) : nat :=
  if String.eqb id "http://schema.org/Thing" then 0 else 1.

(** Inputs of [main]: the classes [A], [B] and [C], the property [p] of
    domain [A] and range [Text], and [X], tagged as a property and as a
    member of [A]. *)
Definition itemA : JsonLd.JsonLdGraphItem :=
  classItem "http://schema.org/A" ["rdfs:Class"] [].
Definition itemB : JsonLd.JsonLdGraphItem :=
  classItem "http://schema.org/B" ["rdfs:Class"] [].
Definition itemC (parents' : list string) : JsonLd.JsonLdGraphItem :=
  classItem "http://schema.org/C" ["rdfs:Class"] parents'.
Definition itemP : JsonLd.JsonLdGraphItem :=
  propertyItem "http://schema.org/p" ["http://schema.org/A"] ["http://schema.org/Text"].
Definition itemX (types' : list string) : JsonLd.JsonLdGraphItem :=
  classItem "http://schema.org/X" types' [].

End Samples.

(** ** A hierarchy with a cycle *)
Module Scenarios.
Import JsonLd.

(** [Loop] is declared a subclass of itself, [Twig] a subclass of [Loop]. *)
Definition loopItem : JsonLdGraphItem :=
  Samples.classItem "http://schema.org/Loop" ["rdfs:Class"] ["http://schema.org/Loop"].
Definition twigItem : JsonLdGraphItem :=
  Samples.classItem "http://schema.org/Twig" ["rdfs:Class"] ["http://schema.org/Loop"].

Definition loopRef : ClassRef := {| item := loopItem; instanceofBuiltin := None |}.
Definition twigRef : ClassRef := {| item := twigItem; instanceofBuiltin := None |}.

(** The registry [ProcessClasses] builds of the two. *)
Definition loopRegistry : ClassMap :=
  match ProcessClasses (H := Samples.jsonLdCollaborators) [loopItem; twigItem] with
  | Ok classes => classes
  | _ => []
  end.

Definition twigClass : Class :=
  {| self := twigRef; comment := None; children := []; parents := [loopRef];
     _props := []; _enums := [] |}.

Definition loopClass : Class :=
  {| self := loopRef; comment := None; children := [loopRef; twigRef];
     parents := [loopRef]; _props := []; _enums := [] |}.

End Scenarios.

(** * Properties *)

(** ** Maps, sorting and sets *)
Module JsMapFacts.
Import JsMap.

Lemma get_set_eq (V : Type) (k : string) (v : V) (m : t V) :
  get k (set k v m) = Some v.
Proof.
  induction m as [|[k' v'] r IH]; simpl.
  - now rewrite String.eqb_refl.
  - destruct (String.eqb k k') eqn:E; simpl.
    + now rewrite String.eqb_refl.
    + now rewrite E.
Qed.

Lemma get_set_ne (V : Type) (k k' : string) (v : V) (m : t V) :
  k <> k' -> get k' (set k v m) = get k' m.
Proof.
  intros Hne. induction m as [|[k0 v0] r IH]; simpl.
  - destruct (String.eqb k' k) eqn:E; [|reflexivity].
    apply String.eqb_eq in E. congruence.
  - destruct (String.eqb k k0) eqn:E; simpl.
    + apply String.eqb_eq in E. subst k0.
      destruct (String.eqb k' k) eqn:E'; [|reflexivity].
      apply String.eqb_eq in E'. congruence.
    + now rewrite IH.
Qed.

Lemma keys_set_present (V : Type) (k : string) (v v0 : V) (m : t V) :
  get k m = Some v0 -> keys (set k v m) = keys m.
Proof.
  unfold keys. induction m as [|[k' v'] r IH]; simpl; [discriminate|].
  destruct (String.eqb k k') eqn:E; simpl; intros Hg.
  - apply String.eqb_eq in E. now subst.
  - now rewrite IH.
Qed.

Lemma keys_set_absent (V : Type) (k : string) (v : V) (m : t V) :
  get k m = None -> keys (set k v m) = keys m ++ [k].
Proof.
  unfold keys. induction m as [|[k' v'] r IH]; simpl; [reflexivity|].
  destruct (String.eqb k k') eqn:E; simpl; intros Hg; [discriminate|].
  now rewrite IH.
Qed.

Lemma get_Some_In (V : Type) (k : string) (v : V) (m : t V) :
  get k m = Some v -> In v (values m).
Proof.
  unfold values. induction m as [|[k' v'] r IH]; simpl; [discriminate|].
  destruct (String.eqb k k'); intros Hg.
  - left. congruence.
  - right. auto.
Qed.

End JsMapFacts.

Module SortFacts.

Section Sorting.
Variable T : Type.
Variable compareFn : T -> T -> Z.

Lemma insertSorted_perm (x : T) (l : list T) :
  Permutation (insertSorted compareFn x l) (x :: l).
Proof.
  induction l as [|y r IH]; simpl; [reflexivity|].
  destruct (compareFn x y <=? 0)%Z; [reflexivity|].
  rewrite IH. apply perm_swap.
Qed.

Lemma sort_perm (l : list T) : Permutation (sort compareFn l) l.
Proof.
  induction l as [|x r IH]; simpl; [reflexivity|].
  rewrite insertSorted_perm. now constructor.
Qed.

Lemma sort_length (l : list T) : length (sort compareFn l) = length l.
Proof. apply Permutation_length, sort_perm. Qed.

Lemma sort_nil (l : list T) : sort compareFn l = [] <-> l = [].
Proof.
  split; intros E.
  - apply Permutation_nil. rewrite <- E. apply sort_perm.
  - now subst.
Qed.

Lemma sort_In (x : T) (l : list T) : In x (sort compareFn l) <-> In x l.
Proof.
  split; apply Permutation_in; [|symmetry]; apply sort_perm.
Qed.

(** The comparator is consistent: total, and transitive. *)
Hypothesis total : forall a b, before compareFn a b \/ before compareFn b a.
Hypothesis transitive :
  forall a b c, before compareFn a b -> before compareFn b c -> before compareFn a c.

Lemma insertSorted_sorted (x : T) (l : list T) :
  StronglySorted (before compareFn) l -> StronglySorted (before compareFn) (insertSorted compareFn x l).
Proof.
  induction 1 as [|y r Hs IH Hall]; simpl.
  - repeat constructor.
  - destruct (compareFn x y <=? 0)%Z eqn:E.
    + apply Z.leb_le in E. constructor.
      * now constructor.
      * constructor; [exact E|].
        eapply Forall_impl; [|exact Hall]. intros z Hz. eapply transitive; eauto.
    + apply Z.leb_gt in E. constructor; [exact IH|].
      assert (Hyx : before compareFn y x).
      { destruct (total x y) as [Hxy|Hyx]; [unfold before in Hxy; lia|exact Hyx]. }
      rewrite Forall_forall. intros z Hz.
      apply (Permutation_in _ (insertSorted_perm x r)) in Hz.
      destruct Hz as [<-|Hz]; [exact Hyx|].
      rewrite Forall_forall in Hall. auto.
Qed.

Lemma sort_sorted (l : list T) : StronglySorted (before compareFn) (sort compareFn l).
Proof.
  induction l as [|x r IH]; simpl; [constructor|].
  now apply insertSorted_sorted.
Qed.

(** Two sorted arrangements of the same elements are equal when no two
    different elements tie. *)
Lemma sorted_unique (l1 l2 : list T) :
  (forall a b, In a l1 -> In b l1 -> before compareFn a b -> before compareFn b a -> a = b) ->
  StronglySorted (before compareFn) l1 -> StronglySorted (before compareFn) l2 ->
  Permutation l1 l2 -> l1 = l2.
Proof.
  revert l2. induction l1 as [|x r IH]; intros l2 Hanti H1 H2 Hp.
  - apply Permutation_nil in Hp. now subst.
  - destruct l2 as [|y r2].
    { symmetry in Hp. apply Permutation_nil in Hp. discriminate. }
    inversion H1 as [|? ? Hs1 Hall1]; subst.
    inversion H2 as [|? ? Hs2 Hall2]; subst.
    rewrite Forall_forall in Hall1, Hall2.
    assert (Hxy : x = y).
    { assert (Hy : In y (x :: r)).
      { apply (Permutation_in _ (Permutation_sym Hp)). now left. }
      assert (Hx : In x (y :: r2)).
      { apply (Permutation_in _ Hp). now left. }
      destruct Hy as [->|Hy]; [reflexivity|].
      destruct Hx as [->|Hx]; [reflexivity|].
      apply Hanti; [now left|now right|auto|auto]. }
    subst y. f_equal. apply IH; auto.
    + intros a b Ha Hb. apply Hanti; now right.
    + eapply Permutation_cons_inv; eauto.
Qed.

Lemma sort_insertion_order (l l' : list T) :
  (forall a b, In a l -> In b l -> before compareFn a b -> before compareFn b a -> a = b) ->
  Permutation l l' -> sort compareFn l = sort compareFn l'.
Proof.
  intros Hanti Hp. apply sorted_unique.
  - intros a b Ha Hb. apply Hanti; now apply sort_In.
  - apply sort_sorted.
  - apply sort_sorted.
  - rewrite !sort_perm. exact Hp.
Qed.

End Sorting.

Lemma SetValues_In (x : string) (xs seen : list string) :
  In x (SetValues seen xs) <-> In x xs /\ ~ In x seen.
Proof.
  revert seen. induction xs as [|y r IH]; intros seen; simpl; [tauto|].
  destruct (existsb (String.eqb y) seen) eqn:E.
  - rewrite IH. apply existsb_exists in E. destruct E as [z [Hz Hyz]].
    apply String.eqb_eq in Hyz. subst z.
    split; [tauto|]. intros [[->|Hin] Hn]; tauto.
  - assert (Hy : ~ In y seen).
    { intros Hin. apply Bool.not_true_iff_false in E. apply E.
      apply existsb_exists. exists y. split; [exact Hin|apply String.eqb_refl]. }
    simpl. rewrite IH. simpl. split.
    + intros [->|[Hin Hn]]; [tauto|]. split; [tauto|]. intros Hs. apply Hn. now right.
    + intros [[->|Hin] Hn]; [tauto|].
      destruct (String.eqb_spec y x) as [->|Hne]; [tauto|].
      right. split; [exact Hin|]. intros [Heq|Hs]; [congruence|tauto].
Qed.

Lemma SetValues_NoDup (xs seen : list string) : NoDup (SetValues seen xs).
Proof.
  revert seen. induction xs as [|y r IH]; intros seen; simpl; [constructor|].
  destruct (existsb (String.eqb y) seen); [apply IH|].
  constructor; [|apply IH].
  rewrite SetValues_In. simpl. tauto.
Qed.

End SortFacts.

(** ** Type expressions *)
Module TypeFacts.

(** The alternatives of a union of references are the references. *)
Lemma alternatives_references (A : Type) (f : A -> string) (xs : list A) :
  alternatives (UnionTypeNode (map (fun x => TypeReferenceNode (f x)) xs))
  = map (fun x => TypeReferenceNode (f x)) xs.
Proof.
  simpl. induction xs as [|x r IH]; simpl; [reflexivity|].
  now rewrite IH.
Qed.

Lemma alternatives_named (names : list string) :
  alternatives (UnionTypeNode (map TypeReferenceNode names))
  = map TypeReferenceNode names.
Proof. apply (alternatives_references (fun n => n)). Qed.

End TypeFacts.

(** ** [lib/toProperty.ts] *)
Module PropertyFacts.
Import JsonLd JsonLdNotions TypeFacts.

Section Facts.
Context `{Collaborators}.

Lemma scalarTypeNode_range (p : Property) (propertyType : PropertyType) :
  type p = inl propertyType ->
  types propertyType <> [] ->
  alternatives (scalarTypeNode p)
  = map (fun t => TypeReferenceNode (toScopedName (item t))) (types propertyType).
Proof.
  intros Ht Hne. unfold scalarTypeNode. rewrite Ht.
  destruct (types propertyType) as [|t1 [|t2 r]]; [congruence|reflexivity|].
  apply (alternatives_references
           (fun t => toScopedName (item t)) (t1 :: t2 :: r)).
Qed.

(** C9.  A property whose name does not start with [@] is optional and its
    value type is the union of its scalar type with an array of that type; a
    property whose name starts with [@] is mandatory and its value type is
    the scalar type alone.  The scalar type of a property with a range is the
    union of the references to the classes of the range. *)
Theorem property_multiplicity (p : Property) :
  (String.prefix "@" (key p) = false ->
   signatureName (Property_toNode p) = key p /\
   signatureOptional (Property_toNode p) = true /\
   signatureType (Property_toNode p)
   = UnionTypeNode [scalarTypeNode p; ArrayTypeNode (scalarTypeNode p)]) /\
  (String.prefix "@" (key p) = true ->
   signatureName (Property_toNode p) = key p /\
   signatureOptional (Property_toNode p) = false /\
   signatureType (Property_toNode p) = scalarTypeNode p) /\
  (forall propertyType,
     type p = inl propertyType -> types propertyType <> [] ->
     alternatives (scalarTypeNode p)
     = map (fun t => TypeReferenceNode (toScopedName (item t))) (types propertyType)).
Proof.
  split; [|split].
  - intros E. unfold Property_toNode, typeNode, required. rewrite E. simpl. auto.
  - intros E. unfold Property_toNode, typeNode, required. rewrite E. simpl. auto.
  - apply scalarTypeNode_range.
Qed.

End Facts.

Lemma property_multiplicity_witness :
  signatureType (Property_toNode (H := Samples.jsonLdCollaborators) Samples.nameProperty)
  = UnionTypeNode [TypeReferenceNode "Text"; ArrayTypeNode (TypeReferenceNode "Text")]
  /\ signatureOptional
       (Property_toNode (H := Samples.jsonLdCollaborators) Samples.nameProperty) = true
  /\ signatureType (Property_toNode (H := Samples.jsonLdCollaborators) Samples.typeProperty)
     = LiteralTypeNode "Thing"
  /\ signatureOptional
       (Property_toNode (H := Samples.jsonLdCollaborators) Samples.typeProperty) = false.
Proof.
  pose proof (property_multiplicity (H := Samples.jsonLdCollaborators)
                Samples.nameProperty) as [Hn _].
  pose proof (property_multiplicity (H := Samples.jsonLdCollaborators)
                Samples.typeProperty) as [_ [Ht _]].
  destruct (Hn eq_refl) as [_ [Hn1 Hn2]].
  destruct (Ht eq_refl) as [_ [Ht1 Ht2]].
  split; [|split; [|split]].
  - rewrite Hn2. reflexivity.
  - exact Hn1.
  - rewrite Ht2. reflexivity.
  - exact Ht1.
Defined.

End PropertyFacts.

(** ** [ts/class.ts]: the shapes *)
Module ShapeFacts.
Import Triples TriplesNotions TypeFacts.

Lemma mapM_bind_map (A B C : Type) (f : A -> result B) (g : B -> C) (xs : list A) :
  mapM (fun x => y <- f x ;; Ok (g y)) xs = ys <- mapM f xs ;; Ok (map g ys).
Proof.
  induction xs as [|x r IH]; simpl; [reflexivity|].
  destruct (f x) as [y| |]; simpl; [|reflexivity|reflexivity].
  rewrite IH. destruct (mapM f r); reflexivity.
Qed.

Lemma mapM_length (A B : Type) (f : A -> result B) (xs : list A) (ys : list B) :
  mapM f xs = Ok ys -> length ys = length xs.
Proof.
  revert ys. induction xs as [|x r IH]; simpl; intros ys E.
  - now inversion E.
  - destruct (f x); simpl in E; try discriminate.
    destruct (mapM f r); simpl in E; try discriminate.
    inversion E. simpl. f_equal. now apply IH.
Qed.

Section Facts.
Context `{Collaborators}.

Lemma aliasesBuiltin_no_parents (fuel : nat) (classMap : ClassMap) :
  aliasesBuiltin fuel classMap [] = Ok false.
Proof. destruct fuel; reflexivity. Qed.

(** [ts/class.ts].  The non-enum total type of a class with children is the
    union of the intersection of the literal that holds the discriminant
    alone with the reference to the class's base, and of the references to
    the children by class name (one reference, or a parenthesised union of
    several, the children sorted by [CompareKeys]); without children it is
    the reference to the class's base. *)
Lemma nonEnumType_shape (c : Class) :
  let sorted := sort (fun a b => CompareKeys (subject a) (subject b)) (children c) in
  (children c <> [] ->
   forall names base,
     mapM className sorted = Ok names ->
     baseName (self c) = Ok base ->
     let own :=
       IntersectionTypeNode
         [TypeLiteralNode [TypeProperty_toNode (subject (self c))];
          TypeReferenceNode base] in
     nonEnumType c
     = Ok (UnionTypeNode
             [own;
              match names with
              | [only] => TypeReferenceNode only
              | _ => ParenthesizedType (UnionTypeNode (map TypeReferenceNode names))
              end],
           setChildren c sorted)
     /\ forall t c', nonEnumType c = Ok (t, c') ->
                     alternatives t = own :: map TypeReferenceNode names) /\
  (children c = [] ->
   forall base,
     baseName (self c) = Ok base ->
     nonEnumType c = Ok (TypeReferenceNode base, setChildren c [])).
Proof.
  intros sorted. split.
  - intros Hne names base Hnames Hbase own.
    assert (Hnn : names <> []).
    { intros ->. apply mapM_length in Hnames. simpl in Hnames.
      unfold sorted in Hnames. rewrite SortFacts.sort_length in Hnames.
      destruct (children c); [congruence|discriminate]. }
    assert (E : nonEnumType c
                = Ok (UnionTypeNode
                        [own;
                         match names with
                         | [only] => TypeReferenceNode only
                         | _ => ParenthesizedType (UnionTypeNode (map TypeReferenceNode names))
                         end],
                      setChildren c sorted)).
    { unfold nonEnumType. fold sorted. simpl children.
      rewrite mapM_bind_map, Hnames. simpl bind.
      destruct names as [|n1 [|n2 r]]; [congruence| |]; simpl; rewrite Hbase; reflexivity. }
    split; [exact E|].
    intros t c' E'. rewrite E in E'. inversion E'; subst t c'.
    destruct names as [|n1 [|n2 r]]; [congruence|reflexivity|].
    change (alternatives
              (UnionTypeNode
                 [own; ParenthesizedType (UnionTypeNode (map TypeReferenceNode (n1 :: n2 :: r)))]))
      with (alternatives own
              ++ alternatives (UnionTypeNode (map TypeReferenceNode (n1 :: n2 :: r))) ++ []).
    rewrite alternatives_named, app_nil_r. reflexivity.
  - intros Hnil base Hbase. unfold nonEnumType. rewrite Hnil. simpl.
    rewrite Hbase. reflexivity.
Qed.

(** The name that refers to a child in its parent's total type is the name
    under which the child's own total type is exported. *)
Lemma toNode_declares_totalType (skip : bool) (fuel : nat) (classMap : ClassMap)
  (c c' : Class) (subject' : TSubject) (stmts : list Statement) :
  self c = ClassObject subject' ->
  toNode skip fuel classMap c = Ok (stmts, c') ->
  exists front comment' n t c1,
    stmts = front ++ [TypeAliasDeclaration comment' true n t]
    /\ className (self c) = Ok n
    /\ totalType c = Ok (t, c1).
Proof.
  intros Hself E. unfold toNode in E. rewrite Hself in E.
  destruct (totalType c) as [[typeValue c1]| |] eqn:Et; simpl in E; try discriminate.
  destruct (comment c1) as [comment'| |]; simpl in E; try discriminate.
  destruct (className (self c1)) as [n| |] eqn:En; simpl in E; try discriminate.
  destruct (enumDecl c1) as [[enum c2]| |]; simpl in E; try discriminate.
  destruct (baseDecl skip fuel classMap c2) as [[base c3]| |]; simpl in E;
    try discriminate.
  inversion E; subst stmts c'.
  exists (arrayOf [enum; Some base]), comment', n, typeValue, c1.
  split; [destruct enum; reflexivity|]. split; [|reflexivity].
  assert (Hs : self c1 = self c).
  { unfold totalType in Et. destruct (_enums c).
    - unfold nonEnumType in Et.
      destruct (mapM _ _) as [[|t1 [|t2 r]]| |]; simpl in Et; try discriminate;
        destruct (baseName (self c)); simpl in Et; try discriminate;
        inversion Et; reflexivity.
    - destruct (enumName (self c)); simpl in Et; try discriminate.
      unfold nonEnumType in Et.
      destruct (mapM _ _) as [[|t1 [|t2 r]]| |]; simpl in Et; try discriminate;
        destruct (baseName (self c)); simpl in Et; try discriminate;
        inversion Et; reflexivity. }
  now rewrite <- Hs.
Qed.

(** [properties] puts one [TypeProperty], made from the class's own subject,
    before the sorted properties of a leaf, and none for another class. *)
Lemma properties_leaf (fuel : nat) (classMap : ClassMap) (c c' : Class)
  (props : list ClassProperty) :
  properties fuel classMap c = Ok (props, c') ->
  exists leaf,
    isLeaf fuel classMap c = Ok leaf
    /\ props = (if leaf : bool then [TypeProperty (subject (self c))] else [])
               ++ map OwnProperty (_props c').
Proof.
  unfold properties.
  change (isLeaf fuel classMap (setProps c _)) with (isLeaf fuel classMap c).
  destruct (isLeaf fuel classMap c) as [leaf| |]; simpl; try discriminate.
  intros E. inversion E. exists leaf. split; [reflexivity|].
  destruct leaf; reflexivity.
Qed.

End Facts.

(** The older [lib/toClass.ts] differs: the non-enum total type of a class
    with children is the union of the children alone. *)
Lemma older_nonEnumType `{JsonLd.Collaborators} (c : JsonLd.Class) :
  alternatives (JsonLd.nonEnumType c)
  = match JsonLd.children c with
    | [] => [TypeReferenceNode (JsonLd.baseName (JsonLd.self c))]
    | _ => map (fun child => TypeReferenceNode (JsonLd.className child))
               (JsonLd.children c)
    end.
Proof.
  unfold JsonLd.nonEnumType.
  destruct (JsonLd.children c) as [|c1 [|c2 r]]; try reflexivity.
  exact (alternatives_references JsonLd.className (c1 :: c2 :: r)).
Qed.

(** In [lib/toClass.ts] the non-enum total type of a class is, in full, one
    child, the parenthesised union of several, or the base. *)
Lemma older_nonEnumType_cases `{JsonLd.Collaborators} (c : JsonLd.Class) :
  JsonLd.nonEnumType c
  = match JsonLd.children c with
    | [] => TypeReferenceNode (JsonLd.baseName (JsonLd.self c))
    | [only] => TypeReferenceNode (JsonLd.className only)
    | several =>
        ParenthesizedType
          (UnionTypeNode
             (map (fun child => TypeReferenceNode (JsonLd.className child)) several))
    end.
Proof.
  unfold JsonLd.nonEnumType. destruct (JsonLd.children c) as [|c1 [|c2 r]]; reflexivity.
Qed.

(** C1, as stated, fails on [lib/toClass.ts], which [main] of
    [generator/run.ts] runs: for the classes [A] and [C], a subclass of [A],
    and one property, [A] has a child and its total type is the reference to
    [C] alone, without the branch for [A] itself. *)
Lemma older_total_type_lacks_own_branch :
  exists classes a,
    JsonLd.resolve (H := Samples.jsonLdCollaborators)
      [JsonLd.Item Samples.itemA;
       JsonLd.Item (Samples.itemC ["http://schema.org/A"]);
       JsonLd.Item Samples.itemP] = Ok classes
    /\ JsMap.get "http://schema.org/A" classes = Some a
    /\ JsonLd.children a <> []
    /\ JsonLd.nonEnumType (H := Samples.jsonLdCollaborators) a = TypeReferenceNode "C"
    /\ JsonLd.totalType (H := Samples.jsonLdCollaborators) a = TypeReferenceNode "C"
    /\ ~ (exists own children',
            JsonLd.nonEnumType (H := Samples.jsonLdCollaborators) a
            = UnionTypeNode [own; children'])
    /\ ~ (forall (H : JsonLd.Collaborators) (c : JsonLd.Class),
            JsonLd.children c <> [] ->
            exists own children',
              JsonLd.nonEnumType c = UnionTypeNode [own; children']).
Proof.
  destruct (JsonLd.resolve (H := Samples.jsonLdCollaborators)
              [JsonLd.Item Samples.itemA;
               JsonLd.Item (Samples.itemC ["http://schema.org/A"]);
               JsonLd.Item Samples.itemP]) as [classes| |] eqn:E;
    [|vm_compute in E; discriminate E..].
  destruct (JsMap.get "http://schema.org/A" classes) as [a|] eqn:Ha;
    [|vm_compute in E; inversion E; subst; vm_compute in Ha; discriminate Ha].
  assert (Hc : JsonLd.children a <> []).
  { vm_compute in E. inversion E; subst classes. vm_compute in Ha.
    inversion Ha; subst a. discriminate. }
  assert (Hn : JsonLd.nonEnumType (H := Samples.jsonLdCollaborators) a
               = TypeReferenceNode "C").
  { vm_compute in E. inversion E; subst classes. vm_compute in Ha.
    inversion Ha; subst a. reflexivity. }
  assert (Ht : JsonLd.totalType (H := Samples.jsonLdCollaborators) a
               = TypeReferenceNode "C").
  { vm_compute in E. inversion E; subst classes. vm_compute in Ha.
    inversion Ha; subst a. reflexivity. }
  exists classes, a. split; [reflexivity|]. split; [exact Ha|].
  split; [exact Hc|]. split; [exact Hn|]. split; [exact Ht|]. split.
  - intros [own [children' C]]. rewrite Hn in C. discriminate C.
  - intros Hall.
    destruct (Hall Samples.jsonLdCollaborators a Hc) as [own [children' C]].
    rewrite Hn in C. discriminate C.
Qed.

(** C1, amended.  The two revisions differ.  In [ts/class.ts] the non-enum
    total type of a class with children is the union of the intersection of
    the literal that holds the discriminant alone with the reference to the
    class's base, and of the references to the children by class name, the
    children sorted by [CompareKeys]; without children it is the reference
    to the class's base.  In [lib/toClass.ts] a class with children has no
    branch of its own: its non-enum total type is the reference to its one
    child, or the parenthesised union of the references to its children in
    their order of insertion; without children it is the reference to the
    class's base. *)
Theorem nonEnumType_revisions `{Collaborators} `{JsonLd.Collaborators}
  (c : Class) (older : JsonLd.Class) :
  let sorted := sort (fun a b => CompareKeys (subject a) (subject b)) (children c) in
  (children c <> [] ->
   forall names base,
     mapM className sorted = Ok names ->
     baseName (self c) = Ok base ->
     let own :=
       IntersectionTypeNode
         [TypeLiteralNode [TypeProperty_toNode (subject (self c))];
          TypeReferenceNode base] in
     nonEnumType c
     = Ok (UnionTypeNode
             [own;
              match names with
              | [only] => TypeReferenceNode only
              | _ => ParenthesizedType (UnionTypeNode (map TypeReferenceNode names))
              end],
           setChildren c sorted)
     /\ forall t c', nonEnumType c = Ok (t, c') ->
                     alternatives t = own :: map TypeReferenceNode names)
  /\ (children c = [] ->
      forall base,
        baseName (self c) = Ok base ->
        nonEnumType c = Ok (TypeReferenceNode base, setChildren c []))
  /\ (JsonLd.children older <> [] ->
      JsonLd.nonEnumType older
      = match JsonLd.children older with
        | [only] => TypeReferenceNode (JsonLd.className only)
        | several =>
            ParenthesizedType
              (UnionTypeNode
                 (map (fun child => TypeReferenceNode (JsonLd.className child))
                      several))
        end
      /\ alternatives (JsonLd.nonEnumType older)
         = map (fun child => TypeReferenceNode (JsonLd.className child))
               (JsonLd.children older))
  /\ (JsonLd.children older = [] ->
      JsonLd.nonEnumType older
      = TypeReferenceNode (JsonLd.baseName (JsonLd.self older))).
Proof.
  intros sorted. destruct (nonEnumType_shape c) as [S1 S2].
  split; [exact S1|]. split; [exact S2|]. split.
  - intros Hne. rewrite older_nonEnumType, older_nonEnumType_cases.
    destruct (JsonLd.children older) as [|c1 [|c2 r]]; [congruence| |]; split; reflexivity.
  - intros Hnil. now rewrite older_nonEnumType_cases, Hnil.
Qed.

Lemma nonEnumType_revisions_witness :
  nonEnumType (H := Samples.triplesCollaborators) Samples.thing
  = Ok (UnionTypeNode
          [IntersectionTypeNode
             [TypeLiteralNode
                [createPropertySignature None "@type" false (LiteralTypeNode "Thing")];
              TypeReferenceNode "ThingBase"];
           ParenthesizedType
             (UnionTypeNode [TypeReferenceNode "Action"; TypeReferenceNode "Person"])],
        Triples.setChildren Samples.thing
          [Samples.classOf "Action"; Samples.classOf "Person"])
  /\ nonEnumType (H := Samples.triplesCollaborators) Samples.person
     = Ok (TypeReferenceNode "PersonBase", Triples.setChildren Samples.person [])
  /\ JsonLd.nonEnumType (H := Samples.jsonLdCollaborators) Samples.thingClass
     = TypeReferenceNode "Person"
  /\ JsonLd.nonEnumType (H := Samples.jsonLdCollaborators) Samples.personClass
     = TypeReferenceNode "PersonBase".
Proof.
  pose proof (@nonEnumType_revisions Samples.triplesCollaborators
                Samples.jsonLdCollaborators Samples.thing Samples.thingClass)
    as [T1 [_ [O1 _]]].
  pose proof (@nonEnumType_revisions Samples.triplesCollaborators
                Samples.jsonLdCollaborators Samples.person Samples.personClass)
    as [_ [T2 [_ O2]]].
  split; [|split; [|split]].
  - refine (proj1 (T1 _ ["Action"; "Person"] "ThingBase" _ _));
      [discriminate|reflexivity|reflexivity].
  - apply T2; reflexivity.
  - destruct O1 as [O1 _]; [discriminate|]. rewrite O1. reflexivity.
  - rewrite O2; reflexivity.
Defined.

End ShapeFacts.

(** ** [ts/class.ts]: the base shape *)
Module BaseFacts.
Import Triples TriplesNotions ShapeFacts.

Section Facts.
Context `{Collaborators}.

Lemma properties_receiver (fuel : nat) (classMap : ClassMap) (c c' : Class)
  (props : list ClassProperty) :
  properties fuel classMap c = Ok (props, c') ->
  c' = setProps c (sort (fun a b => CompareKeys (key a) (key b)) (_props c)).
Proof.
  unfold properties. destruct (isLeaf _ _ _); simpl; intros E; now inversion E.
Qed.

Lemma properties_no_parents (fuel : nat) (classMap : ClassMap) (c : Class) :
  parents c = [] ->
  exists props,
    properties fuel classMap c
    = Ok (props, setProps c (sort (fun a b => CompareKeys (key a) (key b)) (_props c))).
Proof.
  intros Hp. unfold properties, isLeaf. simpl. rewrite Hp.
  rewrite aliasesBuiltin_no_parents. destruct (children c); simpl; eauto.
Qed.

(** C10.  The base shape is the [never] keyword exactly when the class has
    no parent and no property is emitted (the properties that remain after
    deprecated ones are skipped, the discriminant of a leaf included); a
    class without parents always has a base shape. *)
Theorem baseNode_never (skip : bool) (fuel : nat) (classMap : ClassMap) (c : Class) :
  (parents c = [] ->
   exists props c',
     properties fuel classMap c = Ok (props, c') /\
     (emitted skip props = [] ->
      baseNode skip fuel classMap c = Ok (NeverKeyword, c'))) /\
  (forall t c',
     baseNode skip fuel classMap c = Ok (t, c') ->
     (t = NeverKeyword <->
      parents c = [] /\
      exists props,
        properties fuel classMap c = Ok (props, c') /\ emitted skip props = [])).
Proof.
  split.
  - intros Hp. destruct (properties_no_parents fuel classMap c Hp) as [props E].
    exists props, (setProps c (sort (fun a b => CompareKeys (key a) (key b)) (_props c))).
    split; [exact E|]. intros He. unfold baseNode. rewrite E. simpl.
    rewrite Hp, He. reflexivity.
  - intros t c' E. unfold baseNode in E.
    destruct (properties fuel classMap c) as [[props c1]| |] eqn:Ep; simpl in E;
      try discriminate.
    pose proof (properties_receiver _ _ _ Ep) as Hc1.
    assert (Hpar : parents c1 = parents c) by (subst c1; reflexivity).
    rewrite Hpar, mapM_bind_map in E.
    destruct (mapM baseName (parents c)) as [names| |] eqn:Em; simpl in E;
      try discriminate.
    apply mapM_length in Em.
    inversion E; subst t c'. clear E. split.
    + intros Hnever.
      assert (Hn : names = [] /\ map ClassProperty_toNode (emitted skip props) = []).
      { destruct names as [|n1 [|n2 r]];
          destruct (map ClassProperty_toNode (emitted skip props));
          simpl in Hnever; try discriminate; auto. }
      destruct Hn as [-> Hmap]. split.
      * destruct (parents c); [reflexivity|discriminate].
      * exists props. split; [reflexivity|].
        destruct (emitted skip props); [reflexivity|discriminate].
    + intros [Hp [props' [Ep' He]]]. inversion Ep'; subst props'.
      rewrite Hp in Em. destruct names; [|discriminate].
      rewrite He. reflexivity.
Qed.

End Facts.

(** The base shape of [lib/toClass.ts], which has no deprecation filter, is
    the [never] keyword on the same condition. *)
Lemma older_baseNode_never `{JsonLd.Collaborators} (fuel : nat)
  (classMap : JsonLd.ClassMap) (c : JsonLd.Class) (t : TypeNode) :
  JsonLd.baseNode fuel classMap c = Ok t ->
  (t = NeverKeyword <->
   JsonLd.parents c = [] /\ JsonLd.properties fuel classMap c = Ok []).
Proof.
  unfold JsonLd.baseNode.
  destruct (JsonLd.properties fuel classMap c) as [props| |]; simpl; try discriminate.
  intros E. inversion E. clear E. split.
  - intros Hn.
    destruct (JsonLd.parents c) as [|p1 [|p2 r]]; destruct props; simpl in Hn;
      try discriminate; auto.
  - intros [Hp Hprops]. inversion Hprops. now rewrite Hp.
Qed.

Lemma baseNode_never_witness :
  baseNode (H := Samples.triplesCollaborators) true 1 Samples.registry Samples.thing
  = Ok (NeverKeyword, Triples.setProps Samples.thing [])
  /\ (exists t c',
        baseNode (H := Samples.triplesCollaborators) true 1 Samples.registry Samples.person
        = Ok (t, c') /\ t <> NeverKeyword).
Proof.
  split.
  - destruct (proj1 (baseNode_never (H := Samples.triplesCollaborators)
                       true 1 Samples.registry Samples.thing) eq_refl)
      as [props [c' [E He]]].
    inversion E; subst props c'. apply He. reflexivity.
  - eexists. eexists. split; [reflexivity|].
    intros Hn.
    apply (proj2 (baseNode_never (H := Samples.triplesCollaborators)
                    true 1 Samples.registry Samples.person) _ _ eq_refl) in Hn.
    destruct Hn as [Hp _]. discriminate Hp.
Defined.

End BaseFacts.

(** ** [ts/class.ts]: deprecation *)
Module DeprecationFacts.
Import Triples TriplesNotions ShapeFacts.

Section Facts.
Context `{Collaborators}.

Lemma properties_frame (fuel : nat) (classMap : ClassMap) (c : Class) (s : list ClassRef) :
  properties fuel classMap (setSupersededBy c s)
  = superseding s (properties fuel classMap c).
Proof.
  unfold properties, superseding, isLeaf. simpl.
  destruct (children c); simpl; [|reflexivity].
  destruct (aliasesBuiltin fuel classMap (parents c)); reflexivity.
Qed.

Lemma baseNode_frame (skip : bool) (fuel : nat) (classMap : ClassMap) (c : Class)
  (s : list ClassRef) :
  baseNode skip fuel classMap (setSupersededBy c s)
  = superseding s (baseNode skip fuel classMap c).
Proof.
  unfold baseNode. rewrite properties_frame. unfold superseding.
  destruct (properties fuel classMap c) as [[props c1]| |]; simpl; try reflexivity.
  destruct (mapM _ (parents c1)); reflexivity.
Qed.

Lemma baseDecl_frame (skip : bool) (fuel : nat) (classMap : ClassMap) (c : Class)
  (s : list ClassRef) :
  baseDecl skip fuel classMap (setSupersededBy c s)
  = superseding s (baseDecl skip fuel classMap c).
Proof.
  unfold baseDecl. rewrite baseNode_frame. unfold superseding.
  destruct (baseNode skip fuel classMap c) as [[node c1]| |]; simpl; try reflexivity.
  destruct (baseName (self c1)); reflexivity.
Qed.

Lemma nonEnumType_frame (c : Class) (s : list ClassRef) :
  nonEnumType (setSupersededBy c s) = superseding s (nonEnumType c).
Proof.
  unfold nonEnumType, superseding. simpl.
  destruct (mapM _ _) as [[|t1 [|t2 r]]| |]; simpl; try reflexivity;
    destruct (baseName (self c)); reflexivity.
Qed.

Lemma totalType_frame (c : Class) (s : list ClassRef) :
  totalType (setSupersededBy c s) = superseding s (totalType c).
Proof.
  unfold totalType. simpl. destruct (_enums c); [apply nonEnumType_frame|].
  destruct (enumName (self c)); simpl; try reflexivity.
  rewrite nonEnumType_frame. unfold superseding.
  destruct (nonEnumType c) as [[t c1]| |]; reflexivity.
Qed.

Lemma enumDecl_frame (c : Class) (s : list ClassRef) :
  enumDecl (setSupersededBy c s) = superseding s (enumDecl c).
Proof.
  unfold enumDecl, superseding. simpl. destruct (_enums c); [reflexivity|].
  simpl. destruct (enumName (self c)); reflexivity.
Qed.

Lemma nonEnumType_receiver (c c' : Class) (t : TypeNode) :
  nonEnumType c = Ok (t, c') -> sameAnnotation c c'.
Proof.
  unfold nonEnumType. destruct (mapM _ _) as [[|t1 [|t2 r]]| |]; simpl;
    try discriminate; destruct (baseName (self c)); simpl; try discriminate;
    intros E; inversion E; repeat split.
Qed.

Lemma totalType_receiver (c c' : Class) (t : TypeNode) :
  totalType c = Ok (t, c') -> sameAnnotation c c'.
Proof.
  unfold totalType. destruct (_enums c); [apply nonEnumType_receiver|].
  destruct (enumName (self c)); simpl; try discriminate.
  destruct (nonEnumType c) as [[t0 c0]| |] eqn:E0; simpl; try discriminate.
  intros E; inversion E; subst. eapply nonEnumType_receiver; eauto.
Qed.

Lemma comment_ext (c c' : Class) :
  sameAnnotation c c' -> comment c' = comment c.
Proof.
  intros [_ [Hc Hs]]. unfold comment, Class_deprecated. now rewrite Hc, Hs.
Qed.

Lemma comment_plain (c : Class) : comment (setSupersededBy c []) = Ok (_comment c).
Proof. reflexivity. Qed.

Lemma get_without (k : string) (classMap : ClassMap) :
  JsMap.get k (withoutSupersession classMap)
  = option_map (fun c => setSupersededBy c []) (JsMap.get k classMap).
Proof.
  induction classMap as [|[k' c] r IH]; simpl; [reflexivity|].
  destruct (String.eqb k k'); [reflexivity|exact IH].
Qed.

Lemma set_without (k : string) (c : Class) (classMap : ClassMap) :
  withoutSupersession (JsMap.set k c classMap)
  = JsMap.set k (setSupersededBy c []) (withoutSupersession classMap).
Proof.
  induction classMap as [|[k' c'] r IH]; simpl; [reflexivity|].
  destruct (String.eqb k k'); simpl; [reflexivity|now rewrite IH].
Qed.

Lemma set_without_same (k : string) (c : Class) (s : list ClassRef)
  (classMap : ClassMap) :
  JsMap.get k classMap = Some c ->
  withoutSupersession (JsMap.set k (setSupersededBy c s) classMap)
  = withoutSupersession classMap.
Proof.
  induction classMap as [|[k' c'] r IH]; simpl; [discriminate|].
  destruct (String.eqb k k') eqn:E; simpl; intros Hg.
  - apply String.eqb_eq in E. inversion Hg. subst. reflexivity.
  - now rewrite IH.
Qed.

(** A supersession value changes the supersession list of the receiver and
    nothing else in the registry. *)
Lemma add_supersession_frame (this : string)
  (v : ObjectPredicate TPredicate TObject) (classMap classMap' : ClassMap)
  (consumed : bool) :
  supersedes v = true ->
  add this v classMap = Ok (consumed, classMap') ->
  consumed = true
  /\ withoutSupersession classMap' = withoutSupersession classMap.
Proof.
  unfold supersedes, add. intros Hs.
  destruct (JsMap.get this classMap) as [c|] eqn:Hg; [|discriminate].
  destruct (GetComment v); [discriminate|].
  destruct (GetSubClassOf v); [discriminate|]. rewrite Hs.
  destruct (JsMap.get (objectToString (Object v)) classMap) as [target|];
    [|discriminate].
  intros E. inversion E. split; [reflexivity|]. now apply set_without_same.
Qed.

(** Any other value is handled in the same way without the supersession
    facts. *)
Lemma add_other_frame (this : string) (v : ObjectPredicate TPredicate TObject)
  (classMap : ClassMap) :
  supersedes v = false ->
  add this v (withoutSupersession classMap)
  = r <- add this v classMap ;; Ok (fst r, withoutSupersession (snd r)).
Proof.
  unfold supersedes, add. intros Hs. rewrite get_without.
  destruct (JsMap.get this classMap) as [c|] eqn:Hg; simpl; [|reflexivity].
  destruct (GetComment v) as [comment'|]; simpl.
  { rewrite set_without. reflexivity. }
  destruct (GetSubClassOf v) as [parent|]; simpl.
  { rewrite get_without.
    destruct (JsMap.get (toString parent) classMap) as [parentClass|]; simpl;
      [|reflexivity].
    change (setParents (setSupersededBy c []) (parents c ++ [self parentClass]))
      with (setSupersededBy (setParents c (parents c ++ [self parentClass])) []).
    rewrite <- set_without, get_without.
    destruct (JsMap.get (toString parent) (JsMap.set this _ classMap)) as [p|];
      simpl; [|reflexivity].
    rewrite !set_without. reflexivity. }
  rewrite Hs. reflexivity.
Qed.

(** Whatever values the classes are given, leaving the supersession values
    out leaves the registry as it is but for the supersession lists. *)
Lemma addAll_frame (values : list (string * ObjectPredicate TPredicate TObject))
  (classMap classMap' : ClassMap) :
  addAll values classMap = Ok classMap' ->
  addAll (filter (fun entry => negb (supersedes (snd entry))) values)
         (withoutSupersession classMap)
  = Ok (withoutSupersession classMap').
Proof.
  unfold addAll. revert classMap.
  induction values as [|[this v] r IH]; simpl; intros classMap E.
  - inversion E. reflexivity.
  - destruct (add this v classMap) as [[consumed m1]| |] eqn:Ea; simpl in E;
      try discriminate.
    destruct (supersedes v) eqn:Hs; simpl.
    + destruct (@add_supersession_frame this v classMap m1 consumed Hs Ea)
        as [_ Hm].
      rewrite <- Hm. now apply IH.
    + rewrite (@add_other_frame this v classMap Hs), Ea. simpl. now apply IH.
Qed.

(** C8.  A class with supersession targets is deprecated, and its comment
    is its own comment followed by a notice that names the targets, joined
    with [or] (the notice alone when it has no comment).  Nothing else
    depends on the targets: without them the class has the same properties,
    base shape, total type and enumeration, and the declarations [toNode]
    returns for a class that is not a [Builtin] differ in the comment of the
    last one only; and a sequence of calls of [add] without its supersession
    values leaves the registry the same but for the supersession lists. *)
Theorem deprecation_annotates (c : Class) (names : list string) :
  _supersededBy c <> [] ->
  mapM className (_supersededBy c) = Ok names ->
  let notice := ("@deprecated Use " ++ join " or " names ++ " instead.")%string in
  let annotated :=
    Some (match _comment c with
          | Some s => if truthyComment (_comment c) then (s ++ LF ++ notice)%string
                      else notice
          | None => notice
          end) in
  let plain := setSupersededBy c [] in
  Class_deprecated c = true
  /\ comment c = Ok annotated
  /\ comment plain = Ok (_comment c)
  /\ (forall fuel classMap,
        properties fuel classMap plain = superseding [] (properties fuel classMap c))
  /\ (forall skip fuel classMap,
        baseNode skip fuel classMap plain
        = superseding [] (baseNode skip fuel classMap c))
  /\ totalType plain = superseding [] (totalType c)
  /\ enumDecl plain = superseding [] (enumDecl c)
  /\ (forall skip fuel classMap subject' stmts c',
        self c = ClassObject subject' ->
        toNode skip fuel classMap c = Ok (stmts, c') ->
        exists front n t,
          stmts = front ++ [TypeAliasDeclaration annotated true n t]
          /\ toNode skip fuel classMap plain
             = Ok (front ++ [TypeAliasDeclaration (_comment c) true n t],
                   setSupersededBy c' []))
  /\ (forall values classMap classMap',
        addAll values classMap = Ok classMap' ->
        addAll (filter (fun entry => negb (supersedes (snd entry))) values)
               (withoutSupersession classMap)
        = Ok (withoutSupersession classMap')).
Proof.
  intros Hs Hnames notice annotated plain.
  assert (Hd : Class_deprecated c = true).
  { unfold Class_deprecated. destruct (_supersededBy c); congruence. }
  assert (Hc : comment c = Ok annotated).
  { unfold comment. rewrite Hd, Hnames. reflexivity. }
  split; [exact Hd|]. split; [exact Hc|]. split; [reflexivity|].
  split; [intros; apply properties_frame|].
  split; [intros; apply baseNode_frame|].
  split; [apply totalType_frame|].
  split; [apply enumDecl_frame|].
  split; [|intros values classMap classMap'; apply addAll_frame].
  intros skip fuel classMap subject' stmts c' Hself E.
  unfold toNode in E. rewrite Hself in E.
  destruct (totalType c) as [[typeValue c1]| |] eqn:Et; simpl in E; try discriminate.
  pose proof (totalType_receiver _ Et) as Hr.
  rewrite (comment_ext Hr), Hc in E. simpl in E.
  destruct (className (self c1)) as [n| |] eqn:En; simpl in E; try discriminate.
  destruct (enumDecl c1) as [[enum c2]| |] eqn:Ee; simpl in E; try discriminate.
  destruct (baseDecl skip fuel classMap c2) as [[base c3]| |] eqn:Eb; simpl in E;
    try discriminate.
  inversion E; subst stmts c'. clear E.
  exists (arrayOf [enum; Some base]), n, typeValue. split.
  - destruct enum; reflexivity.
  - unfold toNode, plain. simpl self. rewrite Hself.
    rewrite totalType_frame, Et. simpl.
    destruct Hr as [Hr1 [Hr2 Hr3]]. rewrite Hr2, En. simpl.
    rewrite enumDecl_frame, Ee. simpl.
    rewrite baseDecl_frame, Eb. simpl.
    destruct enum; reflexivity.
Qed.

End Facts.

Lemma deprecation_annotates_witness :
  comment Samples.gadget
  = Ok (Some ("A gadget." ++ LF ++ "@deprecated Use Device or Tool instead.")%string)
  /\ comment (Triples.setSupersededBy Samples.gadget []) = Ok (Some "A gadget.").
Proof.
  destruct (deprecation_annotates (H := Samples.triplesCollaborators)
              Samples.gadget (names := ["Device"; "Tool"]))
    as [_ [Hc [Hp _]]].
  - discriminate.
  - reflexivity.
  - split; [exact Hc|exact Hp].
Defined.

End DeprecationFacts.

(** ** [ts/class.ts]: the order of emission *)
Module OrderFacts.
Import Triples TriplesNotions.

Lemma codeUnitCompare_antisym (x y : string) :
  Z.sgn (Samples.codeUnitCompare y x) = (- Z.sgn (Samples.codeUnitCompare x y))%Z.
Proof.
  unfold Samples.codeUnitCompare. rewrite (String.compare_antisym x y).
  destruct (String.compare y x); reflexivity.
Qed.

Lemma codeUnitCompare_trans (x y z : string) :
  (Samples.codeUnitCompare x y <= 0)%Z ->
  (Samples.codeUnitCompare y z <= 0)%Z ->
  (Samples.codeUnitCompare x z <= 0)%Z.
Proof.
  unfold Samples.codeUnitCompare.
  destruct (String.compare x y) eqn:Exy; try lia;
    destruct (String.compare y z) eqn:Eyz; try lia; intros _ _.
  - apply String.compare_eq_iff in Exy, Eyz. subst.
    assert (R : forall s, String.compare s s = Eq).
    { intros s. apply (proj2 (OrderedTypeEx.String_as_OT.cmp_eq s s)). reflexivity. }
    rewrite R. lia.
  - apply String.compare_eq_iff in Exy. subst. rewrite Eyz. lia.
  - apply String.compare_eq_iff in Eyz. subst. rewrite Exy. lia.
  - assert (L : String.compare x z = Lt).
    { apply OrderedTypeEx.String_as_OT.cmp_lt.
      eapply OrderedTypeEx.String_as_OT.lt_trans;
        apply OrderedTypeEx.String_as_OT.cmp_lt; eauto. }
    rewrite L. lia.
Qed.

(** [Sort] compares two [Builtin] objects by name alone: two of them made by
    hand with one name and two identifiers, which no catalogue holds, tie. *)
Lemma Sort_builtin_tie :
  idOf (H := Samples.triplesCollaborators) Samples.textBuiltin
  <> idOf (H := Samples.triplesCollaborators) Samples.pendingTextBuiltin
  /\ Sort (H := Samples.triplesCollaborators)
       Samples.textBuiltin Samples.pendingTextBuiltin = 0%Z
  /\ specifiedOrder (H := Samples.triplesCollaborators)
       Samples.textBuiltin Samples.pendingTextBuiltin <> 0%Z
  /\ ~ (forall (H : Collaborators) (a b : ClassRef), Sort a b = specifiedOrder a b).
Proof.
  split; [discriminate|]. split; [reflexivity|]. split; [discriminate|].
  intros Hall.
  specialize (Hall Samples.triplesCollaborators
                Samples.textBuiltin Samples.pendingTextBuiltin).
  discriminate Hall.
Qed.

Section Facts.
Context `{Collaborators}.

Hypothesis localeCompare_antisym :
  forall x y, Z.sgn (localeCompare y x) = (- Z.sgn (localeCompare x y))%Z.
Hypothesis localeCompare_trans :
  forall x y z,
    (localeCompare x y <= 0)%Z -> (localeCompare y z <= 0)%Z ->
    (localeCompare x z <= 0)%Z.

Lemma localeCompare_flip (x y : string) :
  ((localeCompare x y < 0 <-> 0 < localeCompare y x)
   /\ (localeCompare x y = 0 <-> localeCompare y x = 0)
   /\ (0 < localeCompare x y <-> localeCompare y x < 0))%Z.
Proof.
  pose proof (localeCompare_antisym x y) as A.
  pose proof (Z.sgn_spec (localeCompare x y)) as S1.
  pose proof (Z.sgn_spec (localeCompare y x)) as S2.
  lia.
Qed.

Lemma CompareKeys_le (a b : TSubject) :
  (CompareKeys a b <= 0)%Z <->
  (localeCompare (toHumanString a) (toHumanString b) < 0
   \/ (localeCompare (toHumanString a) (toHumanString b) = 0
       /\ localeCompare (toString a) (toString b) <= 0))%Z.
Proof.
  unfold CompareKeys.
  destruct (localeCompare (toHumanString a) (toHumanString b) =? 0)%Z eqn:E; simpl.
  - apply Z.eqb_eq in E. lia.
  - apply Z.eqb_neq in E. lia.
Qed.

Lemma CompareKeys_antisym (a b : TSubject) :
  Z.sgn (CompareKeys b a) = (- Z.sgn (CompareKeys a b))%Z.
Proof.
  unfold CompareKeys.
  pose proof (localeCompare_flip (toHumanString a) (toHumanString b)) as F.
  destruct (localeCompare (toHumanString a) (toHumanString b) =? 0)%Z eqn:E1;
    destruct (localeCompare (toHumanString b) (toHumanString a) =? 0)%Z eqn:E2;
    simpl; try apply localeCompare_antisym.
  - apply Z.eqb_eq in E1. apply Z.eqb_neq in E2. lia.
  - apply Z.eqb_neq in E1. apply Z.eqb_eq in E2. lia.
Qed.

Lemma CompareKeys_trans (a b c : TSubject) :
  (CompareKeys a b <= 0)%Z -> (CompareKeys b c <= 0)%Z -> (CompareKeys a c <= 0)%Z.
Proof.
  rewrite !CompareKeys_le.
  pose proof (localeCompare_flip (toHumanString a) (toHumanString b)) as Fab.
  pose proof (localeCompare_flip (toHumanString b) (toHumanString c)) as Fbc.
  pose proof (localeCompare_flip (toHumanString a) (toHumanString c)) as Fac.
  pose proof (localeCompare_trans (toHumanString a) (toHumanString b) (toHumanString c)) as T1.
  pose proof (localeCompare_trans (toHumanString c) (toHumanString a) (toHumanString b)) as T2.
  pose proof (localeCompare_trans (toHumanString b) (toHumanString c) (toHumanString a)) as T3.
  pose proof (localeCompare_trans (toString a) (toString b) (toString c)) as T4.
  lia.
Qed.

Lemma localeCompare_refl (x : string) : localeCompare x x = 0%Z.
Proof.
  pose proof (localeCompare_antisym x x) as A.
  pose proof (Z.sgn_spec (localeCompare x x)) as S1. lia.
Qed.

Lemma Sort_antisym (a b : ClassRef) : Z.sgn (Sort b a) = (- Z.sgn (Sort a b))%Z.
Proof.
  unfold Sort.
  destruct (instanceofBuiltin a), (instanceofBuiltin b); try reflexivity.
  - apply localeCompare_antisym.
  - apply CompareKeys_antisym.
Qed.

Lemma Sort_trans (a b c : ClassRef) :
  (Sort a b <= 0)%Z -> (Sort b c <= 0)%Z -> (Sort a c <= 0)%Z.
Proof.
  unfold Sort.
  destruct (instanceofBuiltin a), (instanceofBuiltin b), (instanceofBuiltin c);
    try lia.
  - apply localeCompare_trans.
  - apply CompareKeys_trans.
Qed.

Lemma Sort_specified (classes : list ClassRef) (a b : ClassRef) :
  distinctBuiltins classes -> In a classes -> In b classes ->
  Sort a b = specifiedOrder a b.
Proof.
  intros D Ha Hb. unfold Sort, specifiedOrder, CompareKeys.
  destruct (instanceofBuiltin a) eqn:Ba, (instanceofBuiltin b) eqn:Bb; try reflexivity.
  destruct (localeCompare (toHumanString (subject a)) (toHumanString (subject b)) =? 0)%Z
    eqn:E; simpl; [|reflexivity].
  apply Z.eqb_eq in E. rewrite (D a b Ha Hb Ba Bb E) in E |- *.
  rewrite !localeCompare_refl. reflexivity.
Qed.

(** C6.  On a set of classes whose builtins come from a catalogue that gives
    no two of them names that tie, and with a [localeCompare] that is
    antisymmetric and transitive, [Sort] is the specified order: every
    [Builtin] sorts strictly before every other class, and within each of
    the two groups classes are ordered by [localeCompare] of their
    human-readable names, ties broken by [localeCompare] of their
    identifiers.  [Sort] is total and transitive; where [localeCompare] ties
    on equal strings only, two classes of the set tie only when they have
    the same identifier; and the set sorted with [Sort] is arranged in that
    order. *)
Theorem Sort_order (classes : list ClassRef) :
  distinctBuiltins classes ->
  (forall a b, In a classes -> In b classes -> Sort a b = specifiedOrder a b)
  /\ (forall a b, instanceofBuiltin a = true -> instanceofBuiltin b = false ->
                  (Sort a b < 0 /\ 0 < Sort b a)%Z)
  /\ (forall a b, In a classes -> In b classes ->
                  instanceofBuiltin a = instanceofBuiltin b ->
                  Sort a b
                  = if (localeCompare (toHumanString (subject a))
                                      (toHumanString (subject b)) =? 0)%Z
                    then localeCompare (toString (subject a)) (toString (subject b))
                    else localeCompare (toHumanString (subject a))
                                       (toHumanString (subject b)))
  /\ (forall a b, Z.sgn (Sort b a) = (- Z.sgn (Sort a b))%Z)
  /\ (forall a b c, (Sort a b <= 0)%Z -> (Sort b c <= 0)%Z -> (Sort a c <= 0)%Z)
  /\ ((forall x y, localeCompare x y = 0%Z -> x = y) ->
      forall a b, In a classes -> In b classes -> Sort a b = 0%Z -> idOf a = idOf b)
  /\ StronglySorted (before Sort) (sort Sort classes)
  /\ Permutation (sort Sort classes) classes.
Proof.
  intros D.
  assert (G : forall a b, In a classes -> In b classes ->
                instanceofBuiltin a = instanceofBuiltin b ->
                Sort a b
                = if (localeCompare (toHumanString (subject a))
                                    (toHumanString (subject b)) =? 0)%Z
                  then localeCompare (toString (subject a)) (toString (subject b))
                  else localeCompare (toHumanString (subject a))
                                     (toHumanString (subject b))).
  { intros a b Ha Hb Hg. rewrite (@Sort_specified classes a b D Ha Hb).
    unfold specifiedOrder, CompareKeys. rewrite <- Hg.
    destruct (instanceofBuiltin a); destruct (_ =? 0)%Z; reflexivity. }
  split; [intros a b; now apply (@Sort_specified classes a b D)|].
  split; [intros a b Ha Hb; unfold Sort; rewrite Ha, Hb; lia|].
  split; [exact G|].
  split; [exact Sort_antisym|]. split; [exact Sort_trans|]. split.
  - intros Heq a b Ha Hb E.
    destruct (instanceofBuiltin a) eqn:Ba, (instanceofBuiltin b) eqn:Bb.
    + rewrite (G a b Ha Hb) in E by congruence. unfold idOf.
      destruct (_ =? 0)%Z eqn:En; [now apply Heq|].
      apply Z.eqb_neq in En. contradiction.
    + unfold Sort in E. rewrite Ba, Bb in E. discriminate E.
    + unfold Sort in E. rewrite Ba, Bb in E. discriminate E.
    + rewrite (G a b Ha Hb) in E by congruence. unfold idOf.
      destruct (_ =? 0)%Z eqn:En; [now apply Heq|].
      apply Z.eqb_neq in En. contradiction.
  - split; [|apply SortFacts.sort_perm].
    apply SortFacts.sort_sorted; unfold before.
    + intros a b. pose proof (Sort_antisym a b) as A.
      pose proof (Z.sgn_spec (Sort a b)) as S1.
      pose proof (Z.sgn_spec (Sort b a)) as S2. lia.
    + exact Sort_trans.
Qed.

End Facts.

Lemma sample_distinctBuiltins :
  distinctBuiltins (H := Samples.triplesCollaborators)
    [Samples.classOf "Person"; Samples.textBuiltin; Samples.classOf "Action"].
Proof.
  intros a b Ha Hb Ba Bb _. simpl in Ha, Hb.
  destruct Ha as [<-|[<-|[<-|[]]]]; try discriminate Ba;
    destruct Hb as [<-|[<-|[<-|[]]]]; try discriminate Bb; reflexivity.
Qed.

Lemma Sort_order_witness :
  Sort (H := Samples.triplesCollaborators) (Samples.classOf "Person")
    (Samples.classOf "Action")
  = specifiedOrder (H := Samples.triplesCollaborators) (Samples.classOf "Person")
      (Samples.classOf "Action")
  /\ (Sort (H := Samples.triplesCollaborators) Samples.textBuiltin
        (Samples.classOf "Action") < 0)%Z
  /\ StronglySorted (before (Sort (H := Samples.triplesCollaborators)))
       [Samples.textBuiltin; Samples.classOf "Action"; Samples.classOf "Person"].
Proof.
  pose proof (@Sort_order Samples.triplesCollaborators
                codeUnitCompare_antisym codeUnitCompare_trans
                [Samples.classOf "Person"; Samples.textBuiltin; Samples.classOf "Action"]
                sample_distinctBuiltins)
    as [H1 [H2 [_ [_ [_ [_ [H7 _]]]]]]].
  split; [|split].
  - apply H1; simpl; auto.
  - apply (H2 Samples.textBuiltin (Samples.classOf "Action")); reflexivity.
  - exact H7.
Defined.

End OrderFacts.

(** ** [generator/run.ts]: merging *)
Module MergeFacts.
Import JsonLd JsonLdNotions.

Lemma ToArray_falsy (T : Type) `{Truthy T} (i : option (JsonLdItem T)) :
  truthy i = false -> ToArray i = [].
Proof.
  destruct i as [[x|xs]|]; intros E; [|discriminate|reflexivity].
  change (truthy x = false) in E. simpl. now rewrite E.
Qed.

Lemma combineRef_ids (a b : option (JsonLdItem JsonLdObjectReference)) :
  map ref_id (combineRef a b)
  = SetValues [] (map ref_id (ToArray a) ++ map ref_id (ToArray b)).
Proof.
  unfold combineRef. rewrite map_map. simpl. rewrite map_id, map_app. reflexivity.
Qed.

Lemma merged_refs (a b : option (JsonLdItem JsonLdObjectReference)) (x : string) :
  In x (map ref_id
          (ToArray (if truthy b then Some (Multiple (combineRef a b)) else a)))
  <-> In x (map ref_id (ToArray a)) \/ In x (map ref_id (ToArray b)).
Proof.
  destruct (truthy b) eqn:E.
  - simpl. rewrite combineRef_ids, SortFacts.SetValues_In, in_app_iff. simpl. tauto.
  - rewrite (ToArray_falsy _ E). simpl. tauto.
Qed.

Lemma merged_refs_NoDup (a b : option (JsonLdItem JsonLdObjectReference)) :
  b <> None ->
  NoDup (map ref_id
           (ToArray (if truthy b then Some (Multiple (combineRef a b)) else a))).
Proof.
  intros Hb. destruct b as [[r|rs]|]; [| |congruence]; simpl;
    rewrite combineRef_ids; apply SortFacts.SetValues_NoDup.
Qed.

Lemma merged_tags (a b : option (JsonLdItem string)) (x : string) :
  In x (ToArray (if truthy b then Some (Multiple (combineString a b)) else a))
  <-> In x (ToArray a) \/ In x (ToArray b).
Proof.
  destruct (truthy b) eqn:E.
  - simpl. unfold combineString.
    rewrite SortFacts.SetValues_In, in_app_iff. simpl. tauto.
  - rewrite (ToArray_falsy _ E). simpl. tauto.
Qed.

Lemma merge_sets (m1 m2 : JsonLdGraphItem) (x : string) :
  (In x (typeTags (merge m1 m2)) <-> In x (typeTags m1) \/ In x (typeTags m2))
  /\ (In x (domainIds (merge m1 m2)) <-> In x (domainIds m1) \/ In x (domainIds m2))
  /\ (In x (rangeIds (merge m1 m2)) <-> In x (rangeIds m1) \/ In x (rangeIds m2)).
Proof.
  unfold typeTags, domainIds, rangeIds, merge. simpl.
  split; [apply merged_tags|]. split; apply merged_refs.
Qed.

Lemma groupItem_kept (m : JsonLdGraphItem) (map : JsMap.t JsonLdGraphItem) :
  kept m ->
  groupItem m map
  = match JsMap.get (LD_ID m) map with
    | Some alreadyExists => JsMap.set (LD_ID m) (merge alreadyExists m) map
    | None => JsMap.set (LD_ID m) m map
    end.
Proof.
  intros [A [B [C D]]]. unfold groupItem. now rewrite A, B, C, D.
Qed.

Lemma group_two (m1 m2 : JsonLdGraphItem) :
  kept m1 -> kept m2 -> LD_ID m1 = LD_ID m2 ->
  group [Item m1; Item m2] [] = [(LD_ID m1, merge m1 m2)].
Proof.
  intros K1 K2 Hid.
  change (group [Item m1; Item m2] []) with (groupItem m2 (groupItem m1 [])).
  rewrite (groupItem_kept _ K1). cbn [JsMap.get JsMap.set].
  rewrite (groupItem_kept _ K2). cbn [JsMap.get JsMap.set].
  rewrite <- Hid, String.eqb_refl. reflexivity.
Qed.

(** C7.  Two declarations of one subject, processed in either order, leave
    one entry in the map; its type tags, its domain and its range are, as
    sets, the unions of those of the two declarations, so the order does not
    matter; and the domain (the range) holds no identifier twice when both
    declarations supply one. *)
Theorem merge_is_union (m1 m2 : JsonLdGraphItem) :
  kept m1 -> kept m2 -> LD_ID m1 = LD_ID m2 ->
  exists merged12 merged21,
    group [Item m1; Item m2] [] = [(LD_ID m1, merged12)]
    /\ group [Item m2; Item m1] [] = [(LD_ID m1, merged21)]
    /\ (forall x,
          (In x (domainIds merged12) <-> In x (domainIds m1) \/ In x (domainIds m2))
          /\ (In x (domainIds merged21) <-> In x (domainIds merged12))
          /\ (In x (rangeIds merged12) <-> In x (rangeIds m1) \/ In x (rangeIds m2))
          /\ (In x (rangeIds merged21) <-> In x (rangeIds merged12))
          /\ (In x (typeTags merged12) <-> In x (typeTags m1) \/ In x (typeTags m2))
          /\ (In x (typeTags merged21) <-> In x (typeTags merged12)))
    /\ (LD_DOMAIN_INCLUDES m1 <> None -> LD_DOMAIN_INCLUDES m2 <> None ->
        NoDup (domainIds merged12) /\ NoDup (domainIds merged21))
    /\ (LD_RANGE_INCLUDES m1 <> None -> LD_RANGE_INCLUDES m2 <> None ->
        NoDup (rangeIds merged12) /\ NoDup (rangeIds merged21)).
Proof.
  intros K1 K2 Hid. exists (merge m1 m2), (merge m2 m1).
  split; [now apply group_two|].
  split; [rewrite Hid; apply group_two; auto|].
  split.
  - intros x.
    destruct (merge_sets m1 m2 x) as [T12 [D12 R12]].
    destruct (merge_sets m2 m1 x) as [T21 [D21 R21]].
    tauto.
  - unfold domainIds, rangeIds, merge. simpl.
    split; intros H1 H2; split; now apply merged_refs_NoDup.
Qed.

Lemma merge_is_union_witness :
  exists merged12 merged21,
    group [Item Samples.nameOfThing; Item Samples.nameOfPlace] []
    = [("http://schema.org/name", merged12)]
    /\ group [Item Samples.nameOfPlace; Item Samples.nameOfThing] []
       = [("http://schema.org/name", merged21)]
    /\ domainIds merged12 = ["http://schema.org/Thing"; "http://schema.org/Place"]
    /\ domainIds merged21 = ["http://schema.org/Place"; "http://schema.org/Thing"]
    /\ (forall x, In x (domainIds merged21) <-> In x (domainIds merged12)).
Proof.
  destruct (@merge_is_union Samples.nameOfThing Samples.nameOfPlace)
    as [merged12 [merged21 [E12 [E21 [Hsets _]]]]].
  - repeat split; reflexivity.
  - repeat split; reflexivity.
  - reflexivity.
  - exists merged12, merged21.
    split; [exact E12|]. split; [exact E21|].
    assert (M12 : merged12 = merge Samples.nameOfThing Samples.nameOfPlace).
    { vm_compute in E12. inversion E12. reflexivity. }
    assert (M21 : merged21 = merge Samples.nameOfPlace Samples.nameOfThing).
    { vm_compute in E21. inversion E21. reflexivity. }
    split; [rewrite M12; reflexivity|].
    split; [rewrite M21; reflexivity|].
    intros x. apply (Hsets x).
Defined.

End MergeFacts.

(** ** [lib/toClass.ts]: leaves *)
Module LeafFacts.
Import JsonLd JsonLdNotions.

Lemma get_In (V : Type) (k : string) (v : V) (m : JsMap.t V) :
  JsMap.get k m = Some v -> In (k, v) m.
Proof.
  induction m as [|[k' v'] r IH]; simpl; [discriminate|].
  destruct (String.eqb_spec k k') as [->|Hne]; intros E.
  - left. congruence.
  - right. auto.
Qed.

Lemma ancestorOf_tail (classMap : ClassMap) (p : ClassRef) (ps : list ClassRef)
  (a : ClassRef) :
  ancestorOf classMap ps a -> ancestorOf classMap (p :: ps) a.
Proof.
  intros Ha. inversion Ha; subst.
  - apply ancestor_parent. now right.
  - eapply ancestor_further; eauto. now right.
Qed.

Section Facts.
Context `{Collaborators}.

Lemma aliasesBuiltin_nil (fuel : nat) (classMap : ClassMap) :
  aliasesBuiltin fuel classMap [] = Ok false.
Proof. destruct fuel; reflexivity. Qed.

Lemma aliasesBuiltin_cons (fuel : nat) (classMap : ClassMap) (p : ClassRef)
  (rest : list ClassRef) :
  aliasesBuiltin fuel classMap (p :: rest)
  = if isBuiltin p then Ok true
    else match fuel with
         | O => StackOverflow
         | S fuel' =>
             match JsMap.get (idOf p) classMap with
             | None => Throw "no object behind the reference"
             | Some pc =>
                 b <- aliasesBuiltin fuel' classMap (parents pc) ;;
                 if b then Ok true else aliasesBuiltin fuel classMap rest
             end
         end.
Proof. destruct fuel; reflexivity. Qed.

(** With enough fuel [aliasesBuiltin] returns, and it returns [true] exactly
    when some ancestor is a [Builtin]. *)
Lemma aliasesBuiltin_decides (classMap : ClassMap) (rank : string -> nat) :
  resolved classMap -> ranked classMap rank ->
  forall fuel ps,
    (forall p, In p ps ->
               isBuiltin p = true
               \/ (rank (idOf p) < fuel /\ JsMap.get (idOf p) classMap <> None)) ->
    exists b,
      aliasesBuiltin fuel classMap ps = Ok b
      /\ (b = true <-> exists a, ancestorOf classMap ps a /\ isBuiltin a = true).
Proof.
  intros Hres Hrank.
  unfold resolved in Hres. unfold ranked in Hrank.
  rewrite Forall_forall in Hres, Hrank.
  induction fuel as [|fuel IHfuel]; induction ps as [|p rest IHps]; intros Hps.
  - exists false. rewrite aliasesBuiltin_nil. split; [reflexivity|].
    split; [discriminate|]. intros [a [Ha _]]. inversion Ha; subst; contradiction.
  - rewrite aliasesBuiltin_cons.
    destruct (Hps p (or_introl eq_refl)) as [Hb|[Hlt _]]; [|lia].
    rewrite Hb. exists true. split; [reflexivity|]. split; [|reflexivity].
    intros _. exists p. split; [apply ancestor_parent; now left|exact Hb].
  - exists false. rewrite aliasesBuiltin_nil. split; [reflexivity|].
    split; [discriminate|]. intros [a [Ha _]]. inversion Ha; subst; contradiction.
  - rewrite aliasesBuiltin_cons.
    destruct (isBuiltin p) eqn:Hb.
    { exists true. split; [reflexivity|]. split; [|reflexivity].
      intros _. exists p. split; [apply ancestor_parent; now left|exact Hb]. }
    destruct (Hps p (or_introl eq_refl)) as [Hb'|[Hlt Hget]]; [congruence|].
    destruct (JsMap.get (idOf p) classMap) as [pc|] eqn:Epc; [|congruence].
    pose proof (get_In _ _ Epc) as Hin.
    destruct (IHfuel (parents pc)) as [b1 [E1 S1]].
    { intros q Hq.
      pose proof (Hres _ Hin) as R. pose proof (Hrank _ Hin) as K.
      simpl in R, K. rewrite Forall_forall in R, K.
      destruct (K q Hq) as [Kb|Kr]; [now left|].
      destruct (R q Hq) as [Rb|Rg]; [now left|].
      right. split; [lia|exact Rg]. }
    rewrite E1. simpl. destruct b1.
    { exists true. split; [reflexivity|]. split; [|reflexivity].
      intros _. destruct (proj1 S1 eq_refl) as [a [Ha Hab]].
      exists a. split; [|exact Hab].
      eapply ancestor_further; eauto. now left. }
    destruct IHps as [b2 [E2 S2]].
    { intros q Hq. apply Hps. now right. }
    exists b2. split; [exact E2|]. rewrite S2. split.
    + intros [a [Ha Hab]]. exists a. split; [now apply ancestorOf_tail|exact Hab].
    + intros [a [Ha Hab]]. inversion Ha as [? ? Hin'|? q qc ? Hq Hgq Hanc]; subst.
      * destruct Hin' as [<-|Hin']; [congruence|].
        exists a. split; [now apply ancestor_parent|exact Hab].
      * destruct Hq as [<-|Hq].
        -- rewrite Epc in Hgq. inversion Hgq; subst qc.
           assert (Hf : false = true) by (apply S1; eauto). discriminate.
        -- exists a. split; [|exact Hab]. eapply ancestor_further; eauto.
Qed.

Lemma baseNode_members (fuel : nat) (classMap : ClassMap) (c : Class)
  (props : list Property) :
  properties fuel classMap c = Ok props ->
  exists t, baseNode fuel classMap c = Ok t
            /\ ownMembers t = map Property_toNode props.
Proof.
  intros E. unfold baseNode. rewrite E. simpl. eexists. split; [reflexivity|].
  destruct (parents c) as [|p1 [|p2 r]]; destruct (map Property_toNode props);
    reflexivity.
Qed.

Lemma own_not_discriminant (p : Property) (propertyType : PropertyType) :
  type p = inl propertyType -> isDiscriminant (Property_toNode p) = false.
Proof.
  intros E. unfold isDiscriminant, Property_toNode, typeNode, scalarTypeNode.
  rewrite E. simpl.
  destruct (String.prefix "@" (key p));
    [|apply andb_false_r].
  destruct (map _ (types propertyType)) as [|n1 [|n2 r]] eqn:Em;
    try apply andb_false_r.
  destruct (types propertyType) as [|t1 ts]; [discriminate|].
  simpl in Em. inversion Em. apply andb_false_r.
Qed.

Lemma own_no_discriminants (props : list Property) :
  (forall p, In p props -> exists propertyType, type p = inl propertyType) ->
  filter isDiscriminant (map Property_toNode props) = [].
Proof.
  induction props as [|p r IH]; intros Hall; [reflexivity|]. simpl.
  destruct (Hall p (or_introl eq_refl)) as [pt Ept].
  rewrite (own_not_discriminant _ Ept). apply IH. intros q Hq. apply Hall. now right.
Qed.

(** C2.  In a registry without cycles, a class with no child and no
    [Builtin] among its ancestors has a base shape whose literal holds the
    discriminant [@type], mandatory and of the literal type of the class's
    own name, before its own properties, and no other discriminant; a class
    with a child or with a [Builtin] ancestor has a base shape whose literal
    holds its own properties alone. *)
Theorem leaf_discriminant (classMap : ClassMap) (rank : string -> nat)
  (k : string) (c : Class) (fuel : nat) :
  resolved classMap -> ranked classMap rank ->
  JsMap.get k classMap = Some c -> rank k <= fuel ->
  let discriminant :=
    createPropertySignature None "@type" false (LiteralTypeNode (className (self c))) in
  let own := map Property_toNode (_props c) in
  let fromPropertyTypes :=
    forall p, In p (_props c) -> exists propertyType, type p = inl propertyType in
  (children c = [] -> ~ hasBuiltinAncestor classMap c ->
   exists t,
     baseNode fuel classMap c = Ok t
     /\ ownMembers t = discriminant :: own
     /\ (fromPropertyTypes -> filter isDiscriminant (ownMembers t) = [discriminant]))
  /\ (children c <> [] \/ hasBuiltinAncestor classMap c ->
      exists t,
        baseNode fuel classMap c = Ok t
        /\ ownMembers t = own
        /\ (fromPropertyTypes -> filter isDiscriminant (ownMembers t) = [])).
Proof.
  intros Hres Hrank Hget Hfuel discriminant own fromPropertyTypes.
  destruct (aliasesBuiltin_decides Hres Hrank (fuel := fuel) (parents c))
    as [b [Eb Sb]].
  { intros p Hp. pose proof (get_In _ _ Hget) as Hin.
    unfold resolved in Hres. unfold ranked in Hrank.
    rewrite Forall_forall in Hres, Hrank.
    pose proof (Hres _ Hin) as R. pose proof (Hrank _ Hin) as K.
    simpl in R, K. rewrite Forall_forall in R, K.
    destruct (K p Hp) as [Kb|Kr]; [now left|].
    destruct (R p Hp) as [Rb|Rg]; [now left|].
    right. split; [lia|exact Rg]. }
  fold (hasBuiltinAncestor classMap c) in Sb.
  split.
  - intros Hch Hno.
    assert (b = false) as -> by (destruct b; [exfalso; apply Hno; now apply Sb|reflexivity]).
    assert (Ep : properties fuel classMap c
                 = Ok ({| key := "@type";
                          type := inr {| value := toScopedName (item (self c)) |} |}
                         :: _props c)).
    { unfold properties, isLeaf. rewrite Hch, Eb. reflexivity. }
    destruct (baseNode_members _ _ _ Ep) as [t [Et Em]].
    exists t. split; [exact Et|]. split; [exact Em|].
    intros Hfrom. rewrite Em. simpl.
    change (isDiscriminant (Property_toNode
                              {| key := "@type";
                                 type := inr {| value := toScopedName (item (self c)) |} |}))
      with true. cbv iota.
    f_equal. now apply own_no_discriminants.
  - intros Hor.
    assert (Ep : properties fuel classMap c = Ok (_props c)).
    { unfold properties, isLeaf. destruct (children c) eqn:Hch; [|reflexivity].
      rewrite Eb. simpl.
      destruct Hor as [Hne|Hanc]; [congruence|].
      rewrite (proj2 Sb Hanc). reflexivity. }
    destruct (baseNode_members _ _ _ Ep) as [t [Et Em]].
    exists t. split; [exact Et|]. split; [exact Em|].
    intros Hfrom. rewrite Em. now apply own_no_discriminants.
Qed.

End Facts.

Lemma sample_resolved : resolved Samples.jsonLdRegistry.
Proof.
  unfold resolved, Samples.jsonLdRegistry.
  constructor; [simpl; constructor|].
  constructor; [simpl; constructor; [right; vm_compute; discriminate|constructor]|].
  constructor; [simpl; constructor; [left; reflexivity|constructor]|constructor].
Qed.

Lemma sample_ranked : ranked Samples.jsonLdRegistry Samples.depth.
Proof.
  unfold ranked, Samples.jsonLdRegistry.
  constructor; [simpl; constructor|].
  constructor; [simpl; constructor; [right; vm_compute; lia|constructor]|].
  constructor; [simpl; constructor; [left; reflexivity|constructor]|constructor].
Qed.

Lemma leaf_discriminant_witness :
  baseNode (H := Samples.jsonLdCollaborators) 1 Samples.jsonLdRegistry Samples.personClass
  = Ok (IntersectionTypeNode
          [TypeReferenceNode "ThingBase";
           TypeLiteralNode
             [createPropertySignature None "@type" false (LiteralTypeNode "Person")]])
  /\ baseNode (H := Samples.jsonLdCollaborators) 1 Samples.jsonLdRegistry
       Samples.thingClass
     = Ok (TypeLiteralNode
             [Property_toNode (H := Samples.jsonLdCollaborators) Samples.nameProperty])
  /\ baseNode (H := Samples.jsonLdCollaborators) 1 Samples.jsonLdRegistry
       Samples.labelClass
     = Ok (TypeReferenceNode "Text").
Proof.
  pose proof (@leaf_discriminant Samples.jsonLdCollaborators Samples.jsonLdRegistry
                Samples.depth "http://schema.org/Person" Samples.personClass 1
                sample_resolved sample_ranked eq_refl (le_n 1)) as [Hleaf _].
  pose proof (@leaf_discriminant Samples.jsonLdCollaborators Samples.jsonLdRegistry
                Samples.depth "http://schema.org/Thing" Samples.thingClass 1
                sample_resolved sample_ranked eq_refl (le_S 0 0 (le_n 0))) as [_ Hparent].
  pose proof (@leaf_discriminant Samples.jsonLdCollaborators Samples.jsonLdRegistry
                Samples.depth "http://schema.org/Label" Samples.labelClass 1
                sample_resolved sample_ranked eq_refl (le_n 1)) as [_ Halias].
  split; [|split].
  - destruct Hleaf as [t [Et _]].
    + reflexivity.
    + intros [a [Ha Hb]].
      inversion Ha as [? ? Hin|? p pc ? Hin Hg Hanc]; subst.
      * destruct Hin as [<-|[]]. discriminate Hb.
      * destruct Hin as [<-|[]]. vm_compute in Hg. inversion Hg; subst pc.
        inversion Hanc as [? ? Hin'|? ? ? ? Hin' _ _]; subst; destruct Hin'.
    + rewrite Et. vm_compute in Et. inversion Et. reflexivity.
  - destruct Hparent as [t [Et _]].
    + left. discriminate.
    + rewrite Et. vm_compute in Et. inversion Et. reflexivity.
  - destruct Halias as [t [Et _]].
    + right. exists Samples.textRef. split; [|reflexivity].
      apply ancestor_parent. now left.
    + rewrite Et. vm_compute in Et. inversion Et. reflexivity.
Defined.

End LeafFacts.

(** ** Edges of the class graph *)
Module EdgeFacts.

(** *** [ts/class.ts]: [add] *)
Section Add.
Context `{Triples.Collaborators}.

(** A parent or a supersession target that the registry does not hold
    makes [add] throw. *)
Lemma add_unresolved (this : string) (c : Triples.Class)
  (v : Triples.ObjectPredicate Triples.TPredicate Triples.TObject)
  (classMap : Triples.ClassMap) :
  JsMap.get this classMap = Some c ->
  Triples.GetComment v = None ->
  (forall parent,
     Triples.GetSubClassOf v = Some parent ->
     JsMap.get (Triples.toString parent) classMap = None ->
     exists message, Triples.add this v classMap = Throw message)
  /\ (Triples.GetSubClassOf v = None ->
      Triples.IsSupersededBy (Triples.Predicate v) = true ->
      JsMap.get (Triples.objectToString (Triples.Object v)) classMap = None ->
      exists message, Triples.add this v classMap = Throw message).
Proof.
  intros Hget Hc. split.
  - intros parent Hs Hp. unfold Triples.add. rewrite Hget, Hc, Hs, Hp. eauto.
  - intros Hs Hp Ht. unfold Triples.add. rewrite Hget, Hc, Hs, Hp, Ht. eauto.
Qed.

(** A parent that the registry holds is recorded on both ends, a
    supersession target on the receiver, and the value is consumed. *)
Lemma add_resolved (this : string) (c : Triples.Class)
  (v : Triples.ObjectPredicate Triples.TPredicate Triples.TObject)
  (classMap : Triples.ClassMap) :
  JsMap.get this classMap = Some c ->
  Triples.GetComment v = None ->
  (forall parent parentClass,
     Triples.GetSubClassOf v = Some parent ->
     JsMap.get (Triples.toString parent) classMap = Some parentClass ->
     this <> Triples.toString parent ->
     exists classMap',
       Triples.add this v classMap = Ok (true, classMap')
       /\ JsMap.get this classMap'
          = Some (Triples.setParents c (Triples.parents c ++ [Triples.self parentClass]))
       /\ JsMap.get (Triples.toString parent) classMap'
          = Some (Triples.setChildren parentClass
                    (Triples.children parentClass ++ [Triples.self c])))
  /\ (forall target,
        Triples.GetSubClassOf v = None ->
        Triples.IsSupersededBy (Triples.Predicate v) = true ->
        JsMap.get (Triples.objectToString (Triples.Object v)) classMap = Some target ->
        Triples.add this v classMap
        = Ok (true,
              JsMap.set this
                (Triples.setSupersededBy c
                   (Triples._supersededBy c ++ [Triples.self target]))
                classMap)).
Proof.
  intros Hget Hc. split.
  - intros parent parentClass Hs Hp Hne. unfold Triples.add.
    rewrite Hget, Hc, Hs, Hp.
    rewrite (JsMapFacts.get_set_ne _ _ Hne), Hp.
    eexists. split; [reflexivity|]. split.
    + rewrite JsMapFacts.get_set_ne by congruence. apply JsMapFacts.get_set_eq.
    + apply JsMapFacts.get_set_eq.
  - intros target Hs Hp Ht. unfold Triples.add. now rewrite Hget, Hc, Hs, Hp, Ht.
Qed.

End Add.

(** *** [lib/toClass.ts]: [init] *)
Section Init.
Context `{JsonLd.Collaborators}.

(** [init] records the first parent and returns: the parents after the
    first are neither resolved nor recorded. *)
Lemma init_first_parent_only (this parentId : string) (rest : list string)
  (c parentClass : JsonLd.Class) (classMap : JsonLd.ClassMap) :
  JsMap.get this classMap = Some c ->
  JsonLd.GetSubClassOf (JsonLd.item (JsonLd.self c)) = parentId :: rest ->
  JsMap.get parentId classMap = Some parentClass ->
  exists classMap' c',
    JsonLd.init this classMap = Ok (true, classMap')
    /\ JsMap.get this classMap' = Some c'
    /\ JsonLd.parents c' = JsonLd.parents c ++ [JsonLd.self parentClass].
Proof.
  intros Hget Hsub Hp. unfold JsonLd.init. rewrite Hget, Hsub.
  set (c1 := match JsonLd.GetComments _ _ with [] => c | _ => _ end).
  assert (Hc1 : JsonLd.self c1 = JsonLd.self c /\ JsonLd.parents c1 = JsonLd.parents c).
  { unfold c1. destruct (JsonLd.GetComments _ _); split; reflexivity. }
  destruct Hc1 as [Hself Hpar].
  destruct (String.eqb_spec this parentId) as [->|Hne].
  - rewrite JsMapFacts.get_set_eq. rewrite JsMapFacts.get_set_eq.
    eexists. eexists. split; [reflexivity|]. split; [apply JsMapFacts.get_set_eq|].
    simpl. rewrite Hpar, Hself. rewrite Hget in Hp. now inversion Hp.
  - rewrite (JsMapFacts.get_set_ne _ _ Hne), Hp.
    rewrite (JsMapFacts.get_set_ne _ _ Hne), (JsMapFacts.get_set_ne _ _ Hne), Hp.
    eexists. eexists. split; [reflexivity|]. split.
    + rewrite JsMapFacts.get_set_ne by congruence. apply JsMapFacts.get_set_eq.
    + simpl. now rewrite Hpar.
Qed.

End Init.

(** C3, on [lib/toClass.ts].  [C] is declared a subclass of [A] and of
    [Missing], which no declaration introduces: the run succeeds, writes its
    declarations, and [C] has the parent [A] alone.  Declared a subclass of
    [A] and [B], [C] has the parent [A] alone and [B] has no child. *)
Theorem init_skips_later_parents :
  (exists classes c,
     JsonLd.resolve (H := Samples.jsonLdCollaborators)
       (map JsonLd.Item [Samples.itemA;
                         Samples.itemC ["http://schema.org/A"; "http://schema.org/Missing"];
                         Samples.itemP]) = Ok classes
     /\ JsMap.get "http://schema.org/Missing" classes = None
     /\ JsMap.get "http://schema.org/C" classes = Some c
     /\ map JsonLd.idOf (JsonLd.parents c) = ["http://schema.org/A"])
  /\ snd (JsonLd.main (H := Samples.jsonLdCollaborators) 3
            (map JsonLd.Item [Samples.itemA;
                              Samples.itemC ["http://schema.org/A"; "http://schema.org/Missing"];
                              Samples.itemP])) = Ok tt
  /\ (exists classes b c,
        JsonLd.resolve (H := Samples.jsonLdCollaborators)
          (map JsonLd.Item [Samples.itemA; Samples.itemB;
                            Samples.itemC ["http://schema.org/A"; "http://schema.org/B"];
                            Samples.itemP]) = Ok classes
        /\ JsMap.get "http://schema.org/B" classes = Some b
        /\ JsMap.get "http://schema.org/C" classes = Some c
        /\ map JsonLd.idOf (JsonLd.parents c) = ["http://schema.org/A"]
        /\ JsonLd.children b = []).
Proof.
  split; [|split].
  - eexists. eexists. split; [vm_compute; reflexivity|].
    split; [reflexivity|]. split; reflexivity.
  - vm_compute. reflexivity.
  - eexists. eexists. eexists. split; [vm_compute; reflexivity|].
    split; [reflexivity|]. split; [reflexivity|]. split; reflexivity.
Qed.

End EdgeFacts.

(** ** [lib/toClass.ts]: enumeration members *)
Module EnumFacts.
Import JsonLd JsonLdNotions.

Lemma HasEnumType_specifiedOwner (types' : list string) :
  HasEnumType types' = true <-> specifiedOwner types' <> None.
Proof.
  unfold specifiedOwner. induction types' as [|t r IH]; simpl.
  - split; [discriminate|congruence].
  - destruct (IsClassType t || IsPropertyType t || IsDataType t); simpl; [exact IH|].
    split; [discriminate|reflexivity].
Qed.

Lemma firstCandidate_specifiedOwner (types' : list string) :
  existsb IsPropertyType types' = false ->
  firstCandidate types' = specifiedOwner types'.
Proof.
  unfold firstCandidate, specifiedOwner.
  induction types' as [|t r IH]; simpl; [reflexivity|].
  intros E. apply orb_false_iff in E. destruct E as [Ep Er].
  rewrite Ep, orb_false_r. destruct (IsClassType t || IsDataType t); simpl; auto.
Qed.

Section Facts.
Context `{Collaborators}.

Lemma EnumValue_attach_candidate (this : JsonLdGraphItem) (types' : list string)
  (map' : ClassMap) :
  EnumValue_attach this types' map'
  = match firstCandidate types' with
    | None => Ok map'
    | Some owner =>
        match JsMap.get owner map' with
        | None => Throw ("Couldn't find " ++ owner ++ " in classes.")
        | Some enumObject =>
            Ok (JsMap.set owner
                  (addEnum {| ev_item := this; ev_comment := None |} enumObject) map')
        end
    end.
Proof.
  unfold firstCandidate. induction types' as [|t r IH]; simpl; [reflexivity|].
  destruct (IsClassType t || IsDataType t); simpl; [exact IH|reflexivity].
Qed.

(** Where no tag is the property type, the first tag that is not well known
    is the only owner: one member is attached to its class when it resolves,
    and the call throws when it does not. *)
Lemma EnumValue_attach_owner (this : JsonLdGraphItem) (types' : list string)
  (map' : ClassMap) (owner : string) :
  existsb IsPropertyType types' = false ->
  specifiedOwner types' = Some owner ->
  (forall enumObject,
     JsMap.get owner map' = Some enumObject ->
     EnumValue_attach this types' map'
     = Ok (JsMap.set owner
             (addEnum {| ev_item := this; ev_comment := None |} enumObject) map'))
  /\ (JsMap.get owner map' = None ->
      EnumValue_attach this types' map'
      = Throw ("Couldn't find " ++ owner ++ " in classes.")).
Proof.
  intros Hp Ho. rewrite EnumValue_attach_candidate.
  rewrite (firstCandidate_specifiedOwner _ Hp), Ho.
  split; [intros enumObject E|intros E]; now rewrite E.
Qed.

End Facts.

(** C4, on [lib/toClass.ts].  [X] carries the tags [rdf:Property] and [A],
    in that order; [HasEnumType] makes it an enumeration member, the first
    tag that is not well known is [A], and [A] is in the registry.  The run
    throws on the tag [rdf:Property] and writes nothing.  With the tags in
    the other order [X] becomes a member of [A]. *)
Theorem enum_owner_after_property_tag :
  HasEnumType ["rdf:Property"; "http://schema.org/A"] = true
  /\ specifiedOwner ["rdf:Property"; "http://schema.org/A"] = Some "http://schema.org/A"
  /\ (exists classes a,
        ProcessClasses (H := Samples.jsonLdCollaborators)
          [Samples.itemA; Samples.itemX ["rdf:Property"; "http://schema.org/A"]]
        = Ok classes
        /\ JsMap.get "http://schema.org/A" classes = Some a)
  /\ main (H := Samples.jsonLdCollaborators) 3
       [Item Samples.itemA; Item (Samples.itemX ["rdf:Property"; "http://schema.org/A"])]
     = ([], Throw "Couldn't find rdf:Property in classes.")
  /\ (exists classes a,
        resolve (H := Samples.jsonLdCollaborators)
          [Item Samples.itemA; Item (Samples.itemX ["http://schema.org/A"; "rdf:Property"])]
        = Ok classes
        /\ JsMap.get "http://schema.org/A" classes = Some a
        /\ map ev_item (_enums a)
           = [Samples.itemX ["http://schema.org/A"; "rdf:Property"]]).
Proof.
  split; [reflexivity|]. split; [reflexivity|]. split; [|split].
  - eexists. eexists. split; [vm_compute; reflexivity|reflexivity].
  - vm_compute. reflexivity.
  - eexists. eexists. split; [vm_compute; reflexivity|]. split; reflexivity.
Qed.

End EnumFacts.

(** ** [generator/run.ts]: the order of emission *)
Module EmissionFacts.
Import JsonLd JsonLdNotions.

Lemma forEach_preserves (A S : Type) (P : S -> Prop) (body : A -> S -> result S)
  (xs : list A) :
  (forall x st st', body x st = Ok st' -> P st -> P st') ->
  forall st st', forEach body xs st = Ok st' -> P st -> P st'.
Proof.
  intros Hbody. induction xs as [|x r IH]; simpl; intros st st' E Hp.
  - inversion E. now subst.
  - destruct (body x st) as [st1| |] eqn:E1; simpl in E; try discriminate.
    eapply IH; eauto.
Qed.

Lemma SetValues_ext (seen seen' xs : list string) :
  (forall x, In x seen <-> In x seen') -> SetValues seen xs = SetValues seen' xs.
Proof.
  revert seen seen'. induction xs as [|x r IH]; intros seen seen' Hs; simpl;
    [reflexivity|].
  assert (E : existsb (String.eqb x) seen = existsb (String.eqb x) seen').
  { apply eq_true_iff_eq. rewrite !existsb_exists.
    split; intros [y [Hy Hxy]]; exists y; split; auto; now apply Hs. }
  rewrite E. destruct (existsb (String.eqb x) seen'); [now apply IH|].
  f_equal. apply IH. intros y. simpl. rewrite Hs. tauto.
Qed.

Lemma keys_set (V : Type) (k : string) (v : V) (m : JsMap.t V) :
  JsMap.keys (JsMap.set k v m)
  = if existsb (String.eqb k) (JsMap.keys m) then JsMap.keys m
    else JsMap.keys m ++ [k].
Proof.
  unfold JsMap.keys. induction m as [|[k' v'] r IH]; simpl; [reflexivity|].
  destruct (String.eqb k k') eqn:E; simpl.
  - apply String.eqb_eq in E. now subst.
  - rewrite IH. destruct (existsb (String.eqb k) (map fst r)); reflexivity.
Qed.

Section Facts.
Context `{Collaborators}.

Lemma init_keys (this : string) (classMap classMap' : ClassMap) (b : bool) :
  init this classMap = Ok (b, classMap') -> JsMap.keys classMap' = JsMap.keys classMap.
Proof.
  unfold init. destruct (JsMap.get this classMap) as [c|] eqn:Hget; [|discriminate].
  set (c1 := match GetComments _ _ with [] => c | _ => _ end).
  destruct (GetSubClassOf (item (self c))) as [|parentId rest].
  - intros E. inversion E. eapply JsMapFacts.keys_set_present; eauto.
  - destruct (JsMap.get parentId (JsMap.set this c1 classMap)) as [parentClass|];
      [|discriminate].
    destruct (JsMap.get parentId (JsMap.set this _ (JsMap.set this c1 classMap)))
      as [p|] eqn:Hp; [|discriminate].
    intros E. inversion E.
    rewrite (JsMapFacts.keys_set_present _ _ _ Hp).
    rewrite (JsMapFacts.keys_set_present _ _ _ (JsMapFacts.get_set_eq this c1 classMap)).
    eapply JsMapFacts.keys_set_present; eauto.
Qed.

Lemma BuildClasses_keys (items : list JsonLdGraphItem) (classes classes' : ClassMap) :
  BuildClasses items classes = Ok classes' ->
  JsMap.keys classes' = JsMap.keys classes.
Proof.
  intros E.
  apply (forEach_preserves (fun st => JsMap.keys st = JsMap.keys classes) _ _)
    with (2 := E); [|reflexivity].
  intros x st st' Ex Hst.
  destruct (IsClass x) as [[|]| |]; simpl in Ex; try discriminate.
  - destruct (JsMap.get (LD_ID x) st); [|discriminate].
    destruct (init (LD_ID x) st) as [[b st1]| |] eqn:Ei; simpl in Ex; try discriminate.
    inversion Ex; subst st1. now rewrite (init_keys _ _ Ei).
  - inversion Ex. now subst.
Qed.

Lemma PropertyType_init_keys (item' : JsonLdGraphItem) (classes classes' : ClassMap) :
  PropertyType_init item' classes = Ok classes' ->
  JsMap.keys classes' = JsMap.keys classes.
Proof.
  unfold PropertyType_init. destruct (mapM _ _) as [types'| |]; simpl; try discriminate.
  intros E.
  apply (forEach_preserves (fun st => JsMap.keys st = JsMap.keys classes) _ _)
    with (2 := E); [|reflexivity].
  intros x st st' Ex Hst.
  destruct (JsMap.get (ref_id x) st) as [cls|] eqn:Hg; [|discriminate].
  inversion Ex. now rewrite (JsMapFacts.keys_set_present _ _ _ Hg).
Qed.

Lemma EnumValue_init_keys (item' : JsonLdGraphItem) (classes classes' : ClassMap) :
  EnumValue_init item' classes = Ok classes' ->
  JsMap.keys classes' = JsMap.keys classes.
Proof.
  unfold EnumValue_init. destruct (GetTypes item') as [types'| |]; simpl;
    try discriminate.
  rewrite EnumFacts.EnumValue_attach_candidate.
  destruct (firstCandidate types') as [owner|].
  - destruct (JsMap.get owner classes) as [o|] eqn:Hg; [|discriminate].
    intros E. inversion E. now rewrite (JsMapFacts.keys_set_present _ _ _ Hg).
  - intros E. inversion E. reflexivity.
Qed.

Lemma forward_keys (items : list JsonLdGraphItem) (seeded classes : ClassMap) :
  forEach (fun item' classes =>
             isClass <- IsClass item' ;;
             Ok (if isClass : bool
                 then JsMap.set (LD_ID item')
                        (newClass {| item := item'; instanceofBuiltin := None |})
                        classes
                 else classes))
          items seeded = Ok classes ->
  JsMap.keys classes
  = JsMap.keys seeded ++ SetValues (JsMap.keys seeded) (classIds items).
Proof.
  revert seeded. induction items as [|i r IH]; intros seeded; simpl.
  - intros E. inversion E. now rewrite app_nil_r.
  - unfold classIds. simpl.
    destruct (IsClass i) as [[|]| |]; simpl; try discriminate.
    + intros E. apply IH in E. rewrite E, keys_set.
      destruct (existsb (String.eqb (LD_ID i)) (JsMap.keys seeded)) eqn:Em;
        [reflexivity|].
      rewrite <- app_assoc. simpl. f_equal. f_equal.
      apply SetValues_ext. intros x. rewrite in_app_iff. simpl. tauto.
    + apply IH.
Qed.

Lemma seeded_keys :
  JsMap.keys
    (fold_left (fun classes wk => JsMap.set (idOf (self wk)) wk classes)
               (map newBuiltin wellKnownTypes) [])
  = builtinIds.
Proof. reflexivity. Qed.

Lemma ProcessClasses_keys (items : list JsonLdGraphItem) (classes : ClassMap) :
  ProcessClasses items = Ok classes ->
  JsMap.keys classes
  = builtinIds ++ SetValues builtinIds (classIds items).
Proof.
  unfold ProcessClasses, ForwardDeclareClasses.
  destruct (forEach _ items _) as [declared| |] eqn:Ef; simpl; try discriminate.
  apply forward_keys in Ef. rewrite seeded_keys in Ef.
  destruct (JsMap.size declared); simpl; [discriminate|].
  intros Eb. apply BuildClasses_keys in Eb. now rewrite Eb, Ef.
Qed.

Lemma resolve_keys (graph : list JsonLdGraphMember) (classes : ClassMap) :
  resolve graph = Ok classes ->
  JsMap.keys classes
  = builtinIds ++ SetValues builtinIds (classIds (JsMap.values (group graph []))).
Proof.
  intros E3. unfold resolve in E3.
  destruct (ProcessClasses _) as [c1| |] eqn:E1; simpl in E3; try discriminate.
  destruct (FindProperties _) as [props| |]; simpl in E3; try discriminate.
  destruct (forEach PropertyType_init props c1) as [c2| |] eqn:E2; simpl in E3;
    try discriminate.
  apply ProcessClasses_keys in E1. rewrite <- E1.
  transitivity (JsMap.keys c2).
  - apply (forEach_preserves (fun st => JsMap.keys st = JsMap.keys c2) _ _)
      with (2 := E3); [|reflexivity].
    intros x st st' Ex Hst.
    destruct (GetTypes x) as [types'| |]; simpl in Ex; try discriminate.
    destruct (HasEnumType types').
    + now rewrite (EnumValue_init_keys _ _ Ex).
    + inversion Ex. now subst.
  - apply (forEach_preserves (fun st => JsMap.keys st = JsMap.keys c1) _ _)
      with (2 := E2); [|reflexivity].
    intros x st st' Ex Hst. now rewrite (PropertyType_init_keys _ _ Ex).
Qed.

Lemma emit_all (fuel : nat) (classes : ClassMap) (entries : list Class)
  (nodes : list (list Statement)) (written : list string) :
  mapM (toNode fuel classes) entries = Ok nodes ->
  emit fuel classes entries written = (written ++ flat_map writtenFor nodes, Ok tt).
Proof.
  revert nodes written. induction entries as [|cls r IH]; simpl; intros nodes written E.
  - inversion E. simpl. now rewrite app_nil_r.
  - destruct (toNode fuel classes cls) as [ns| |]; simpl in E; try discriminate.
    destruct (mapM (toNode fuel classes) r) as [rest| |]; simpl in E; try discriminate.
    inversion E. rewrite (IH rest _ eq_refl). simpl. unfold writtenFor.
    now rewrite <- !app_assoc.
Qed.

End Facts.

(** C5, as stated, fails: the same declarations in two orders are emitted in
    two orders, and [B] is emitted before [A] when it is declared first. *)
Lemma emission_depends_on_input_order :
  Permutation [Item Samples.itemB; Item Samples.itemA; Item Samples.itemP]
              [Item Samples.itemA; Item Samples.itemB; Item Samples.itemP]
  /\ declarations
       (fst (main (H := Samples.jsonLdCollaborators) 3
               [Item Samples.itemB; Item Samples.itemA; Item Samples.itemP]))
     = ["type Text"; "type Number"; "type Time"; "type Date"; "type DateTime";
        "type Boolean"; "type BBase"; "type B"; "type ABase"; "type A"]
  /\ declarations
       (fst (main (H := Samples.jsonLdCollaborators) 3
               [Item Samples.itemA; Item Samples.itemB; Item Samples.itemP]))
     = ["type Text"; "type Number"; "type Time"; "type Date"; "type DateTime";
        "type Boolean"; "type ABase"; "type A"; "type BBase"; "type B"]
  /\ ~ (forall (H : Collaborators) (fuel : nat) (g1 g2 : list JsonLdGraphMember),
          Permutation g1 g2 -> main fuel g1 = main fuel g2).
Proof.
  split; [apply perm_swap|]. split; [vm_compute; reflexivity|].
  split; [vm_compute; reflexivity|].
  intros Hall.
  specialize (Hall Samples.jsonLdCollaborators 3
                [Item Samples.itemB; Item Samples.itemA; Item Samples.itemP]
                [Item Samples.itemA; Item Samples.itemB; Item Samples.itemP]
                (perm_swap _ _ _)).
  vm_compute in Hall. discriminate Hall.
Qed.

Section Order.
Context {J : Collaborators} {T : Triples.Collaborators}.

Hypothesis localeCompare_antisym :
  forall x y,
    Z.sgn (Triples.localeCompare y x) = (- Z.sgn (Triples.localeCompare x y))%Z.
Hypothesis localeCompare_trans :
  forall x y z,
    (Triples.localeCompare x y <= 0)%Z -> (Triples.localeCompare y z <= 0)%Z ->
    (Triples.localeCompare x z <= 0)%Z.

(** An array sorted by [CompareKeys] on a subject of its elements is the
    sorted arrangement of its elements. *)
Lemma sort_by_subject (X : Type) (f : X -> Triples.TSubject) (l : list X) :
  let compareFn := fun a b => Triples.CompareKeys (f a) (f b) in
  StronglySorted (before compareFn) (sort compareFn l)
  /\ Permutation (sort compareFn l) l.
Proof.
  intros compareFn. split; [|apply SortFacts.sort_perm].
  apply SortFacts.sort_sorted; unfold before, compareFn.
  - intros a b.
    pose proof (OrderFacts.CompareKeys_antisym localeCompare_antisym (f a) (f b)) as A.
    pose proof (Z.sgn_spec (Triples.CompareKeys (f a) (f b))) as S1.
    pose proof (Z.sgn_spec (Triples.CompareKeys (f b) (f a))) as S2.
    lia.
  - intros a b c.
    apply (OrderFacts.CompareKeys_trans localeCompare_antisym localeCompare_trans).
Qed.

(** Sorted by [CompareKeys] on a subject of its elements, an array does not
    depend on the order in which its elements were pushed, when no two of
    them tie. *)
Lemma sort_by_subject_order (X : Type) (f : X -> Triples.TSubject) (l l' : list X) :
  let compareFn := fun a b => Triples.CompareKeys (f a) (f b) in
  untied compareFn l -> Permutation l l' -> sort compareFn l = sort compareFn l'.
Proof.
  intros compareFn Hties Hp.
  apply SortFacts.sort_insertion_order; auto; unfold before, compareFn.
  - intros a b.
    pose proof (OrderFacts.CompareKeys_antisym localeCompare_antisym (f a) (f b)) as A.
    pose proof (Z.sgn_spec (Triples.CompareKeys (f a) (f b))) as S1.
    pose proof (Z.sgn_spec (Triples.CompareKeys (f b) (f a))) as S2.
    lia.
  - intros a b c.
    apply (OrderFacts.CompareKeys_trans localeCompare_antisym localeCompare_trans).
Qed.

(** [ts/class.ts]: the members of the base literal are the nodes of the
    properties in sorted order, after the discriminant of a leaf. *)
Lemma baseNode_sorted_members (skip : bool) (fuel : nat)
  (classMap : Triples.ClassMap) (c c' : Triples.Class) (t : TypeNode) :
  Triples.baseNode skip fuel classMap c = Ok (t, c') ->
  exists leaf,
    Triples.isLeaf fuel classMap c = Ok leaf
    /\ ownMembers t
       = map Triples.ClassProperty_toNode
           (Triples.emitted skip
              ((if leaf : bool
                then [Triples.TypeProperty (Triples.subject (Triples.self c))]
                else [])
                 ++ map Triples.OwnProperty
                      (sort (fun a b => Triples.CompareKeys (Triples.key a) (Triples.key b))
                            (Triples._props c)))).
Proof.
  intros E. unfold Triples.baseNode in E.
  destruct (Triples.properties fuel classMap c) as [[props c1]| |] eqn:Ep;
    simpl in E; try discriminate.
  destruct (ShapeFacts.properties_leaf _ _ _ Ep) as [leaf [El Eprops]].
  pose proof (BaseFacts.properties_receiver _ _ _ Ep) as Ec.
  rewrite ShapeFacts.mapM_bind_map in E.
  destruct (mapM Triples.baseName (Triples.parents c1)) as [names| |];
    simpl in E; try discriminate.
  exists leaf. split; [exact El|].
  rewrite Eprops in E. rewrite Ec in E. simpl Triples._props in E.
  destruct (map Triples.ClassProperty_toNode _) as [|m ms] eqn:Em in E.
  - rewrite Em. destruct names as [|n1 [|n2 r]]; inversion E; reflexivity.
  - rewrite Em. destruct names as [|n1 [|n2 r]]; inversion E; reflexivity.
Qed.

(** C5, amended.  The two revisions differ.  [main] of [generator/run.ts]
    writes the declarations of the classes in the order of the registry's
    keys, which is the order of insertion: the builtins as seeded, then the
    class declarations in the order of the grouped input; and
    [lib/toClass.ts], which it runs, emits the properties, the children and
    the enumeration members of a class in their order of insertion.
    Nothing there is sorted.  The methods of [ts/class.ts] sort the
    properties, the children and the enumeration members of a class by
    [CompareKeys] and emit them in that order: the members of the base
    literal, the references to the children in the total type and the
    members of the enumeration are those of the sorted lists, so that, where
    no two elements tie, what is emitted does not depend on the order in
    which they were added. *)
Theorem emission_order :
  (forall fuel graph classes nodes,
     resolve graph = Ok classes ->
     mapM (toNode fuel classes) (JsMap.values classes) = Ok nodes ->
     main fuel graph
     = (("// tslint:disable" ++ LF ++ LF)%string :: flat_map writtenFor nodes, Ok tt)
     /\ JsMap.keys classes
        = builtinIds
            ++ SetValues builtinIds (classIds (JsMap.values (group graph []))))
  /\ (forall fuel classMap c props,
        properties fuel classMap c = Ok props ->
        exists t front,
          baseNode fuel classMap c = Ok t
          /\ ownMembers t = map Property_toNode props
          /\ props = front ++ _props c)
  /\ (forall c,
        children c <> [] ->
        alternatives (nonEnumType c)
        = map (fun child => TypeReferenceNode (className child)) (children c))
  /\ (forall c d,
        enumDecl c = Some d ->
        d = EnumDeclaration None true (enumName (self c))
              (map EnumValue_toNode (_enums c)))
  /\ (forall skip fuel classMap c t c',
        Triples.baseNode skip fuel classMap c = Ok (t, c') ->
        let compareFn := fun a b => Triples.CompareKeys (Triples.key a) (Triples.key b) in
        StronglySorted (before compareFn) (sort compareFn (Triples._props c))
        /\ exists leaf,
             Triples.isLeaf fuel classMap c = Ok leaf
             /\ ownMembers t
                = map Triples.ClassProperty_toNode
                    (Triples.emitted skip
                       ((if leaf : bool
                         then [Triples.TypeProperty (Triples.subject (Triples.self c))]
                         else [])
                          ++ map Triples.OwnProperty
                               (sort compareFn (Triples._props c)))))
  /\ (forall c t c',
        Triples.nonEnumType c = Ok (t, c') ->
        Triples.children c <> [] ->
        let compareFn :=
          fun a b => Triples.CompareKeys (Triples.subject a) (Triples.subject b) in
        StronglySorted (before compareFn) (sort compareFn (Triples.children c))
        /\ exists names,
             mapM Triples.className (sort compareFn (Triples.children c)) = Ok names
             /\ tl (alternatives t) = map TypeReferenceNode names)
  /\ (forall c d c',
        Triples.enumDecl c = Ok (Some d, c') ->
        let compareFn :=
          fun a b => Triples.CompareKeys (Triples.value a) (Triples.value b) in
        StronglySorted (before compareFn) (sort compareFn (Triples._enums c))
        /\ exists n,
             d = EnumDeclaration None true n
                   (map Triples.EnumValue_toNode (sort compareFn (Triples._enums c))))
  /\ (forall skip fuel classMap c pushed,
        untied (fun a b => Triples.CompareKeys (Triples.key a) (Triples.key b))
               (Triples._props c) ->
        Permutation (Triples._props c) pushed ->
        Triples.baseNode skip fuel classMap (Triples.setProps c pushed)
        = Triples.baseNode skip fuel classMap c)
  /\ (forall c pushed,
        untied (fun a b => Triples.CompareKeys (Triples.subject a) (Triples.subject b))
               (Triples.children c) ->
        Permutation (Triples.children c) pushed ->
        Triples.nonEnumType (Triples.setChildren c pushed) = Triples.nonEnumType c)
  /\ (forall c pushed,
        untied (fun a b => Triples.CompareKeys (Triples.value a) (Triples.value b))
               (Triples._enums c) ->
        Permutation (Triples._enums c) pushed ->
        Triples.enumDecl (Triples.setEnums c pushed) = Triples.enumDecl c).
Proof.
  split; [|split; [|split; [|split; [|split; [|split; [|split; [|split; [|split]]]]]]]].
  - intros fuel graph classes nodes Er En. split; [|now apply resolve_keys].
    unfold main. rewrite Er. erewrite emit_all; [reflexivity|exact En].
  - intros fuel classMap c props Ep.
    destruct (LeafFacts.baseNode_members _ _ _ Ep) as [t [Et Em]].
    unfold properties in Ep.
    destruct (isLeaf fuel classMap c) as [[|]| |]; simpl in Ep; try discriminate;
      inversion Ep; subst props.
    + exists t. eexists [_]. split; [exact Et|]. split; [exact Em|reflexivity].
    + exists t, []. split; [exact Et|]. split; [exact Em|reflexivity].
  - intros c Hc. rewrite ShapeFacts.older_nonEnumType.
    destruct (children c); [congruence|reflexivity].
  - intros c d Ed. unfold enumDecl in Ed.
    destruct (_enums c) as [|e es]; [discriminate|]. now inversion Ed.
  - intros skip fuel classMap c t c' E compareFn.
    split; [apply (sort_by_subject Triples.key)|].
    exact (baseNode_sorted_members _ _ _ _ E).
  - intros c t c' E Hc compareFn.
    split; [apply (sort_by_subject Triples.subject)|].
    destruct (mapM Triples.className (sort compareFn (Triples.children c)))
      as [names| |] eqn:En.
    + exists names. split; [reflexivity|].
      destruct (Triples.baseName (Triples.self c)) as [base| |] eqn:Eb.
      * destruct (proj1 (ShapeFacts.nonEnumType_shape c) Hc names base En Eb)
          as [_ Ha].
        rewrite (Ha _ _ E). reflexivity.
      * unfold Triples.nonEnumType in E. fold compareFn in E. simpl in E.
        rewrite ShapeFacts.mapM_bind_map, En in E. simpl in E.
        destruct (map TypeReferenceNode names) as [|t1 [|t2 r]]; simpl in E;
          try rewrite Eb in E; simpl in E; discriminate E.
      * unfold Triples.nonEnumType in E. fold compareFn in E. simpl in E.
        rewrite ShapeFacts.mapM_bind_map, En in E. simpl in E.
        destruct (map TypeReferenceNode names) as [|t1 [|t2 r]]; simpl in E;
          try rewrite Eb in E; simpl in E; discriminate E.
    + unfold Triples.nonEnumType in E. fold compareFn in E. simpl in E.
      rewrite ShapeFacts.mapM_bind_map, En in E. discriminate E.
    + unfold Triples.nonEnumType in E. fold compareFn in E. simpl in E.
      rewrite ShapeFacts.mapM_bind_map, En in E. discriminate E.
  - intros c d c' E compareFn.
    split; [apply (sort_by_subject Triples.value)|].
    unfold Triples.enumDecl in E. destruct (Triples._enums c) eqn:Ee; [discriminate|].
    simpl in E. destruct (Triples.enumName (Triples.self c)) as [n| |]; simpl in E;
      try discriminate.
    inversion E. exists n. reflexivity.
  - intros skip fuel classMap c pushed Hu Hp.
    unfold Triples.baseNode, Triples.properties.
    cbn [Triples._props Triples.setProps].
    rewrite <- (sort_by_subject_order Triples.key Hu Hp). reflexivity.
  - intros c pushed Hu Hp. unfold Triples.nonEnumType.
    cbn [Triples.children Triples.setChildren].
    rewrite <- (sort_by_subject_order Triples.subject Hu Hp). reflexivity.
  - intros c pushed Hu Hp.
    pose proof (sort_by_subject_order Triples.value Hu Hp) as Es.
    unfold Triples.enumDecl. cbn [Triples._enums Triples.setEnums Triples.self].
    destruct (Triples._enums c) as [|e es] eqn:Ee.
    + apply Permutation_nil in Hp. subst pushed. destruct c. simpl in Ee. now subst.
    + destruct pushed as [|p ps].
      { symmetry in Hp. apply Permutation_nil in Hp. discriminate Hp. }
      rewrite <- Es. reflexivity.
Qed.

(** Sorted, the properties do not depend on the order in which they were
    added, when no two of them tie. *)
Lemma properties_insertion_order (l l' : list Triples.Property) :
  let compareFn := fun a b => Triples.CompareKeys (Triples.key a) (Triples.key b) in
  (forall a b, In a l -> In b l ->
               (compareFn a b <= 0)%Z -> (compareFn b a <= 0)%Z -> a = b) ->
  Permutation l l' ->
  sort compareFn l = sort compareFn l'.
Proof.
  intros compareFn Hties Hp.
  apply SortFacts.sort_insertion_order; auto; unfold before, compareFn.
  - intros a b.
    pose proof (OrderFacts.CompareKeys_antisym localeCompare_antisym
                  (Triples.key a) (Triples.key b)) as A.
    pose proof (Z.sgn_spec (Triples.CompareKeys (Triples.key a) (Triples.key b))) as S1.
    pose proof (Z.sgn_spec (Triples.CompareKeys (Triples.key b) (Triples.key a))) as S2.
    lia.
  - intros a b c.
    apply (OrderFacts.CompareKeys_trans localeCompare_antisym localeCompare_trans).
Qed.

End Order.

Lemma thing_children_untied :
  untied (fun a b => Triples.CompareKeys (H := Samples.triplesCollaborators)
                       (Triples.subject a) (Triples.subject b))
         (Triples.children Samples.thing).
Proof.
  intros a b [<-|[<-|[]]] [<-|[<-|[]]] H1 H2; try reflexivity; exfalso;
    vm_compute in H1, H2; first [apply H1; reflexivity|apply H2; reflexivity].
Qed.

Lemma emission_order_witness :
  declarations
    (fst (main (H := Samples.jsonLdCollaborators) 3
            [Item Samples.itemB; Item Samples.itemA; Item Samples.itemP]))
  = ["type Text"; "type Number"; "type Time"; "type Date"; "type DateTime";
     "type Boolean"; "type BBase"; "type B"; "type ABase"; "type A"]
  /\ tl (alternatives
           (fst (match Triples.nonEnumType (H := Samples.triplesCollaborators)
                         Samples.thing with
                 | Ok r => r
                 | _ => (NeverKeyword, Samples.thing)
                 end)))
     = [TypeReferenceNode "Action"; TypeReferenceNode "Person"]
  /\ Triples.nonEnumType (H := Samples.triplesCollaborators)
       (Triples.setChildren Samples.thing
          [Samples.classOf "Action"; Samples.classOf "Person"])
     = Triples.nonEnumType (H := Samples.triplesCollaborators) Samples.thing.
Proof.
  pose proof (@emission_order Samples.jsonLdCollaborators Samples.triplesCollaborators
                OrderFacts.codeUnitCompare_antisym OrderFacts.codeUnitCompare_trans)
    as [Hmain [_ [_ [_ [_ [Hchildren [_ [_ [Hpushed _]]]]]]]]].
  split; [|split].
  - destruct (resolve (H := Samples.jsonLdCollaborators)
                [Item Samples.itemB; Item Samples.itemA; Item Samples.itemP])
      as [classes| |] eqn:Er; [|vm_compute in Er; discriminate Er
                               |vm_compute in Er; discriminate Er].
    destruct (mapM (toNode (H := Samples.jsonLdCollaborators) 3 classes)
                (JsMap.values classes)) as [nodes| |] eqn:En;
      [|vm_compute in Er; inversion Er; subst classes; vm_compute in En; discriminate En
       |vm_compute in Er; inversion Er; subst classes; vm_compute in En; discriminate En].
    destruct (Hmain 3 _ _ _ Er En) as [Em _]. rewrite Em.
    vm_compute in Er. inversion Er; subst classes.
    vm_compute in En. inversion En; subst nodes.
    vm_compute. reflexivity.
  - destruct (Triples.nonEnumType (H := Samples.triplesCollaborators) Samples.thing)
      as [[t c']| |] eqn:E; [|vm_compute in E; discriminate E|vm_compute in E; discriminate E].
    destruct (Hchildren _ _ _ E) as [_ [names [En Ea]]]; [discriminate|].
    simpl fst. rewrite Ea. vm_compute in En. inversion En. reflexivity.
  - apply Hpushed; [exact thing_children_untied|apply perm_swap].
Defined.

End EmissionFacts.

(** ** [ts/util/names.ts] and [parser/reader.ts] *)
Module ReaderFacts.
Import Triples Names Reader NamesNotions.

Lemma replaceIllegal_units (s : string) : identifierUnits (replaceIllegal s) = true.
Proof.
  induction s as [|a r IH]; simpl; [reflexivity|].
  rewrite IH, andb_true_r. destruct (isIdentifierUnit a) eqn:E; [exact E|reflexivity].
Qed.

Lemma replaceIllegal_length (s : string) :
  String.length (replaceIllegal s) = String.length s.
Proof. induction s as [|a r IH]; simpl; [reflexivity|now rewrite IH]. Qed.

Lemma replaceIllegal_get (s : string) (i : nat) (a : ascii) :
  String.get i s = Some a ->
  String.get i (replaceIllegal s)
  = Some (if isIdentifierUnit a then a else "_"%char).
Proof.
  revert i. induction s as [|b r IH]; intros i; simpl; [discriminate|].
  destruct i as [|i]; [|apply IH].
  intros E. inversion E. reflexivity.
Qed.

Lemma replaceIllegal_fixed (s : string) :
  identifierUnits s = true -> replaceIllegal s = s.
Proof.
  induction s as [|a r IH]; simpl; [reflexivity|].
  intros E. apply andb_true_iff in E. destruct E as [Ea Er].
  now rewrite Ea, IH.
Qed.

(** X1.  [toEnumName] throws where [toClassName] throws, with the same message;
    where it returns, its result is the class name with every character
    outside [[A-Za-z0-9_]] replaced by an underscore and every other
    character kept, position by position: of the same length, made of
    characters of the class only, equal to the class name when that has no
    other character, and unchanged by a second replacement. *)
Theorem toEnumName_identifier (subject' : TSubject) :
  (forall message, toEnumName subject' = Throw message
                   <-> toClassName subject' = Throw message)
  /\ toEnumName subject' <> StackOverflow
  /\ (forall e, toEnumName subject' = Ok e ->
        exists n,
          toClassName subject' = Ok n
          /\ (forall i a,
                String.get i n = Some a ->
                String.get i e
                = Some (if isIdentifierUnit a then a else "_"%char))
          /\ String.length e = String.length n
          /\ identifierUnits e = true
          /\ (identifierUnits n = true -> e = n)
          /\ replaceIllegal e = e).
Proof.
  destruct subject' as [[n|] href|id]; simpl.
  - split; [split; discriminate|]. split; [discriminate|].
    intros e E. inversion E. exists n. split; [reflexivity|].
    split; [intros i a; apply replaceIllegal_get|].
    split; [apply replaceIllegal_length|].
    split; [apply replaceIllegal_units|].
    split; [apply replaceIllegal_fixed|].
    apply replaceIllegal_fixed, replaceIllegal_units.
  - split; [tauto|]. split; discriminate.
  - split; [tauto|]. split; discriminate.
Qed.

Lemma toEnumName_identifier_witness :
  toEnumName (UrlNode (Some "3DModel-5") "http://schema.org/3DModel-5") = Ok "3DModel_5"
  /\ toEnumName (BlankNode "b0")
     = Throw "Did not expect a BlankNode to be a Class. b0".
Proof.
  split.
  - destruct (proj2 (proj2 (toEnumName_identifier
                               (UrlNode (Some "3DModel-5") "http://schema.org/3DModel-5")))
                _ eq_refl) as [n [_ _]].
    reflexivity.
  - apply (proj1 (toEnumName_identifier (BlankNode "b0"))). reflexivity.
Defined.

Lemma beforeClosing_append (inner : string) :
  beforeClosing (inner ++ ">") = Some inner.
Proof.
  induction inner as [|a r IH]; [reflexivity|].
  change (String a r ++ ">")%string with (String a (r ++ ">")).
  simpl. rewrite IH. destruct (r ++ ">")%string eqn:E; [|reflexivity].
  destruct r; discriminate.
Qed.

Lemma beforeClosing_sound (s inner : string) :
  beforeClosing s = Some inner -> s = (inner ++ ">")%string.
Proof.
  revert inner. induction s as [|a r IH]; intros inner; simpl; [discriminate|].
  destruct r as [|b r'].
  - destruct (Ascii.eqb_spec a ">"%char) as [->|]; [|discriminate].
    intros E. inversion E. reflexivity.
  - destruct (beforeClosing (String b r')) as [inner'|]; simpl; [|discriminate].
    intros E. inversion E. simpl. f_equal. now apply IH.
Qed.

(** X2.  [unWrap(maker)] hands to [maker] what stands between [<] and [>],
    and returns null for any other content: a content it accepts is [<],
    a non-empty text without [<] and [>], and [>]. *)
Theorem unWrap_wrapped (T : Type) (maker : string -> option T) :
  (forall inner,
     inner <> "" -> noBrackets inner = true ->
     unWrap maker ("<" ++ inner ++ ">") = maker inner)
  /\ (forall content attempt,
        unWrap maker content = Some attempt ->
        exists inner,
          content = ("<" ++ inner ++ ">")%string
          /\ inner <> "" /\ noBrackets inner = true
          /\ maker inner = Some attempt).
Proof.
  split.
  - intros inner Hne Hnb. unfold unWrap, execWrapped. simpl.
    rewrite beforeClosing_append, Hnb.
    destruct (String.eqb_spec inner ""); [contradiction|reflexivity].
  - intros content attempt E. unfold unWrap, execWrapped in E.
    destruct content as [|a r]; [discriminate|].
    destruct (Ascii.eqb_spec a "<"%char) as [->|]; [|discriminate].
    destruct (beforeClosing r) as [inner|] eqn:Eb; [|discriminate].
    destruct (String.eqb_spec inner "") as [|Hne]; simpl in E; [discriminate|].
    destruct (noBrackets inner) eqn:Hnb; [|discriminate].
    exists inner. apply beforeClosing_sound in Eb. subst r. auto.
Qed.

Lemma unWrap_wrapped_witness :
  unWrap (fun s => Some (String.length s)) "<http://schema.org/Thing>" = Some 23
  /\ unWrap (fun s => Some (String.length s)) "<a<b>" = None.
Proof.
  split.
  - apply (proj1 (unWrap_wrapped (fun s => Some (String.length s)))
             "http://schema.org/Thing"); [discriminate|reflexivity].
  - reflexivity.
Defined.

(** X3.  [verify] returns the first attempt that is truthy, whatever the
    later ones do, passing over the attempts that are null or falsy, and
    throws [Unexpected] with the content exactly when no attempt is
    truthy. *)
Theorem verify_first (T : Type) `{JsonLd.Truthy T} (content : string)
  (rest : list (string -> option T)) :
  (forall attempt,
     verify content rest = Ok attempt <->
     exists before' item after,
       rest = before' ++ item :: after
       /\ Forall (rejects content) before'
       /\ item content = Some attempt
       /\ JsonLd.truthy attempt = true)
  /\ (forall message,
        verify content rest = Throw message <->
        Forall (rejects content) rest /\ message = ("Unexpected " ++ content)%string)
  /\ verify content rest <> StackOverflow.
Proof.
  induction rest as [|item r [IHok [IHthrow IHso]]]; simpl.
  - split; [|split; [|discriminate]].
    + intros attempt. split; [discriminate|].
      intros [b [i [a [E _]]]]. destruct b; discriminate.
    + intros message. split.
      * intros E. inversion E. auto.
      * intros [_ ->]. reflexivity.
  - assert (Skip : rejects content item ->
              (forall attempt,
                 verify content r = Ok attempt <->
                 exists before' item0 after,
                   item :: r = before' ++ item0 :: after
                   /\ Forall (rejects content) before'
                   /\ item0 content = Some attempt
                   /\ JsonLd.truthy attempt = true)
              /\ (forall message,
                    verify content r = Throw message <->
                    Forall (rejects content) (item :: r)
                    /\ message = ("Unexpected " ++ content)%string)).
    { intros Hr. split.
      - intros attempt. rewrite IHok. split.
        + intros [b [i [a [E [Hb Hi]]]]]. exists (item :: b), i, a.
          split; [now rewrite E|]. split; [constructor; auto|exact Hi].
        + intros [b [i [a [E [Hb [Hi Ht]]]]]]. destruct b as [|b0 b'].
          * inversion E. subst. unfold rejects in Hr. rewrite Hi in Hr. congruence.
          * inversion E. subst. inversion Hb. exists b', i, a. auto.
      - intros message. rewrite IHthrow. split.
        + intros [Hall Hm]. split; [constructor; auto|exact Hm].
        + intros [Hall Hm]. inversion Hall. auto. }
    destruct (item content) as [x|] eqn:Ei.
    + destruct (JsonLd.truthy x) eqn:Et.
      * split; [|split; [|discriminate]].
        -- intros attempt. split.
           ++ intros E. inversion E. subst. exists [], item, r. auto.
           ++ intros [b [i [a [E [Hb [Hi Ht]]]]]]. destruct b as [|b0 b'].
              ** inversion E. subst. congruence.
              ** inversion E. subst. inversion Hb as [|? ? Hr _].
                 unfold rejects in Hr. rewrite Ei in Hr. congruence.
        -- intros message. split; [discriminate|].
           intros [Hall _]. inversion Hall as [|? ? Hr _].
           unfold rejects in Hr. rewrite Ei in Hr. congruence.
      * destruct Skip as [S1 S2]; [unfold rejects; now rewrite Ei|].
        split; [exact S1|]. split; [exact S2|exact IHso].
    + destruct Skip as [S1 S2]; [unfold rejects; now rewrite Ei|].
      split; [exact S1|]. split; [exact S2|exact IHso].
Qed.

Lemma verify_first_witness :
  verify "" [(fun s => Some (String.length s)); (fun _ => Some 7); (fun _ => Some 9)]
  = Ok 7
  /\ verify "" [(fun s => Some (String.length s)); (fun _ => None)]
     = Throw "Unexpected ".
Proof.
  split.
  - apply (proj1 (verify_first ""
                    [(fun s => Some (String.length s)); (fun _ => Some 7);
                     (fun _ => Some 9)])).
    exists [(fun s => Some (String.length s))], (fun _ => Some 7), [(fun _ => Some 9)].
    split; [reflexivity|]. split; [repeat constructor|]. split; reflexivity.
  - apply (proj1 (proj2 (verify_first ""
                           [(fun s => Some (String.length s)); (fun _ => None)]))).
    split; [repeat constructor|reflexivity].
Defined.

Lemma flat_map_shift (A : Type) (f : nat -> list A) (k len : nat) :
  flat_map f (seq k len) = flat_map (fun i => f (k + i)) (seq 0 len).
Proof.
  revert f k. induction len as [|len IH]; intros f k; simpl; [reflexivity|].
  rewrite Nat.add_0_r. f_equal.
  rewrite (IH f (S k)), (IH (fun i => f (k + i)) 1). apply flat_map_ext.
  intros i. now rewrite Nat.add_succ_r.
Qed.

Lemma triplesOf_three (A : Type) (a b c : A) (r : list A) :
  triplesOf (a :: b :: c :: r) = [a; b; c] :: triplesOf r.
Proof.
  unfold triplesOf.
  change (length (a :: b :: c :: r)) with (3 + length r).
  change (seq 0 (3 + length r)) with (0 :: 1 :: 2 :: seq 3 (length r)).
  cbn [flat_map]. change (0 mod 3) with 0. change (1 mod 3) with 1.
  change (2 mod 3) with 2. cbn [Nat.eqb app skipn firstn]. f_equal.
  rewrite flat_map_shift. apply flat_map_ext. intros i.
  replace ((3 + i) mod 3) with (i mod 3).
  - reflexivity.
  - replace (3 + i) with (i + 1 * 3) by lia. now rewrite Nat.Div0.mod_add.
Qed.

Lemma by_threes (A : Type) (P : list A -> Prop) :
  P [] -> (forall a, P [a]) -> (forall a b, P [a; b]) ->
  (forall a b c r, P r -> P (a :: b :: c :: r)) ->
  forall l, P l.
Proof.
  intros H0 H1 H2 H3.
  fix IH 1. intros [|a [|b [|c r]]].
  - exact H0.
  - apply H1.
  - apply H2.
  - apply H3, IH.
Qed.

(** X4.  The slices are the array cut into threes: put end to end they give the
    array back, none is empty or longer than three, there is one for every
    started three, and all have three elements exactly when the length of
    the array is a multiple of three. *)
Theorem triplesOf_slices (A : Type) (array : list A) :
  concat (triplesOf array) = array
  /\ Forall (fun t => 1 <= length t <= 3) (triplesOf array)
  /\ length (triplesOf array) = (length array + 2) / 3
  /\ (Forall (fun t => length t = 3) (triplesOf array) <-> length array mod 3 = 0).
Proof.
  induction array as [| a | a b | a b c r [IHc [IHb [IHn IHa]]]] using by_threes.
  - split; [reflexivity|]. split; [constructor|]. split; [reflexivity|].
    split; [reflexivity|constructor].
  - split; [reflexivity|]. split; [repeat constructor|]. split; [reflexivity|].
    split; [intros F; inversion F; discriminate|discriminate].
  - split; [reflexivity|]. split; [repeat constructor|]. split; [reflexivity|].
    split; [intros F; inversion F; discriminate|discriminate].
  - rewrite triplesOf_three. split; [simpl; now rewrite IHc|].
    split; [constructor; [simpl; lia|exact IHb]|].
    split.
    + simpl length. rewrite IHn.
      replace (S (S (S (length r))) + 2) with ((length r + 2) + 1 * 3) by lia.
      rewrite Nat.div_add by lia. lia.
    + simpl length.
      replace (S (S (S (length r))) mod 3) with (length r mod 3).
      * rewrite <- IHa. split.
        -- intros F. now inversion F.
        -- intros F. constructor; [reflexivity|exact F].
      * replace (S (S (S (length r)))) with (length r + 1 * 3) by lia.
        now rewrite Nat.Div0.mod_add.
Qed.

End ReaderFacts.

(** ** [generator/run.ts]: grouping a graph *)
Module GroupFacts.
Import JsonLd PipelineNotions.

Lemma groupItem_skipped (i : JsonLdGraphItem) (m : JsMap.t JsonLdGraphItem) :
  groupItem i m
  = if skipped i then m
    else JsMap.set (LD_ID i)
           (match JsMap.get (LD_ID i) m with
            | Some alreadyExists => merge alreadyExists i
            | None => i
            end) m.
Proof.
  unfold groupItem, skipped.
  destruct (IsSourceOnly i), (IsSoftwareVersionOnly i), (IsCloseMatch i),
    (IsTestComment i); simpl; try reflexivity.
  destruct (JsMap.get (LD_ID i) m); reflexivity.
Qed.

Lemma groupMember_flatten :
  forall (member : JsonLdGraphMember) (m : JsMap.t JsonLdGraphItem),
    groupMember member m = fold_left (fun map i => groupItem i map) (flatten member) m.
Proof.
  fix IH 1. intros [graph|i] m.
  - simpl. revert m. induction graph as [|x r IHr]; intros m.
    + reflexivity.
    + rewrite fold_left_app, <- IH. apply IHr.
  - reflexivity.
Qed.

Lemma group_flatten (graph : list JsonLdGraphMember) (m : JsMap.t JsonLdGraphItem) :
  group graph m = fold_left (fun map i => groupItem i map) (flat_map flatten graph) m.
Proof.
  unfold group. revert m. induction graph as [|x r IH]; intros m; simpl.
  - reflexivity.
  - now rewrite fold_left_app, <- groupMember_flatten, IH.
Qed.

Lemma grouped_keys (items : list JsonLdGraphItem) (m : JsMap.t JsonLdGraphItem) :
  JsMap.keys (fold_left (fun map i => groupItem i map) items m)
  = JsMap.keys m
    ++ SetValues (JsMap.keys m) (map LD_ID (filter (fun i => negb (skipped i)) items)).
Proof.
  revert m. induction items as [|i r IH]; intros m; simpl.
  - now rewrite app_nil_r.
  - rewrite IH, groupItem_skipped. destruct (skipped i); simpl; [reflexivity|].
    rewrite EmissionFacts.keys_set.
    destruct (existsb (String.eqb (LD_ID i)) (JsMap.keys m)); [reflexivity|].
    rewrite <- app_assoc. simpl. f_equal. f_equal.
    apply EmissionFacts.SetValues_ext. intros x. rewrite in_app_iff. simpl. tauto.
Qed.

Lemma grouped_get (id : string) (items : list JsonLdGraphItem)
  (m : JsMap.t JsonLdGraphItem) :
  JsMap.get id (fold_left (fun map i => groupItem i map) items m)
  = match JsMap.get id m,
          filter (fun i => negb (skipped i) && String.eqb (LD_ID i) id) items with
    | Some a, l => Some (fold_left merge l a)
    | None, [] => None
    | None, first :: later => Some (fold_left merge later first)
    end.
Proof.
  revert m. induction items as [|i r IH]; intros m; simpl.
  - destruct (JsMap.get id m); reflexivity.
  - rewrite IH, groupItem_skipped. destruct (skipped i); simpl; [reflexivity|].
    destruct (String.eqb (LD_ID i) id) eqn:E.
    + apply String.eqb_eq in E. subst id. rewrite JsMapFacts.get_set_eq.
      destruct (JsMap.get (LD_ID i) m); reflexivity.
    + rewrite JsMapFacts.get_set_ne; [reflexivity|].
      intros C. rewrite C, String.eqb_refl in E. discriminate.
Qed.

Lemma set_Forall (V : Type) (P : string * V -> Prop) (k : string) (v : V)
  (m : JsMap.t V) :
  Forall P m -> P (k, v) -> Forall P (JsMap.set k v m).
Proof.
  intros Hm Hv. induction m as [|[k' v'] r IH]; simpl.
  - now constructor.
  - inversion Hm; subst. destruct (String.eqb k k'); constructor; auto.
Qed.

Lemma get_entry (V : Type) (k : string) (v : V) (m : JsMap.t V) :
  JsMap.get k m = Some v -> In (k, v) m.
Proof.
  induction m as [|[k' v'] r IH]; simpl; [discriminate|].
  destruct (String.eqb_spec k k') as [E|E]; intros Hg.
  - left. congruence.
  - right. auto.
Qed.

Lemma grouped_ids (items : list JsonLdGraphItem) (m : JsMap.t JsonLdGraphItem) :
  Forall (fun entry => LD_ID (snd entry) = fst entry) m ->
  Forall (fun entry => LD_ID (snd entry) = fst entry)
         (fold_left (fun map i => groupItem i map) items m).
Proof.
  revert m. induction items as [|i r IH]; intros m Hm; simpl; [exact Hm|].
  apply IH. rewrite groupItem_skipped. destruct (skipped i); [exact Hm|].
  apply set_Forall; [exact Hm|]. simpl.
  destruct (JsMap.get (LD_ID i) m) as [a|] eqn:E; [|reflexivity].
  apply get_entry in E. rewrite Forall_forall in Hm. exact (Hm _ E).
Qed.

(** X5.  What [group] leaves in an empty map.  The keys are the identifiers of the
    members that are not passed over, nested graphs opened, each at its first
    occurrence; under an identifier stands its first declaration with the
    later ones merged into it, in document order; and the items of the map
    have distinct identifiers, their keys. *)
Theorem group_merges_in_order (graph : list JsonLdGraphMember) :
  JsMap.keys (group graph [])
  = SetValues [] (map LD_ID (filter (fun m => negb (skipped m))
                                    (flat_map flatten graph)))
  /\ (forall id : string,
        JsMap.get id (group graph [])
        = match declarationsOf id graph with
          | [] => None
          | first :: later => Some (fold_left merge later first)
          end)
  /\ map LD_ID (JsMap.values (group graph [])) = JsMap.keys (group graph [])
  /\ NoDup (map LD_ID (JsMap.values (group graph []))).
Proof.
  assert (K : JsMap.keys (group graph [])
              = SetValues [] (map LD_ID (filter (fun m => negb (skipped m))
                                                (flat_map flatten graph)))).
  { rewrite group_flatten. apply (grouped_keys (flat_map flatten graph) []). }
  assert (I : map LD_ID (JsMap.values (group graph [])) = JsMap.keys (group graph [])).
  { rewrite group_flatten.
    pose proof (@grouped_ids (flat_map flatten graph) [] (Forall_nil _)) as W.
    unfold JsMap.values, JsMap.keys. rewrite map_map.
    induction W as [|e l He Hl IH]; simpl; [reflexivity|]. now rewrite He, IH. }
  split; [exact K|]. split.
  - intros id. rewrite group_flatten. apply (grouped_get id (flat_map flatten graph) []).
  - split; [exact I|]. rewrite I, K. apply SortFacts.SetValues_NoDup.
Qed.

End GroupFacts.

(** ** [lib/toClass.ts] and [generator/run.ts]: the stages of [main] *)
Module PipelineFacts.
Import JsonLd JsonLdNotions PipelineNotions.

Lemma get_keys (V : Type) (k : string) (m : JsMap.t V) :
  JsMap.get k m = None <-> ~ In k (JsMap.keys m).
Proof.
  unfold JsMap.keys. induction m as [|[k' v] r IH]; simpl; [tauto|].
  destruct (String.eqb_spec k k') as [E|E].
  - subst. split; [discriminate|]. intros C. exfalso. apply C. now left.
  - rewrite IH. split; [intros A [B|B]; [congruence|tauto]|tauto].
Qed.

Lemma forEach_filter (A S : Type) (P : A -> bool) (body : A -> S -> result S)
  (xs : list A) :
  (forall x st, P x = false -> body x st = Ok st) ->
  forall st, forEach body (filter P xs) st = forEach body xs st.
Proof.
  intros Hskip. induction xs as [|x r IH]; intros st; simpl; [reflexivity|].
  destruct (P x) eqn:E; simpl.
  - destruct (body x st); simpl; auto.
  - now rewrite (Hskip x st E), IH.
Qed.

Lemma GetTypes_returns (i : JsonLdGraphItem) : GetTypes i <> StackOverflow.
Proof.
  unfold GetTypes. destruct (String.prefix "file:" (LD_ID i)); [discriminate|].
  destruct (LD_TYPES i) as [[t|[|t ts]]|]; discriminate.
Qed.

Lemma fromFile_types (i : JsonLdGraphItem) : fromFile i = true -> GetTypes i = Ok [].
Proof. unfold fromFile, GetTypes. now intros ->. Qed.

Lemma fromFile_IsClass (i : JsonLdGraphItem) : fromFile i = true -> IsClass i = Ok false.
Proof.
  intros F. unfold IsClass. rewrite (fromFile_types _ F). simpl.
  destruct (IsDataType (LD_ID i)); reflexivity.
Qed.

Lemma fromFile_untagged (i : JsonLdGraphItem) :
  fromFile i = true -> hasPropertyTag i = false.
Proof. intros F. unfold hasPropertyTag. now rewrite (fromFile_types _ F). Qed.

(** [FindProperties] is a plain [filter] once every [GetTypes] has
    returned. *)
Lemma FindProperties_filter (topics : list JsonLdGraphItem) :
  FindProperties topics
  = (_ <- forEach (fun topic (_ : unit) => _ <- GetTypes topic ;; Ok tt) topics tt ;;
     match filter hasPropertyTag topics with
     | [] => Throw "Unexpected: Property Topics to exist."
     | properties' => Ok properties'
     end).
Proof.
  unfold FindProperties.
  assert (G : forall ts : list JsonLdGraphItem,
             match mapM (fun topic => types' <- GetTypes topic ;;
                                      Ok (existsb IsPropertyType types')) ts with
             | Ok flags =>
                 forEach (fun topic (_ : unit) => _ <- GetTypes topic ;; Ok tt) ts tt
                 = Ok tt
                 /\ map fst (filter snd (combine ts flags)) = filter hasPropertyTag ts
             | Throw m =>
                 forEach (fun topic (_ : unit) => _ <- GetTypes topic ;; Ok tt) ts tt
                 = Throw m
             | StackOverflow =>
                 forEach (fun topic (_ : unit) => _ <- GetTypes topic ;; Ok tt) ts tt
                 = StackOverflow
             end).
  { induction ts as [|t r IH]; simpl; [split; reflexivity|].
    unfold hasPropertyTag at 1.
    destruct (GetTypes t) as [types'| |]; simpl; try reflexivity.
    destruct (mapM _ r) as [flags| |]; simpl; try exact IH.
    destruct IH as [IH1 IH2]. split; [exact IH1|].
    destruct (existsb IsPropertyType types'); simpl; [f_equal|]; exact IH2. }
  specialize (G topics).
  destruct (mapM _ topics) as [flags| |]; simpl.
  - destruct G as [G1 G2]. rewrite G1, G2. simpl.
    destruct (filter hasPropertyTag topics); reflexivity.
  - now rewrite G.
  - now rewrite G.
Qed.

Lemma typed_all (topics : list JsonLdGraphItem) :
  match forEach (fun topic (_ : unit) => _ <- GetTypes topic ;; Ok tt) topics tt with
  | Ok _ => Forall typed topics
  | Throw m => exists i, In i topics /\ GetTypes i = Throw m
  | StackOverflow => False
  end.
Proof.
  induction topics as [|t r IH]; simpl; [constructor|].
  destruct (GetTypes t) as [types'| |] eqn:E; simpl.
  - destruct (forEach _ r tt) as [u| |].
    + constructor; [now exists types'|exact IH].
    + destruct IH as [i [Hi Ei]]. exists i. auto.
    + exact IH.
  - exists t. auto.
  - now apply GetTypes_returns in E.
Qed.

(** X6.  [FindProperties] returns the topics tagged as properties, in their
    order, when every topic has its types and one of them at least is so
    tagged.  It throws what [GetTypes] throws on a topic, or, when every
    topic has its types and none is tagged, that it expected properties. *)
Theorem FindProperties_outcome (topics : list JsonLdGraphItem) :
  match FindProperties topics with
  | Ok properties' =>
      properties' = filter hasPropertyTag topics
      /\ properties' <> []
      /\ Forall typed topics
  | Throw m =>
      (exists i, In i topics /\ GetTypes i = Throw m)
      \/ (Forall typed topics
          /\ filter hasPropertyTag topics = []
          /\ m = "Unexpected: Property Topics to exist.")
  | StackOverflow => False
  end.
Proof.
  rewrite FindProperties_filter. pose proof (typed_all topics) as T.
  destruct (forEach _ topics tt) as [u| |]; simpl.
  - destruct (filter hasPropertyTag topics) as [|p ps] eqn:E.
    + right. auto.
    + split; [reflexivity|]. split; [discriminate|exact T].
  - left. exact T.
  - exact T.
Qed.

Section Facts.
Context `{Collaborators}.

Lemma ProcessClasses_without_files (items : list JsonLdGraphItem) :
  ProcessClasses (filter (fun i => negb (fromFile i)) items) = ProcessClasses items.
Proof.
  unfold ProcessClasses, ForwardDeclareClasses, BuildClasses.
  rewrite forEach_filter.
  - destruct (forEach _ items _) as [classes| |]; simpl; try reflexivity.
    destruct (JsMap.size classes); simpl; [reflexivity|].
    apply forEach_filter.
    intros x st E. apply negb_false_iff in E. now rewrite (fromFile_IsClass _ E).
  - intros x st E. apply negb_false_iff in E. now rewrite (fromFile_IsClass _ E).
Qed.

Lemma FindProperties_without_files (items : list JsonLdGraphItem) :
  FindProperties (filter (fun i => negb (fromFile i)) items) = FindProperties items.
Proof.
  rewrite !FindProperties_filter. rewrite forEach_filter.
  - assert (E : filter hasPropertyTag (filter (fun i => negb (fromFile i)) items)
                = filter hasPropertyTag items).
    { induction items as [|i r IH]; simpl; [reflexivity|].
      destruct (fromFile i) eqn:F; simpl.
      - now rewrite (fromFile_untagged _ F).
      - destruct (hasPropertyTag i); now rewrite IH. }
    now rewrite E.
  - intros x [] E. apply negb_false_iff in E. now rewrite (fromFile_types _ E).
Qed.

(** X7.  An item whose identifier begins with [file:] takes no part in what
    [main] builds: the classes, their properties and their enumeration
    values are those of the items without it. *)
Theorem file_items_ignored (graph : list JsonLdGraphMember)
  (items : list JsonLdGraphItem) :
  resolve graph = afterGroup (JsMap.values (group graph []))
  /\ afterGroup (filter (fun i => negb (fromFile i)) items) = afterGroup items.
Proof.
  split; [reflexivity|]. unfold afterGroup.
  rewrite ProcessClasses_without_files, FindProperties_without_files.
  destruct (ProcessClasses items) as [c1| |]; simpl; try reflexivity.
  destruct (FindProperties items) as [props| |]; simpl; try reflexivity.
  destruct (forEach PropertyType_init props c1) as [c2| |]; simpl; try reflexivity.
  apply forEach_filter. intros x st E. apply negb_false_iff in E.
  now rewrite (fromFile_types _ E).
Qed.

Lemma IsClass_outcome (i : JsonLdGraphItem) :
  match IsClass i with
  | Ok _ => typed i
  | Throw m => GetTypes i = Throw m
  | StackOverflow => False
  end.
Proof.
  unfold IsClass, typed. destruct (GetTypes i) as [types'| |] eqn:E; simpl.
  - now exists types'.
  - reflexivity.
  - now apply GetTypes_returns in E.
Qed.

Lemma typed_IsClass (i : JsonLdGraphItem) : typed i -> exists b, IsClass i = Ok b.
Proof. intros [types' E]. unfold IsClass. rewrite E. simpl. eauto. Qed.

Lemma forward_outcome (items : list JsonLdGraphItem) (seeded : ClassMap) :
  match forEach (fun item' classes =>
                   isClass <- IsClass item' ;;
                   Ok (if isClass : bool
                       then JsMap.set (LD_ID item')
                              (newClass {| item := item'; instanceofBuiltin := None |})
                              classes
                       else classes))
                items seeded with
  | Ok classes =>
      Forall typed items
      /\ (forall k, ~ In k (map LD_ID items) -> JsMap.get k classes = JsMap.get k seeded)
      /\ (NoDup (map LD_ID items) ->
          forall i, In i items -> IsClass i = Ok true ->
            JsMap.get (LD_ID i) classes
            = Some (newClass {| item := i; instanceofBuiltin := None |}))
  | Throw m => exists i, In i items /\ GetTypes i = Throw m
  | StackOverflow => False
  end.
Proof.
  revert seeded. induction items as [|x r IH]; intros seeded; simpl.
  - split; [constructor|]. split; [reflexivity|]. intros _ i [].
  - pose proof (IsClass_outcome x) as Hx.
    destruct (IsClass x) as [b| |] eqn:Ex; simpl; [|exists x; auto|exact Hx].
    match goal with |- match forEach _ r ?s with _ => _ end => specialize (IH s) end.
    destruct (forEach _ r _) as [classes| |]; [|destruct IH as [i [Hi Ei]]; eauto|exact IH].
    destruct IH as [Ht [Hframe Hnew]].
    assert (Hx' : forall k, k <> LD_ID x ->
                  JsMap.get k
                    (if b then JsMap.set (LD_ID x)
                                 (newClass {| item := x; instanceofBuiltin := None |})
                                 seeded
                     else seeded)
                  = JsMap.get k seeded).
    { intros k Hk. destruct b; [|reflexivity].
      apply JsMapFacts.get_set_ne. congruence. }
    split; [now constructor|]. split.
    + intros k Hk. rewrite Hframe by tauto. apply Hx'. intros C. apply Hk. now left.
    + intros Hnd i Hi Ei. inversion Hnd as [|? ? Hnotin Hnd']; subst.
      destruct Hi as [<-|Hi]; [|now apply Hnew].
      rewrite Hframe by exact Hnotin.
      rewrite Ex in Ei. inversion Ei; subst b. apply JsMapFacts.get_set_eq.
Qed.

Lemma set_self (k0 : string) (v v0 : Class) (m : ClassMap) :
  JsMap.get k0 m = Some v0 -> self v = self v0 ->
  forall k, option_map self (JsMap.get k (JsMap.set k0 v m))
            = option_map self (JsMap.get k m).
Proof.
  intros Hg Hs k. destruct (String.eqb_spec k0 k) as [E|E].
  - subst k. rewrite JsMapFacts.get_set_eq, Hg. simpl. now rewrite Hs.
  - now rewrite JsMapFacts.get_set_ne.
Qed.

Lemma init_outcome (this : string) (c : Class) (classMap : ClassMap) :
  JsMap.get this classMap = Some c ->
  match init this classMap with
  | Ok (_, classMap') =>
      JsMap.keys classMap' = JsMap.keys classMap
      /\ (forall k, option_map self (JsMap.get k classMap')
                    = option_map self (JsMap.get k classMap))
      /\ (forall p, hd_error (GetSubClassOf (item (self c))) = Some p ->
                    In p (JsMap.keys classMap))
  | Throw m =>
      exists p, hd_error (GetSubClassOf (item (self c))) = Some p
                /\ ~ In p (JsMap.keys classMap)
                /\ m = ("Couldn't find parent of " ++ this ++ ", " ++ p)%string
  | StackOverflow => False
  end.
Proof.
  intros Hget.
  destruct (init this classMap) as [[b classMap']| |] eqn:Ei.
  - split; [exact (EmissionFacts.init_keys _ _ Ei)|].
    unfold init in Ei. rewrite Hget in Ei.
    set (c1 := match GetComments _ _ with [] => c | _ => _ end) in Ei.
    assert (S1 : self c1 = self c).
    { unfold c1. destruct (GetComments _ _); reflexivity. }
    pose proof (set_self this c1 classMap Hget S1) as F1.
    pose proof (JsMapFacts.keys_set_present this c1 classMap Hget) as K1.
    destruct (GetSubClassOf (item (self c))) as [|parentId rest].
    + inversion Ei; subst. split; [exact F1|]. discriminate.
    + destruct (JsMap.get parentId (JsMap.set this c1 classMap)) as [parentClass|] eqn:Hp;
        [|discriminate].
      match type of Ei with
      | context [JsMap.set this ?c2 (JsMap.set this c1 classMap)] =>
          pose proof (set_self this c2 (JsMap.set this c1 classMap)
                        (JsMapFacts.get_set_eq this c1 classMap) eq_refl) as F2;
          set (classMap2 := JsMap.set this c2 (JsMap.set this c1 classMap)) in *
      end.
      destruct (JsMap.get parentId classMap2) as [p|] eqn:Hp2; [|discriminate].
      inversion Ei; subst. split.
      * intros k. rewrite set_self with (v0 := p); [|exact Hp2|reflexivity].
        now rewrite F2, F1.
      * intros q Hq. inversion Hq; subst q. rewrite <- K1.
        destruct (in_dec string_dec parentId (JsMap.keys (JsMap.set this c1 classMap)))
          as [Hin|Hout]; [exact Hin|].
        apply get_keys in Hout. congruence.
  - unfold init in Ei. rewrite Hget in Ei.
    set (c1 := match GetComments _ _ with [] => c | _ => _ end) in Ei.
    pose proof (JsMapFacts.keys_set_present this c1 classMap Hget) as K1.
    destruct (GetSubClassOf (item (self c))) as [|parentId rest]; [discriminate|].
    destruct (JsMap.get parentId (JsMap.set this c1 classMap)) as [parentClass|] eqn:Hp.
    + match type of Ei with
      | context [JsMap.set this ?c2 (JsMap.set this c1 classMap)] =>
          set (classMap2 := JsMap.set this c2 (JsMap.set this c1 classMap)) in *
      end.
      assert (Hp2 : JsMap.get parentId classMap2 <> None).
      { unfold classMap2. destruct (String.eqb_spec this parentId) as [E|E].
        - subst. now rewrite JsMapFacts.get_set_eq.
        - rewrite JsMapFacts.get_set_ne by exact E. now rewrite Hp. }
      destruct (JsMap.get parentId classMap2); [discriminate|congruence].
    + inversion Ei. exists parentId. split; [reflexivity|]. split; [|reflexivity].
      rewrite <- K1. now apply get_keys.
  - unfold init in Ei. rewrite Hget in Ei.
    destruct (GetSubClassOf (item (self c))) as [|parentId rest]; [discriminate|].
    destruct (JsMap.get parentId _); [|discriminate].
    destruct (JsMap.get parentId _); discriminate.
Qed.

Lemma build_outcome (all items : list JsonLdGraphItem) (K : list string)
  (classes : ClassMap) :
  incl items all -> Forall typed items ->
  JsMap.keys classes = K ->
  (forall i, In i all -> IsClass i = Ok true ->
     option_map self (JsMap.get (LD_ID i) classes)
     = Some {| item := i; instanceofBuiltin := None |}) ->
  match BuildClasses items classes with
  | Ok classes' =>
      JsMap.keys classes' = K
      /\ Forall (fun i => IsClass i = Ok true ->
                   forall p, hd_error (GetSubClassOf i) = Some p -> In p K) items
  | Throw m =>
      exists i p, In i items /\ IsClass i = Ok true
                  /\ hd_error (GetSubClassOf i) = Some p /\ ~ In p K
                  /\ m = ("Couldn't find parent of " ++ LD_ID i ++ ", " ++ p)%string
  | StackOverflow => False
  end.
Proof.
  unfold BuildClasses. revert classes.
  induction items as [|x r IH]; intros classes Hincl Htyped HK Hself;
    cbn [forEach].
  - split; [exact HK|constructor].
  - apply Forall_cons_iff in Htyped. destruct Htyped as [Hx Hr].
    assert (Hincl' : incl r all) by (intros y Hy; apply Hincl; now right).
    destruct (typed_IsClass Hx) as [b Eb]. rewrite Eb. cbn [bind]. destruct b.
    + pose proof (Hself x (Hincl x (or_introl eq_refl)) Eb) as Sx.
      destruct (JsMap.get (LD_ID x) classes) as [c|] eqn:Hc; [|discriminate].
      simpl in Sx. inversion Sx as [Sc].
      pose proof (init_outcome (LD_ID x) classes Hc) as I. rewrite Sc in I. simpl in I.
      destruct (init (LD_ID x) classes) as [[b1 classes1]| |]; cbn [bind].
      * destruct I as [I1 [I2 I3]].
        assert (Hself1 : forall i, In i all -> IsClass i = Ok true ->
                  option_map self (JsMap.get (LD_ID i) classes1)
                  = Some {| item := i; instanceofBuiltin := None |}).
        { intros i Hi Ei. rewrite I2. now apply Hself. }
        specialize (IH classes1 Hincl' Hr (eq_trans I1 HK) Hself1).
        destruct (forEach _ r _) as [classes'| |].
        -- destruct IH as [IH1 IH2]. split; [exact IH1|].
           constructor; [|exact IH2]. intros _ p Hp. rewrite <- HK. now apply I3.
        -- destruct IH as [i [p [Hi Hrest]]]. exists i, p. split; [now right|exact Hrest].
        -- exact IH.
      * destruct I as [p [Hp [Hout Hm]]]. exists x, p. rewrite <- HK.
        split; [now left|]. split; [exact Eb|]. split; [exact Hp|]. split; assumption.
      * exact I.
    + specialize (IH classes Hincl' Hr HK Hself). cbn [bind].
      destruct (forEach _ r _) as [classes'| |].
      * destruct IH as [IH1 IH2]. split; [exact IH1|].
        constructor; [|exact IH2]. intros Ex. rewrite Eb in Ex. discriminate.
      * destruct IH as [i [p [Hi Hrest]]]. exists i, p. split; [now right|exact Hrest].
      * exact IH.
Qed.

Lemma declared_keys (items : list JsonLdGraphItem) (p : string) :
  In p (builtinIds ++ SetValues builtinIds (classIds items)) <-> In p (declared items).
Proof.
  unfold declared. rewrite !in_app_iff, SortFacts.SetValues_In.
  destruct (in_dec string_dec p builtinIds); tauto.
Qed.

(** X8.  [ProcessClasses] on items of distinct identifiers.  It returns when
    every item has its types and the first parent of every class item is a
    builtin or a class item; the keys of the registry are then the builtins
    followed by the class items.  It throws what [GetTypes] throws on an
    item, or that it could not find the first parent of a class item.  It
    neither overflows the stack, nor misses class topics, nor meets a class
    that was not forward declared. *)
Theorem ProcessClasses_outcome (items : list JsonLdGraphItem) :
  NoDup (map LD_ID items) ->
  match ProcessClasses items with
  | Ok classes =>
      JsMap.keys classes = builtinIds ++ SetValues builtinIds (classIds items)
      /\ Forall typed items
      /\ Forall (fun i => IsClass i = Ok true ->
                   forall p, hd_error (GetSubClassOf i) = Some p ->
                             In p (declared items)) items
  | Throw m =>
      (exists i, In i items /\ GetTypes i = Throw m)
      \/ (Forall typed items
          /\ exists i p, In i items /\ IsClass i = Ok true
                         /\ hd_error (GetSubClassOf i) = Some p
                         /\ ~ In p (declared items)
                         /\ m = ("Couldn't find parent of " ++ LD_ID i ++ ", " ++ p)%string)
  | StackOverflow => False
  end.
Proof.
  intros Hnd. unfold ProcessClasses, ForwardDeclareClasses.
  match goal with
  | |- context [forEach ?body items ?seeded] =>
      pose proof (forward_outcome items seeded) as F;
      pose proof (@EmissionFacts.forward_keys _ items seeded) as Fk
  end.
  destruct (forEach _ items _) as [classes| |]; simpl; [|left; exact F|exact F].
  destruct F as [Ht [_ Hnew]]. specialize (Fk classes eq_refl).
  rewrite EmissionFacts.seeded_keys in Fk.
  destruct (JsMap.size classes) eqn:Hsize; simpl.
  { exfalso. unfold JsMap.size in Hsize. apply length_zero_iff_nil in Hsize.
    subst classes. discriminate Fk. }
  assert (Hself : forall i, In i items -> IsClass i = Ok true ->
            option_map self (JsMap.get (LD_ID i) classes)
            = Some {| item := i; instanceofBuiltin := None |}).
  { intros i Hi Ei. now rewrite (Hnew Hnd i Hi Ei). }
  pose proof (@build_outcome items items _ classes (incl_refl items) Ht Fk Hself) as B.
  destruct (BuildClasses items classes) as [classes'| |].
  - destruct B as [B1 B2]. split; [exact B1|]. split; [exact Ht|].
    eapply Forall_impl; [|exact B2]. intros i Hi Ei p Hp.
    apply declared_keys. now apply Hi.
  - right. split; [exact Ht|]. destruct B as [i [p [Hi [Ei [Hp [Hout Hm]]]]]].
    exists i, p. repeat (split; [assumption|]). split; [|exact Hm].
    intros C. apply Hout. now apply declared_keys.
  - exact B.
Qed.

End Facts.

Lemma ProcessClasses_outcome_witness :
  (exists classes,
     ProcessClasses (H := Samples.jsonLdCollaborators)
       [Samples.itemA; Samples.itemC ["http://schema.org/A"]] = Ok classes
     /\ JsMap.keys classes
        = builtinIds ++ ["http://schema.org/A"; "http://schema.org/C"])
  /\ ProcessClasses (H := Samples.jsonLdCollaborators)
       [Samples.itemA; Samples.itemC ["http://schema.org/B"]]
     = Throw "Couldn't find parent of http://schema.org/C, http://schema.org/B".
Proof.
  split.
  - assert (N : NoDup (map LD_ID [Samples.itemA; Samples.itemC ["http://schema.org/A"]])).
    { repeat constructor; simpl; intuition discriminate. }
    pose proof (@ProcessClasses_outcome Samples.jsonLdCollaborators _ N) as P.
    destruct (ProcessClasses _) as [classes| |] eqn:E.
    + exists classes. split; [reflexivity|]. destruct P as [P _]. rewrite P. reflexivity.
    + vm_compute in E. discriminate E.
    + destruct P.
  - assert (N : NoDup (map LD_ID [Samples.itemA; Samples.itemC ["http://schema.org/B"]])).
    { repeat constructor; simpl; intuition discriminate. }
    pose proof (@ProcessClasses_outcome Samples.jsonLdCollaborators _ N) as P.
    destruct (ProcessClasses _) as [classes| |] eqn:E.
    + vm_compute in E. discriminate E.
    + destruct P as [[i [Hi Ei]]|[_ [i [p [Hi [Ec [Hp [_ Hm]]]]]]]].
      * destruct Hi as [<-|[<-|[]]]; discriminate Ei.
      * destruct Hi as [<-|[<-|[]]]; [discriminate Hp|].
        simpl in Hp. inversion Hp; subst p. rewrite Hm. reflexivity.
    + destruct P.
Defined.

End PipelineFacts.

(** ** [lib/toProperty.ts]: [PropertyType.init] *)
Module DomainFacts.
Import JsonLd JsonLdNotions PipelineNotions.

Lemma withProps_addProp (p : Property) (c : Class) (ps : list Property) :
  withProps (addProp p c) ps = withProps c (p :: ps).
Proof. unfold withProps, addProp. simpl. now rewrite <- app_assoc. Qed.

Lemma withProps_nil (c : Class) : withProps c [] = c.
Proof. destruct c. unfold withProps. simpl. now rewrite app_nil_r. Qed.

Section Facts.
Context `{Collaborators}.

Lemma range_outcome (map' : ClassMap) (refs : list JsonLdObjectReference) :
  match mapM (fun ref =>
                match JsMap.get (ref_id ref) map' with
                | Some cls => Ok (self cls)
                | None => Throw ("Class with ID " ++ ref_id ref ++ " not found.")
                end) refs with
  | Ok types' =>
      Forall (fun id => In id (JsMap.keys map')) (map ref_id refs)
      /\ types' = flat_map (fun ref =>
                              match JsMap.get (ref_id ref) map' with
                              | Some cls => [self cls]
                              | None => []
                              end) refs
  | Throw m =>
      exists id, In id (map ref_id refs) /\ ~ In id (JsMap.keys map')
                 /\ m = ("Class with ID " ++ id ++ " not found.")%string
  | StackOverflow => False
  end.
Proof.
  induction refs as [|r rest IH]; cbn [mapM map flat_map].
  - split; [constructor|reflexivity].
  - destruct (JsMap.get (ref_id r) map') as [cls|] eqn:E; cbn [bind].
    + assert (Hin : In (ref_id r) (JsMap.keys map')).
      { destruct (in_dec string_dec (ref_id r) (JsMap.keys map')) as [Hin|Hout];
          [exact Hin|].
        apply PipelineFacts.get_keys in Hout. congruence. }
      destruct (mapM _ rest) as [types'| |]; cbn [bind].
      * destruct IH as [IH1 IH2]. split; [now constructor|]. now rewrite IH2.
      * destruct IH as [id [Hid Hrest]]. exists id. split; [now right|exact Hrest].
      * exact IH.
    + exists (ref_id r). split; [now left|]. split; [|reflexivity].
      now apply PipelineFacts.get_keys.
Qed.

Lemma domain_outcome (item' : JsonLdGraphItem) (p : Property)
  (refs : list JsonLdObjectReference) (map' : ClassMap) :
  match forEach (fun domain map'' =>
                   match JsMap.get (ref_id domain) map'' with
                   | Some cls =>
                       Ok (JsMap.set (ref_id domain) (addProp p cls) map'')
                   | None =>
                       Throw ("Could not find class for " ++ LD_ID item' ++ ", "
                                ++ ref_id domain ++ ".")
                   end) refs map' with
  | Ok map'' =>
      Forall (fun id => In id (JsMap.keys map')) (map ref_id refs)
      /\ JsMap.keys map'' = JsMap.keys map'
      /\ (forall k c, JsMap.get k map' = Some c ->
            JsMap.get k map''
            = Some (withProps c
                      (repeat p (count_occ string_dec (map ref_id refs) k))))
  | Throw m =>
      exists id, In id (map ref_id refs) /\ ~ In id (JsMap.keys map')
                 /\ m = ("Could not find class for " ++ LD_ID item' ++ ", "
                           ++ id ++ ".")%string
  | StackOverflow => False
  end.
Proof.
  revert map'. induction refs as [|d rest IH]; intros map'; cbn [forEach map].
  - split; [constructor|]. split; [reflexivity|].
    intros k c Hc. simpl. now rewrite withProps_nil.
  - destruct (JsMap.get (ref_id d) map') as [cls|] eqn:E; cbn [bind].
    + pose proof (JsMapFacts.keys_set_present (ref_id d) (addProp p cls) map' E) as K1.
      specialize (IH (JsMap.set (ref_id d) (addProp p cls) map')).
      destruct (forEach _ rest _) as [map''| |].
      * destruct IH as [IH1 [IH2 IH3]]. rewrite K1 in IH1, IH2.
        split.
        { constructor; [|exact IH1].
          destruct (in_dec string_dec (ref_id d) (JsMap.keys map')) as [Hin|Hout];
            [exact Hin|].
          apply PipelineFacts.get_keys in Hout. congruence. }
        split; [exact IH2|].
        intros k c Hc. destruct (string_dec (ref_id d) k) as [Ek|Ek].
        -- subst k. rewrite count_occ_cons_eq by reflexivity.
           rewrite (IH3 (ref_id d) (addProp p cls) (JsMapFacts.get_set_eq _ _ _)).
           rewrite withProps_addProp. simpl. congruence.
        -- rewrite count_occ_cons_neq by exact Ek.
           apply IH3. now rewrite JsMapFacts.get_set_ne.
      * destruct IH as [id [Hid [Hout Hm]]]. exists id. rewrite K1 in Hout.
        split; [now right|]. split; assumption.
      * exact IH.
    + exists (ref_id d). split; [now left|]. split; [|reflexivity].
      now apply PipelineFacts.get_keys.
Qed.

(** X9.  [PropertyType.init] returns when the registry has a class for every
    reference of the range and of the domain.  It then changes nothing but
    the own properties of the classes of the domain: each has the property
    appended once for every reference to it.  Otherwise it throws, on a
    missing class of the range first. *)
Theorem PropertyType_init_outcome (item' : JsonLdGraphItem) (map' : ClassMap) :
  match PropertyType_init item' map' with
  | Ok map'' =>
      Forall (fun id => In id (JsMap.keys map')) (rangeIds item')
      /\ Forall (fun id => In id (JsMap.keys map')) (domainIds item')
      /\ JsMap.keys map'' = JsMap.keys map'
      /\ (forall k c, JsMap.get k map' = Some c ->
            JsMap.get k map''
            = Some (withProps c
                      (repeat (propertyOf item' map')
                              (count_occ string_dec (domainIds item') k))))
  | Throw m =>
      (exists id, In id (rangeIds item') /\ ~ In id (JsMap.keys map')
                  /\ m = ("Class with ID " ++ id ++ " not found.")%string)
      \/ (Forall (fun id => In id (JsMap.keys map')) (rangeIds item')
          /\ exists id, In id (domainIds item') /\ ~ In id (JsMap.keys map')
                        /\ m = ("Could not find class for " ++ LD_ID item' ++ ", "
                                  ++ id ++ ".")%string)
  | StackOverflow => False
  end.
Proof.
  unfold PropertyType_init, rangeIds, domainIds.
  pose proof (range_outcome map' (ToArray (LD_RANGE_INCLUDES item'))) as R.
  destruct (mapM _ (ToArray (LD_RANGE_INCLUDES item'))) as [types'| |]; cbn [bind].
  - destruct R as [R1 R2].
    match goal with
    | |- context [forEach (fun domain map'' => match _ with
                                               | Some cls => Ok (JsMap.set _ (addProp ?p cls) _)
                                               | None => _ end) _ _] =>
        pose proof (domain_outcome item' p (ToArray (LD_DOMAIN_INCLUDES item')) map') as D;
        assert (Ep : p = propertyOf item' map')
          by (unfold propertyOf; now rewrite R2)
    end.
    destruct (forEach _ _ _) as [map''| |].
    + destruct D as [D1 [D2 D3]]. split; [exact R1|]. split; [exact D1|].
      split; [exact D2|]. intros k c Hc. rewrite <- Ep. now apply D3.
    + right. split; [exact R1|exact D].
    + exact D.
  - left. exact R.
  - exact R.
Qed.

End Facts.

End DomainFacts.

(** ** [lib/toClass.ts]: hierarchies with a cycle, and the loop of [main] *)
Module LoopFacts.
Import JsonLd JsonLdNotions PipelineNotions.

Section Facts.
Context `{Collaborators}.

Lemma aliasesBuiltin_endless (classMap : ClassMap) (I : list ClassRef -> Prop) :
  endless classMap I ->
  forall fuel ps, I ps -> aliasesBuiltin fuel classMap ps = StackOverflow.
Proof.
  intros He. induction fuel as [|fuel IH]; intros ps Hps;
    destruct (He ps Hps) as [p [rest [pc [-> [Hb [Hg Hi]]]]]];
    rewrite LeafFacts.aliasesBuiltin_cons, Hb; [reflexivity|].
  now rewrite Hg, (IH _ Hi).
Qed.

(** X10.  Where the parents of a class lead into a cycle of classes that are not
    [Builtin], a class without children never gets its declarations: the
    search for a [Builtin] ancestor exhausts every call stack.  A class with
    a child is not searched at all, and is no leaf. *)
Theorem endless_overflows (classMap : ClassMap) (I : list ClassRef -> Prop)
  (c : Class) :
  endless classMap I -> I (parents c) ->
  forall fuel,
    (children c = [] ->
     isLeaf fuel classMap c = StackOverflow
     /\ properties fuel classMap c = StackOverflow
     /\ baseNode fuel classMap c = StackOverflow
     /\ (instanceofBuiltin (self c) = None -> toNode fuel classMap c = StackOverflow))
    /\ (children c <> [] ->
        isLeaf fuel classMap c = Ok false
        /\ properties fuel classMap c = Ok (_props c)).
Proof.
  intros He Hi fuel. split.
  - intros Hc.
    assert (L : isLeaf fuel classMap c = StackOverflow).
    { unfold isLeaf. now rewrite Hc, (aliasesBuiltin_endless He fuel _ Hi). }
    assert (P : properties fuel classMap c = StackOverflow).
    { unfold properties. now rewrite L. }
    assert (B : baseNode fuel classMap c = StackOverflow).
    { unfold baseNode. now rewrite P. }
    split; [exact L|]. split; [exact P|]. split; [exact B|].
    intros Hb. unfold toNode, baseDecl. now rewrite Hb, B.
  - intros Hc.
    assert (L : isLeaf fuel classMap c = Ok false).
    { unfold isLeaf. destruct (children c); [congruence|reflexivity]. }
    split; [exact L|]. unfold properties. now rewrite L.
Qed.

(** X11.  The loop of [main] stops at the first class whose declarations it does
    not get: what it has written for the classes before stays written, and
    nothing is written for that class nor for those after it. *)
Theorem emit_stops_at_failure (fuel : nat) (classes : ClassMap)
  (before : list Class) (cls : Class) (after : list Class)
  (nodes : list (list Statement)) (written : list string) :
  mapM (toNode fuel classes) before = Ok nodes ->
  (forall ns, toNode fuel classes cls <> Ok ns) ->
  emit fuel classes (before ++ cls :: after) written
  = (written ++ flat_map writtenFor nodes, _ <- toNode fuel classes cls ;; Ok tt).
Proof.
  revert nodes written.
  induction before as [|b r IH]; intros nodes written Hb Hc; simpl.
  - inversion Hb; subst nodes. simpl. rewrite app_nil_r.
    destruct (toNode fuel classes cls) as [ns| |]; [now destruct (Hc ns)| |]; reflexivity.
  - simpl in Hb.
    destruct (toNode fuel classes b) as [ns| |]; simpl in Hb; try discriminate.
    destruct (mapM (toNode fuel classes) r) as [rest| |]; simpl in Hb; try discriminate.
    inversion Hb; subst nodes. rewrite (IH rest _ eq_refl Hc). simpl.
    unfold writtenFor. now rewrite <- !app_assoc.
Qed.

End Facts.

Lemma loop_endless :
  endless Scenarios.loopRegistry (fun ps => ps = [Scenarios.loopRef]).
Proof.
  intros ps ->. exists Scenarios.loopRef, [], Scenarios.loopClass.
  split; [reflexivity|]. split; [reflexivity|]. split; reflexivity.
Qed.

Lemma endless_overflows_witness :
  JsMap.get "http://schema.org/Twig" Scenarios.loopRegistry = Some Scenarios.twigClass
  /\ toNode (H := Samples.jsonLdCollaborators) 1000 Scenarios.loopRegistry
       Scenarios.twigClass = StackOverflow
  /\ properties (H := Samples.jsonLdCollaborators) 1000 Scenarios.loopRegistry
       Scenarios.loopClass = Ok [].
Proof.
  split; [reflexivity|].
  destruct (@endless_overflows Samples.jsonLdCollaborators Scenarios.loopRegistry _
              Scenarios.twigClass loop_endless eq_refl 1000) as [[_ [_ [_ T]]] _];
    [reflexivity|].
  destruct (@endless_overflows Samples.jsonLdCollaborators Scenarios.loopRegistry _
              Scenarios.loopClass loop_endless eq_refl 1000) as [_ L].
  split; [apply T; reflexivity|]. apply L. discriminate.
Defined.

Lemma emit_stops_at_failure_witness :
  declarations
    (fst (emit (H := Samples.jsonLdCollaborators) 3 Scenarios.loopRegistry
            (JsMap.values Scenarios.loopRegistry) []))
  = ["type Text"; "type Number"; "type Time"; "type Date"; "type DateTime";
     "type Boolean"; "type LoopBase"; "type Loop"]
  /\ snd (emit (H := Samples.jsonLdCollaborators) 3 Scenarios.loopRegistry
            (JsMap.values Scenarios.loopRegistry) [])
     = StackOverflow.
Proof.
  change (JsMap.values Scenarios.loopRegistry)
    with (firstn 7 (JsMap.values Scenarios.loopRegistry)
            ++ Scenarios.twigClass :: []).
  rewrite (@emit_stops_at_failure Samples.jsonLdCollaborators 3 Scenarios.loopRegistry
             (firstn 7 (JsMap.values Scenarios.loopRegistry)) Scenarios.twigClass []
             (match mapM (toNode (H := Samples.jsonLdCollaborators) 3
                            Scenarios.loopRegistry)
                         (firstn 7 (JsMap.values Scenarios.loopRegistry)) with
              | Ok nodes => nodes
              | _ => []
              end)).
  - split; [|reflexivity]. vm_compute. reflexivity.
  - vm_compute. reflexivity.
  - intros ns. vm_compute. discriminate.
Defined.

End LoopFacts.

(** ** [ts/class.ts]: the links [add] records *)
Module LinkFacts.
Import Triples RegistryNotions.

Section Facts.
Context `{Collaborators}.

Lemma links_step (m m' : ClassMap) (dp dc : string -> list ClassRef) :
  (forall k, match JsMap.get k m, JsMap.get k m' with
             | Some x, Some x' =>
                 self x' = self x
                 /\ parents x' = parents x ++ dp k
                 /\ children x' = children x ++ dc k
             | None, None => True
             | _, _ => False
             end) ->
  (forall ka kb a b, JsMap.get ka m = Some a -> JsMap.get kb m = Some b ->
                     (In (self b) (dp ka) <-> In (self a) (dc kb))) ->
  wellKeyed m -> mirrored m -> wellKeyed m' /\ mirrored m'.
Proof.
  intros F D W M. split.
  - intros k c' Hc'. specialize (F k). rewrite Hc' in F.
    destruct (JsMap.get k m) as [x|] eqn:Ex; [|contradiction].
    destruct F as [Fs _]. rewrite Fs. now apply W.
  - intros ka kb a' b' Ha' Hb'.
    pose proof (F ka) as Fa. pose proof (F kb) as Fb. rewrite Ha' in Fa. rewrite Hb' in Fb.
    destruct (JsMap.get ka m) as [a|] eqn:Ea; [|contradiction].
    destruct (JsMap.get kb m) as [b|] eqn:Eb; [|contradiction].
    destruct Fa as [Sa [Pa _]]. destruct Fb as [Sb [_ Cb]].
    rewrite Sa, Sb, Pa, Cb, !in_app_iff.
    pose proof (M ka kb a b Ea Eb). pose proof (D ka kb a b Ea Eb). tauto.
Qed.

Lemma replaced_links (m : ClassMap) (this : string) (c c' : Class) :
  JsMap.get this m = Some c ->
  self c' = self c -> parents c' = parents c -> children c' = children c ->
  wellKeyed m -> mirrored m ->
  wellKeyed (JsMap.set this c' m) /\ mirrored (JsMap.set this c' m).
Proof.
  intros Hg Hs Hp Hc.
  apply links_step with (dp := fun _ => []) (dc := fun _ => []).
  - intros k. destruct (String.eqb_spec this k) as [E|E].
    + subst k. rewrite JsMapFacts.get_set_eq, Hg, !app_nil_r. auto.
    + rewrite JsMapFacts.get_set_ne by exact E.
      destruct (JsMap.get k m); [|exact I]. now rewrite !app_nil_r.
  - intros. simpl. tauto.
Qed.

(** X12.  [add] on a receiver the registry holds.  It returns [false] for a value
    that is neither a comment, a parent nor a supersession, and then changes
    nothing; it throws only when the parent or the superseding class is not
    in the registry.  It never adds or removes a class, keeps every class
    under its own identifier, and keeps the links mutual: the parent it
    records gets the receiver as a child. *)
Theorem add_keeps_links (this : string) (c : Class)
  (v : ObjectPredicate TPredicate TObject) (classMap : ClassMap) :
  wellKeyed classMap -> mirrored classMap ->
  JsMap.get this classMap = Some c ->
  match add this v classMap with
  | Ok (consumed, classMap') =>
      consumed = recognised v
      /\ (consumed = false -> classMap' = classMap)
      /\ JsMap.keys classMap' = JsMap.keys classMap
      /\ wellKeyed classMap' /\ mirrored classMap'
  | Throw _ =>
      GetComment v = None
      /\ ((exists s, GetSubClassOf v = Some s
                     /\ JsMap.get (toString s) classMap = None)
          \/ (GetSubClassOf v = None
              /\ IsSupersededBy (Predicate v) = true
              /\ JsMap.get (objectToString (Object v)) classMap = None))
  | StackOverflow => False
  end.
Proof.
  intros W M Hg. unfold add, recognised. rewrite Hg.
  destruct (GetComment v) as [comment'|].
  { split; [reflexivity|]. split; [discriminate|].
    split; [exact (JsMapFacts.keys_set_present _ _ _ Hg)|].
    now apply replaced_links with (c := c). }
  destruct (GetSubClassOf v) as [s|].
  - destruct (JsMap.get (toString s) classMap) as [P|] eqn:EP;
      [|split; [reflexivity|left; eauto]].
    set (c1 := setParents c (parents c ++ [self P])).
    assert (Hp : JsMap.get (toString s) (JsMap.set this c1 classMap)
                 = Some (if String.eqb this (toString s) then c1 else P)).
    { destruct (String.eqb_spec this (toString s)) as [E|E].
      - rewrite <- E. apply JsMapFacts.get_set_eq.
      - now rewrite JsMapFacts.get_set_ne. }
    rewrite Hp. set (p := if String.eqb this (toString s) then c1 else P) in *.
    split; [reflexivity|]. split; [discriminate|]. split.
    { rewrite (JsMapFacts.keys_set_present _ _ _ Hp).
      exact (JsMapFacts.keys_set_present _ _ _ Hg). }
    apply links_step
      with (m := classMap)
           (dp := fun k => if String.eqb this k then [self P] else [])
           (dc := fun k => if String.eqb (toString s) k then [self c] else []);
      [| |exact W|exact M].
    + intros k. destruct (String.eqb_spec (toString s) k) as [Ek|Ek].
      * subst k. rewrite JsMapFacts.get_set_eq, EP. unfold p.
        destruct (String.eqb_spec this (toString s)) as [Et|Et].
        -- rewrite <- Et, Hg in EP. inversion EP; subst P. simpl. auto.
        -- simpl. now rewrite app_nil_r.
      * rewrite JsMapFacts.get_set_ne by exact Ek.
        destruct (String.eqb_spec this k) as [Et|Et].
        -- subst k. rewrite JsMapFacts.get_set_eq, Hg. simpl. now rewrite app_nil_r.
        -- rewrite JsMapFacts.get_set_ne by exact Et.
           destruct (JsMap.get k classMap); [|exact I]. now rewrite !app_nil_r.
    + intros ka kb a b Ha Hb.
      destruct (String.eqb_spec this ka) as [Ea|Ea];
        destruct (String.eqb_spec (toString s) kb) as [Eb|Eb]; simpl.
      * subst ka kb. rewrite Hg in Ha. rewrite EP in Hb. inversion Ha; inversion Hb.
        tauto.
      * split; [|tauto]. intros [E|[]]. exfalso. apply Eb.
        rewrite <- (W _ _ Hb), <- (W _ _ EP). now rewrite E.
      * split; [tauto|]. intros [E|[]]. exfalso. apply Ea.
        rewrite <- (W _ _ Ha), <- (W _ _ Hg). now rewrite E.
      * tauto.
  - destruct (IsSupersededBy (Predicate v)) eqn:Es.
    + destruct (JsMap.get (objectToString (Object v)) classMap) as [target|] eqn:Et;
        [|split; [reflexivity|right; auto]].
      split; [reflexivity|]. split; [discriminate|].
      split; [exact (JsMapFacts.keys_set_present _ _ _ Hg)|].
      now apply replaced_links with (c := c).
    + split; [reflexivity|]. split; [reflexivity|]. split; [reflexivity|]. now split.
Qed.

End Facts.

Lemma registry_wellKeyed : wellKeyed (H := Samples.triplesCollaborators) Samples.registry.
Proof.
  intros k c Hg. unfold Samples.registry in Hg. cbn [JsMap.get] in Hg.
  destruct (String.eqb_spec k "http://schema.org/Thing") as [E|E];
    [inversion Hg; subst; reflexivity|].
  destruct (String.eqb_spec k "http://schema.org/Person") as [E'|E'];
    [inversion Hg; subst; reflexivity|discriminate].
Qed.

Lemma registry_mirrored : mirrored Samples.registry.
Proof.
  intros ka kb a b Ha Hb. unfold Samples.registry in Ha, Hb.
  cbn [JsMap.get] in Ha, Hb.
  destruct (String.eqb ka "http://schema.org/Thing");
    [|destruct (String.eqb ka "http://schema.org/Person"); [|discriminate]];
    (destruct (String.eqb kb "http://schema.org/Thing");
     [|destruct (String.eqb kb "http://schema.org/Person"); [|discriminate]]);
    inversion Ha; inversion Hb; subst; simpl; intuition discriminate.
Qed.

Lemma add_keeps_links_witness :
  exists classMap',
    add (H := Samples.triplesCollaborators) "http://schema.org/Thing"
      {| Predicate := Samples.subClassOf;
         Object := Samples.Node (Samples.schema "Person") |}
      Samples.registry
    = Ok (true, classMap')
    /\ JsMap.keys classMap' = ["http://schema.org/Thing"; "http://schema.org/Person"]
    /\ mirrored classMap'.
Proof.
  pose proof (@add_keeps_links Samples.triplesCollaborators
                "http://schema.org/Thing" Samples.thing
                {| Predicate := Samples.subClassOf;
                   Object := Samples.Node (Samples.schema "Person") |}
                Samples.registry registry_wellKeyed registry_mirrored eq_refl) as A.
  destruct (add _ _ Samples.registry) as [[consumed classMap']| |] eqn:E.
  - destruct A as [Hc [_ [Hk [_ Hm]]]]. exists classMap'.
    rewrite Hc. split; [reflexivity|]. split; [rewrite Hk; reflexivity|exact Hm].
  - vm_compute in E. discriminate E.
  - destruct A.
Defined.

End LinkFacts.

(** ** [ts/class.ts]: the declarations of a class *)
Module DeclarationFacts.
Import Triples RegistryNotions.

Lemma toClassName_returns (s : TSubject) : toClassName s <> StackOverflow.
Proof. destruct s as [[n|] href|id]; discriminate. Qed.

Lemma names_outcome (B : Type) (h : ClassRef -> result B) (l : list ClassRef) :
  (forall r, match h r with
             | Ok _ => True
             | Throw m => toClassName (subject r) = Throw m
             | StackOverflow => False
             end) ->
  match mapM h l with
  | Ok _ => True
  | Throw m => exists r, In r l /\ toClassName (subject r) = Throw m
  | StackOverflow => False
  end.
Proof.
  intros Hh. induction l as [|x r IH]; cbn [mapM]; [exact I|].
  pose proof (Hh x) as Hx. destruct (h x) as [y| |]; cbn [bind].
  - destruct (mapM h r) as [ys| |]; cbn [bind]; [exact I| |exact IH].
    destruct IH as [q [Hq Eq]]. exists q. split; [now right|exact Eq].
  - exists x. split; [now left|exact Hx].
  - exact Hx.
Qed.

Section Facts.
Context `{Collaborators}.

Lemma className_outcome (B : Type) (g : string -> B) (r : ClassRef) :
  match (n <- className r ;; Ok (g n)) with
  | Ok _ => True
  | Throw m => toClassName (subject r) = Throw m
  | StackOverflow => False
  end.
Proof.
  unfold className. destruct (toClassName (subject r)) eqn:E; cbn [bind]; auto.
  now apply toClassName_returns in E.
Qed.

Lemma baseName_outcome (B : Type) (g : string -> B) (r : ClassRef) :
  match (n <- baseName r ;; Ok (g n)) with
  | Ok _ => True
  | Throw m => toClassName (subject r) = Throw m
  | StackOverflow => False
  end.
Proof.
  destruct r as [s|name href kind doc]; cbn [baseName subject bind]; [|exact I].
  destruct (toClassName s) eqn:E; cbn [bind]; auto.
  now apply toClassName_returns in E.
Qed.

Lemma isLeaf_ext (fuel : nat) (classMap : ClassMap) (c c' : Class) :
  (children c' = [] <-> children c = []) -> parents c' = parents c ->
  isLeaf fuel classMap c' = isLeaf fuel classMap c.
Proof.
  intros Hc Hp. unfold isLeaf. rewrite Hp.
  destruct (children c) as [|x r], (children c') as [|x' r']; try reflexivity.
  - destruct Hc as [_ Hc]. discriminate (Hc eq_refl).
  - destruct Hc as [Hc _]. discriminate (Hc eq_refl).
Qed.

Lemma nonEnumType_outcome (c : Class) (s : TSubject) :
  self c = ClassObject s ->
  match nonEnumType c with
  | Ok (_, c') =>
      c' = setChildren c (sort (fun a b => CompareKeys (subject a) (subject b))
                               (children c))
      /\ exists n, toClassName s = Ok n
  | Throw m => exists r, In r (self c :: children c) /\ toClassName (subject r) = Throw m
  | StackOverflow => False
  end.
Proof.
  intros Hs. unfold nonEnumType.
  set (c' := setChildren c _).
  pose proof (names_outcome (fun child => n <- className child ;; Ok (TypeReferenceNode n))
                (children c') (className_outcome TypeReferenceNode)) as M.
  destruct (mapM _ (children c')) as [children'| |]; cbn [bind].
  - assert (B : baseName (self c') = (n <- toClassName s ;; Ok (n ++ "Base")%string)).
    { unfold c'. simpl. now rewrite Hs. }
    destruct (toClassName s) as [n| |] eqn:E.
    + destruct (match children' with [] => None | _ => _ end);
        rewrite B; cbn [bind]; (split; [reflexivity|now exists n]).
    + destruct (match children' with [] => None | _ => _ end);
        rewrite B; cbn [bind]; exists (self c); rewrite Hs; (split; [now left|exact E]).
    + now apply toClassName_returns in E.
  - destruct M as [r [Hr Er]]. exists r. split; [|exact Er]. right.
    unfold c' in Hr. simpl in Hr. now apply SortFacts.sort_In in Hr.
  - exact M.
Qed.

Lemma totalType_outcome (c : Class) (s : TSubject) :
  self c = ClassObject s ->
  match totalType c with
  | Ok (_, c') =>
      c' = setChildren c (sort (fun a b => CompareKeys (subject a) (subject b))
                               (children c))
      /\ exists n, toClassName s = Ok n
  | Throw m => exists r, In r (self c :: children c) /\ toClassName (subject r) = Throw m
  | StackOverflow => False
  end.
Proof.
  intros Hs. pose proof (@nonEnumType_outcome c s Hs) as N. unfold totalType.
  destruct (_enums c); [exact N|].
  unfold enumName. rewrite Hs in N |- *. cbn [subject].
  destruct (toClassName s) as [n| |] eqn:E; cbn [bind].
  - destruct (nonEnumType c) as [[t c']| |]; cbn [bind]; exact N.
  - exists (ClassObject s). split; [now left|exact E].
  - now apply toClassName_returns in E.
Qed.

Lemma comment_outcome (c : Class) :
  match comment c with
  | Ok _ => True
  | Throw m => exists r, In r (_supersededBy c) /\ toClassName (subject r) = Throw m
  | StackOverflow => False
  end.
Proof.
  unfold comment. destruct (negb (Class_deprecated c)); [exact I|].
  assert (M : match mapM className (_supersededBy c) with
              | Ok _ => True
              | Throw m => exists r, In r (_supersededBy c)
                                     /\ toClassName (subject r) = Throw m
              | StackOverflow => False
              end).
  { apply names_outcome. intros r. unfold className.
    destruct (toClassName (subject r)) eqn:E; auto.
    now apply toClassName_returns in E. }
  destruct (mapM className (_supersededBy c)); cbn [bind]; exact M.
Qed.

Lemma enumDecl_outcome (c : Class) (s : TSubject) (n : string) :
  self c = ClassObject s -> toClassName s = Ok n ->
  exists e c',
    enumDecl c = Ok (e, c')
    /\ c' = setEnums c (sort (fun a b => CompareKeys (value a) (value b)) (_enums c))
    /\ map statementName (arrayOf [e])
       = match _enums c with [] => [] | _ => [(n ++ "Enum")%string] end
    /\ map statementExported (arrayOf [e])
       = match _enums c with [] => [] | _ => [true] end.
Proof.
  intros Hs Hn. unfold enumDecl. destruct (_enums c) as [|e0 es] eqn:Ee.
  - exists None, c. split; [reflexivity|]. split; [|split; reflexivity].
    destruct c. simpl in *. now subst.
  - unfold enumName. cbn [setEnums self]. rewrite Hs. cbn [subject]. rewrite Hn.
    cbn [bind]. eexists _, _. split; [reflexivity|]. split; [reflexivity|].
    split; reflexivity.
Qed.

Lemma baseDecl_outcome (skip : bool) (fuel : nat) (classMap : ClassMap) (c : Class)
  (s : TSubject) (n : string) :
  self c = ClassObject s -> toClassName s = Ok n ->
  match baseDecl skip fuel classMap c with
  | Ok (base, c') =>
      c' = setProps c (sort (fun a b => CompareKeys (key a) (key b)) (_props c))
      /\ statementName base = (n ++ "Base")%string
      /\ statementExported base = false
  | Throw m =>
      (exists r, In r (parents c) /\ toClassName (subject r) = Throw m)
      \/ isLeaf fuel classMap c = Throw m
  | StackOverflow => isLeaf fuel classMap c = StackOverflow
  end.
Proof.
  intros Hs Hn. unfold baseDecl, baseNode, properties.
  set (c' := setProps c _).
  assert (L : isLeaf fuel classMap c' = isLeaf fuel classMap c) by reflexivity.
  rewrite L. destruct (isLeaf fuel classMap c) as [leaf| |]; cbn [bind];
    [|right; reflexivity|reflexivity].
  pose proof (names_outcome (fun parent => n <- baseName parent ;; Ok (TypeReferenceNode n))
                (parents c') (baseName_outcome TypeReferenceNode)) as M.
  destruct (mapM _ (parents c')) as [parentTypes| |]; cbn [bind].
  - unfold c' at 1. cbn [setProps self]. rewrite Hs. cbn [baseName]. rewrite Hn.
    cbn [bind].
    split; [reflexivity|]. split; reflexivity.
  - left. exact M.
  - destruct M.
Qed.

(** X13.  [toNode] of a class that is not a [Builtin] returns, in this order, the
    enumeration when the class has values, the base, which is not exported,
    and the class, which is; it leaves the properties, the children and the
    values of the receiver sorted, and the rest of it as it was.  It throws
    only for a name it cannot form, of the class, of a child, of a
    superseding class or of a parent, and overflows the stack only where the
    search for a [Builtin] ancestor does. *)
Theorem toNode_declarations (skip : bool) (fuel : nat) (classMap : ClassMap)
  (c : Class) (s : TSubject) :
  self c = ClassObject s ->
  match toNode skip fuel classMap c with
  | Ok (stmts, c') =>
      exists n,
        toClassName s = Ok n
        /\ map statementName stmts
           = match _enums c with [] => [] | _ => [(n ++ "Enum")%string] end
             ++ [(n ++ "Base")%string; n]
        /\ map statementExported stmts
           = match _enums c with [] => [] | _ => [true] end ++ [false; true]
        /\ c' = setProps
                  (setEnums
                     (setChildren c
                        (sort (fun a b => CompareKeys (subject a) (subject b))
                              (children c)))
                     (sort (fun a b => CompareKeys (value a) (value b)) (_enums c)))
                  (sort (fun a b => CompareKeys (key a) (key b)) (_props c))
  | Throw m =>
      (exists r, In r (namedBy c) /\ toClassName (subject r) = Throw m)
      \/ isLeaf fuel classMap c = Throw m
  | StackOverflow => isLeaf fuel classMap c = StackOverflow
  end.
Proof.
  intros Hs. unfold toNode. rewrite Hs.
  pose proof (@totalType_outcome c s Hs) as T.
  destruct (totalType c) as [[typeValue c1]| |]; cbn [bind].
  2:{ destruct T as [r [Hr Er]]. left. exists r. split; [|exact Er].
      unfold namedBy. destruct Hr as [Hr|Hr]; [now left|right].
      apply in_or_app. now left. }
  2:{ destruct T. }
  destruct T as [E1 [n Hn]].
  assert (S1 : self c1 = ClassObject s) by (now rewrite E1).
  pose proof (comment_outcome c1) as C.
  destruct (comment c1) as [comment'| |]; cbn [bind].
  2:{ destruct C as [r [Hr Er]]. left. exists r. split; [|exact Er].
      rewrite E1 in Hr. unfold namedBy. right. apply in_or_app. right.
      apply in_or_app. now left. }
  2:{ destruct C. }
  unfold className. rewrite S1. cbn [subject]. rewrite Hn. cbn [bind].
  destruct (@enumDecl_outcome c1 s n S1 Hn) as [e [c2 [Ee [E2 [Ne Xe]]]]].
  rewrite Ee. cbn [bind].
  assert (S2 : self c2 = ClassObject s) by (now rewrite E2).
  pose proof (@baseDecl_outcome skip fuel classMap c2 s n S2 Hn) as B.
  assert (L : isLeaf fuel classMap c2 = isLeaf fuel classMap c).
  { apply isLeaf_ext; rewrite E2, E1; [|reflexivity]. simpl. apply SortFacts.sort_nil. }
  rewrite L in B.
  destruct (baseDecl skip fuel classMap c2) as [[base c3]| |]; cbn [bind].
  - destruct B as [E3 [Nb Xb]]. exists n. split; [reflexivity|].
    assert (Ee' : _enums c1 = _enums c) by (now rewrite E1).
    rewrite Ee' in Ne, Xe.
    split; [|split].
    + destruct e as [st|]; simpl in Ne |- *; rewrite <- Ne, Nb; reflexivity.
    + destruct e as [st|]; simpl in Xe |- *; rewrite <- Xe, Xb; reflexivity.
    + rewrite E3, E2, E1. reflexivity.
  - destruct B as [[r [Hr Er]]|B]; [|now right].
    left. exists r. split; [|exact Er]. rewrite E2, E1 in Hr. simpl in Hr.
    unfold namedBy. right. apply in_or_app. right. apply in_or_app. now right.
  - exact B.
Qed.

End Facts.

Lemma toNode_declarations_witness :
  exists stmts c',
    toNode (H := Samples.triplesCollaborators) false 1 Samples.registry Samples.person
    = Ok (stmts, c')
    /\ map statementName stmts = ["PersonBase"; "Person"]
    /\ map statementExported stmts = [false; true].
Proof.
  pose proof (@toNode_declarations Samples.triplesCollaborators false 1
                Samples.registry Samples.person (Samples.schema "Person") eq_refl) as T.
  destruct (toNode false 1 Samples.registry Samples.person) as [[stmts c']| |] eqn:E.
  - destruct T as [n [Hn [Hnames [Hflags _]]]]. exists stmts, c'.
    split; [reflexivity|]. inversion Hn; subst n. split; [exact Hnames|exact Hflags].
  - vm_compute in E. discriminate E.
  - vm_compute in E. discriminate E.
Defined.

End DeclarationFacts.

(** ** [lib/toClass.ts]: the comments of enumeration values *)
Module EnumCommentFacts.
Import JsonLd JsonLdNotions PipelineNotions.

Lemma uncommented_set (k : string) (c c0 : Class) (classMap : ClassMap) :
  uncommented classMap ->
  JsMap.get k classMap = Some c0 -> _enums c = _enums c0 ->
  uncommented (JsMap.set k c classMap).
Proof.
  intros U Hg He. apply GroupFacts.set_Forall; [exact U|]. simpl. rewrite He.
  apply GroupFacts.get_entry in Hg. unfold uncommented in U.
  rewrite Forall_forall in U. exact (U _ Hg).
Qed.

Section Facts.
Context `{Collaborators}.

Lemma init_uncommented (this : string) (classMap classMap' : ClassMap) (b : bool) :
  uncommented classMap -> init this classMap = Ok (b, classMap') ->
  uncommented classMap'.
Proof.
  intros U. unfold init.
  destruct (JsMap.get this classMap) as [c|] eqn:Hg; [|discriminate].
  set (c1 := match GetComments _ _ with [] => c | _ => _ end).
  assert (E1 : _enums c1 = _enums c).
  { unfold c1. destruct (GetComments _ _); reflexivity. }
  pose proof (uncommented_set this c1 U Hg E1) as U1.
  destruct (GetSubClassOf (item (self c))) as [|parentId rest].
  - intros E. inversion E; subst. exact U1.
  - destruct (JsMap.get parentId (JsMap.set this c1 classMap)) as [parentClass|];
      [|discriminate].
    match goal with
    | |- context [JsMap.set this ?c2 (JsMap.set this c1 classMap)] =>
        pose proof (uncommented_set this c2 U1
                      (JsMapFacts.get_set_eq this c1 classMap) eq_refl) as U2;
        set (classMap2 := JsMap.set this c2 (JsMap.set this c1 classMap)) in *
    end.
    destruct (JsMap.get parentId classMap2) as [p|] eqn:Hp; [|discriminate].
    intros E. inversion E; subst.
    now apply uncommented_set with (c0 := p).
Qed.

(** X14.  No member of an enumeration that [main] writes carries a comment:
    [EnumValue.init] returns as soon as it has given the value to a class,
    before the statements that would read the comment of the value. *)
Theorem enum_members_uncommented (graph : list JsonLdGraphMember)
  (classes : ClassMap) :
  resolve graph = Ok classes ->
  forall c comment' exported name' members,
    In c (JsMap.values classes) ->
    enumDecl c = Some (EnumDeclaration comment' exported name' members) ->
    length members = length (_enums c)
    /\ Forall (fun m => member_comment m = None) members.
Proof.
  intros E.
  assert (U : uncommented classes).
  { unfold resolve, ProcessClasses, ForwardDeclareClasses, BuildClasses in E.
    destruct (forEach _ (JsMap.values (group graph [])) _) as [c0| |] eqn:E0;
      cbn [bind] in E; try discriminate.
    assert (U0 : uncommented c0).
    { apply (EmissionFacts.forEach_preserves uncommented _ _) with (2 := E0).
      - intros x st st' Ex Ust.
        destruct (IsClass x) as [[|]| |]; cbn [bind] in Ex; try discriminate;
          inversion Ex; subst; [|exact Ust].
        apply GroupFacts.set_Forall; [exact Ust|]. constructor.
      - repeat constructor. }
    destruct (JsMap.size c0); cbn [bind] in E; [discriminate|].
    destruct (forEach _ (JsMap.values (group graph [])) c0) as [c1| |] eqn:E1;
      cbn [bind] in E; try discriminate.
    assert (U1 : uncommented c1).
    { apply (EmissionFacts.forEach_preserves uncommented _ _) with (2 := E1);
        [|exact U0].
      intros x st st' Ex Ust.
      destruct (IsClass x) as [[|]| |]; cbn [bind] in Ex; try discriminate.
      - destruct (JsMap.get (LD_ID x) st); [|discriminate].
        destruct (init (LD_ID x) st) as [[b st1]| |] eqn:Ei; cbn [bind] in Ex;
          try discriminate.
        inversion Ex; subst. exact (init_uncommented _ Ust Ei).
      - inversion Ex; subst. exact Ust. }
    destruct (FindProperties _) as [props| |]; cbn [bind] in E; try discriminate.
    destruct (forEach PropertyType_init props c1) as [c2| |] eqn:E2;
      cbn [bind] in E; try discriminate.
    assert (U2 : uncommented c2).
    { apply (EmissionFacts.forEach_preserves uncommented _ _) with (2 := E2);
        [|exact U1].
      intros x st st' Ex Ust. unfold PropertyType_init in Ex.
      destruct (mapM _ _) as [types'| |]; cbn [bind] in Ex; try discriminate.
      apply (EmissionFacts.forEach_preserves uncommented _ _) with (2 := Ex);
        [|exact Ust].
      intros d m m' Ed Um.
      destruct (JsMap.get (ref_id d) m) as [cls|] eqn:Hg; [|discriminate].
      inversion Ed; subst. now apply uncommented_set with (c0 := cls). }
    apply (EmissionFacts.forEach_preserves uncommented _ _) with (2 := E);
      [|exact U2].
    intros x st st' Ex Ust.
    destruct (GetTypes x) as [types'| |]; cbn [bind] in Ex; try discriminate.
    destruct (HasEnumType types'); [|inversion Ex; subst; exact Ust].
    unfold EnumValue_init in Ex.
    destruct (GetTypes x) as [types''| |]; cbn [bind] in Ex; try discriminate.
    clear types'. revert Ex. induction types'' as [|t r IH]; simpl.
    - intros Ex. inversion Ex; subst. exact Ust.
    - destruct (IsClassType t || IsDataType t); [exact IH|].
      destruct (JsMap.get t st) as [enumObject|] eqn:Hg; [|discriminate].
      intros Ex. inversion Ex; subst.
      apply GroupFacts.set_Forall; [exact Ust|]. simpl.
      apply Forall_app. split; [|repeat constructor].
      apply GroupFacts.get_entry in Hg. unfold uncommented in Ust.
      rewrite Forall_forall in Ust. exact (Ust _ Hg). }
  intros c comment' exported name' members Hc Hd.
  unfold JsMap.values in Hc. apply in_map_iff in Hc. destruct Hc as [entry [<- Hin]].
  unfold uncommented in U. rewrite Forall_forall in U. specialize (U _ Hin).
  unfold enumDecl in Hd. destruct (_enums (snd entry)) as [|e es]; [discriminate|].
  inversion Hd; subst. split.
  - change (length (map EnumValue_toNode (e :: es)) = length (e :: es)).
    apply length_map.
  - change (Forall (fun m => member_comment m = None)
                   (map EnumValue_toNode (e :: es))).
    apply Forall_map. eapply Forall_impl; [|exact U]. intros v Hv. exact Hv.
Qed.

End Facts.

Lemma enum_members_uncommented_witness :
  exists classes c members,
    resolve (H := Samples.jsonLdCollaborators)
      [Item Samples.itemA; Item Samples.itemP;
       Item (Samples.itemX ["http://schema.org/A"])] = Ok classes
    /\ JsMap.get "http://schema.org/A" classes = Some c
    /\ enumDecl (H := Samples.jsonLdCollaborators) c
       = Some (EnumDeclaration None true "AEnum" members)
    /\ map member_name members = ["X"]
    /\ Forall (fun m => member_comment m = None) members.
Proof.
  destruct (resolve (H := Samples.jsonLdCollaborators)
              [Item Samples.itemA; Item Samples.itemP;
               Item (Samples.itemX ["http://schema.org/A"])])
    as [classes| |] eqn:E; [|vm_compute in E; discriminate E..].
  destruct (JsMap.get "http://schema.org/A" classes) as [c|] eqn:Hc;
    [|vm_compute in E; inversion E; subst; vm_compute in Hc; discriminate Hc].
  assert (Ed : enumDecl (H := Samples.jsonLdCollaborators) c
               = Some (EnumDeclaration None true "AEnum"
                         [createEnumMember None "X" "http://schema.org/X"])).
  { pose proof E as E'. vm_compute in E'. inversion E'; subst classes.
    vm_compute in Hc. inversion Hc; subst c. reflexivity. }
  exists classes, c, [createEnumMember None "X" "http://schema.org/X"].
  split; [reflexivity|]. split; [exact Hc|]. split; [exact Ed|].
  split; [reflexivity|].
  exact (proj2 (@enum_members_uncommented Samples.jsonLdCollaborators _ classes E
                  c None true "AEnum" _ (JsMapFacts.get_Some_In _ _ Hc) Ed)).
Defined.

End EnumCommentFacts.
